(** * PatentFlow diagram annotation pipeline: a shallow embedding

    The development follows four services of [backend/app/services]:

    - [annotation_service.py]         (module [AnnotationService]),
    - [component_detector_service.py] (module [ComponentDetectorService]),
    - [vectorization_service.py]      (module [VectorizationService]),
    - [diagram_pipeline_service.py]   (module [DiagramPipelineService]).

    Python [int] is [Z]; Python [float] is the primitive binary64 type
    [float] of the kernel, so that every arithmetic step of the source is
    evaluated with the rounding the interpreter performs.  XML trees of
    [xml.etree.ElementTree] are the inductive type [ET.element]; the parser
    and the serializer of that library are parameters of the services that
    use them. *)

From Stdlib Require Import ZArith List Bool Lia Floats String Ascii.
From Stdlib Require Import DecimalString Permutation Sorted.
From Stdlib Require DecimalPos.
From Stdlib Require Reals Lra.
Import ListNotations.

Set Warnings "-inexact-float,-register-all".
Open Scope string_scope.
Open Scope list_scope.
Open Scope Z_scope.

(* ================================================================== *)
(** * Python runtime *)
(* ================================================================== *)

Module Py.

(** ** Numbers *)

(** [float(n)] for an [int] [n]: the nearest binary64 value, ties to even.
    CPython raises [OverflowError] beyond the binary64 range; the model
    saturates to an infinity there.  Pixel quantities stay far inside. *)
Definition float_of_Z (n : Z) : float :=
  SF2Prim (binary_normalize prec emax n 0 false).

(** [int(f)] for a [float] [f]: truncation toward zero; [None] stands for the
    [ValueError] / [OverflowError] raised on NaN and on the infinities. *)
Definition int_of_float (f : float) : option Z :=
  match Prim2SF f with
  | S754_zero _ => Some 0
  | S754_finite s m e =>
      let a := Z.shiftl (Z.pos m) e in
      Some (if s then - a else a)
  | S754_infinity _ | S754_nan => None
  end.

(** Exact comparison of a [float] with an [int], as CPython's rich comparison
    of mixed operands performs it (no rounding of the integer). *)
Definition cmp_float_Z (f : float) (n : Z) : option comparison :=
  match Prim2SF f with
  | S754_nan => None
  | S754_infinity s => Some (if s then Lt else Gt)
  | S754_zero _ => Some (0 ?= n)
  | S754_finite s m e =>
      let v := if s then Z.neg m else Z.pos m in
      Some (if 0 <=? e then (v * 2 ^ e ?= n) else (v ?= n * 2 ^ (- e)))
  end.

(** [f < n] *)
Definition float_lt_int (f : float) (n : Z) : bool :=
  match cmp_float_Z f n with Some Lt => true | _ => false end.

(** [f > n] *)
Definition float_gt_int (f : float) (n : Z) : bool :=
  match cmp_float_Z f n with Some Gt => true | _ => false end.

(** [math.sqrt(n)] for an [int] [n]. *)
Definition math_sqrt_int (n : Z) : float := PrimFloat.sqrt (float_of_Z n).

(** [w / h] for two [int]s ([h] is not zero at the call site): true
    division, the exact quotient rounded once to the nearest binary64 value,
    ties to even, whatever the size of the operands; a zero numerator gives
    a zero of the sign of the quotient.  CPython raises [OverflowError] when
    the quotient is beyond the binary64 range; the model gives an infinity
    there. *)
Definition truediv (w h : Z) : float :=
  let s := xorb (w <? 0) (h <? 0) in
  match Z.abs w with
  | 0 => SF2Prim (S754_zero s)
  | a =>
      let '(q, e, l) := SFdiv_core_binary prec emax a 0 (Z.abs h) 0 in
      SF2Prim (binary_round_aux prec emax s q e l)
  end.

(** ** Strings

    A [str] is modelled by the string of its code points; the characters
    of [string] hold the code points up to 255. *)

(** [str(n)] for an [int]. *)
Definition str (n : Z) : string := NilZero.string_of_int (Z.to_int n).

(** [c.isspace()]: TAB, LF, VT, FF, CR, FS, GS, RS, US, the space, NEL
    (U+0085) and the no-break space (U+00A0). *)
Definition isspace (c : ascii) : bool :=
  let n := nat_of_ascii c in
  ((9 <=? n) && (n <=? 13) || (28 <=? n) && (n <=? 32)
   || (n =? 133) || (n =? 160))%nat.

Section Strip.
(** The characters to strip. *)
Variable space : ascii -> bool.

Fixpoint lstrip_of (s : string) : string :=
match s with
| EmptyString => EmptyString
| String c r => if space c then lstrip_of r else s
end.

Fixpoint rstrip_of (s : string) : string :=
match s with
| EmptyString => EmptyString
| String c r =>
    match rstrip_of r with
    | EmptyString => if space c then EmptyString else String c EmptyString
    | r' => String c r'
    end
end.
End Strip.

Definition lstrip : string -> string := lstrip_of isspace.
Definition rstrip : string -> string := rstrip_of isspace.

(** [s.strip()] *)
Definition strip (s : string) : string := rstrip (lstrip s).

(** Truth value of a string: [bool(s)]. *)
Definition truthy (s : string) : bool :=
  match s with EmptyString => false | _ => true end.

(** [s.replace(old, new)] for a non-empty [old]: every occurrence, scanning
    from the left, occurrences not overlapping.  [skip] counts the characters
    of an occurrence still to be dropped. *)
Fixpoint replace_from (old new : string) (skip : nat) (s : string) : string :=
  match s with
  | EmptyString => EmptyString
  | String c r =>
      match skip with
      | S k => replace_from old new k r
      | O =>
          if String.prefix old s
          then (new ++ replace_from old new (Nat.pred (String.length old)) r)%string
          else String c (replace_from old new O r)
      end
  end.

Definition replace (s old new : string) : string := replace_from old new O s.

Definition is_digit (c : ascii) : bool :=
  let n := nat_of_ascii c in ((48 <=? n) && (n <=? 57))%nat.

Definition digit_value (c : ascii) : Z := Z.of_nat (nat_of_ascii c) - 48.

(** Digits of an integer literal: a digit first and last, single underscores
    only between digits. *)
Fixpoint digits_acc (s : string) (acc : Z) (after_digit : bool) : option Z :=
  match s with
  | EmptyString => if after_digit then Some acc else None
  | String c r =>
      if is_digit c then digits_acc r (10 * acc + digit_value c) true
      else if Ascii.eqb c "_" then
        (if after_digit then digits_acc r acc false else None)
      else None
  end.

(** White space as [int()] skips it around the digits: TAB, LF, VT, FF, CR
    and the space. *)
Definition c_isspace (c : ascii) : bool :=
  let n := nat_of_ascii c in
  ((9 <=? n) && (n <=? 13) || (n =? 32))%nat.

Fixpoint all_ascii (s : string) : bool :=
  match s with
  | EmptyString => true
  | String c r => (nat_of_ascii c <? 128)%nat && all_ascii r
  end.

(** What [int()] reads instead of a text that has a character outside
    ASCII: from DEL on, white space becomes a space and any other character
    a question mark, which no integer literal contains (no code point from
    DEL to 255 is a decimal digit). *)
Fixpoint spaces_to_ascii (s : string) : string :=
  match s with
  | EmptyString => EmptyString
  | String c r =>
      String (if (nat_of_ascii c <? 127)%nat then c
              else if isspace c then " "%char else "?"%char)
        (spaces_to_ascii r)
  end.

(** [int(s)] for a [str] [s] in base 10; [None] stands for [ValueError].
    The limit CPython 3.11 puts on the number of digits (4300 unless
    configured otherwise) is not modelled. *)
Definition int_of_str (s : string) : option Z :=
  let s := if all_ascii s then s else spaces_to_ascii s in
  match rstrip_of c_isspace (lstrip_of c_isspace s) with
  | String "+" r => digits_acc r 0 false
  | String "-" r => option_map Z.opp (digits_acc r 0 false)
  | r => digits_acc r 0 false
  end.

(** ** [sorted(xs, key=key, reverse=True)]

    A stable sort into descending key order: of two elements neither of whose
    keys is smaller than the other, the one met first in [xs] comes first.
    [lt] is the [<] of the key type, the only comparison [list.sort] uses;
    on keys that [<] orders totally the result of [list.sort] is this one. *)
Section SortedReverse.
Context {A K : Type}.
Variable lt : K -> K -> bool.
Variable key : A -> K.

Fixpoint insert_desc (x : A) (l : list A) : list A :=
  match l with
  | [] => [x]
  | y :: l' => if lt (key x) (key y) then y :: insert_desc x l' else x :: l
  end.

Definition sorted_reverse (xs : list A) : list A :=
  fold_right insert_desc [] xs.

(** [a] may stand before [b] in descending order: the key of [a] is not
    smaller than the key of [b]. *)
Definition not_below (a b : A) : Prop := lt (key a) (key b) = false.
End SortedReverse.

(** [xs[:n]], with Python's reading of a negative bound. *)
Definition slice_to {A : Type} (xs : list A) (n : Z) : list A :=
  if 0 <=? n then firstn (Z.to_nat n) xs
  else firstn (Z.to_nat (Z.of_nat (List.length xs) + n)) xs.

(** [enumerate(xs)] counted from [i]. *)
Fixpoint enumerate_from {A : Type} (i : Z) (xs : list A) : list (Z * A) :=
  match xs with
  | [] => []
  | x :: r => (i, x) :: enumerate_from (i + 1) r
  end.

Definition enumerate {A : Type} (xs : list A) : list (Z * A) :=
  enumerate_from 0 xs.

End Py.

(* ================================================================== *)
(** * The values of binary64 numbers *)
(* ================================================================== *)

Module Binary64.
Import Reals.

(** The binary64 number of sign [s] and magnitude [m * 2^e], for a mantissa
    [m] of at most 53 bits or equal to 2^53, as rounding packs it: zero, a
    finite number (renormalized when the mantissa reached 2^53) or, beyond
    the largest exponent, an infinity. *)
Definition pack (s : bool) (m e : Z) : spec_float :=
  if m =? 0 then S754_zero s
  else if m =? 2 ^ 53 then
    if e + 1 <=? 971 then S754_finite s (2 ^ 52)%positive (e + 1)
    else S754_infinity s
  else if e <=? 971 then S754_finite s (Z.to_pos m) e
  else S754_infinity s.

(** Zero or finite. *)
Definition is_finite_SF (x : spec_float) : bool :=
  match x with
  | S754_zero _ | S754_finite _ _ _ => true
  | _ => false
  end.

Definition is_finite (f : float) : bool := is_finite_SF (Prim2SF f).

(** The real value of a zero or finite number (0 for the others). *)
Definition SF2R (x : spec_float) : R :=
  match x with
  | S754_finite s m e =>
      ((if s then - IZR (Z.pos m) else IZR (Z.pos m)) * powerRZ 2 e)%R
  | _ => 0%R
  end.

Definition F2R (f : float) : R := SF2R (Prim2SF f).

Definition sign_of (s : bool) : R := if s then (-1)%R else 1%R.

(** A finite number between 2^-100 and 2^100 in magnitude. *)
Definition moderate (f : float) : Prop :=
  is_finite f = true /\
  (/ IZR (2 ^ 100) <= Rabs (F2R f) <= IZR (2 ^ 100))%R.

(** [x] is [v] up to a relative error of 2^-52, the error of one correctly
    rounded operation. *)
Definition close (x v : R) : Prop :=
  (Rabs (x - v) <= Rabs v / IZR (2 ^ 52))%R.

End Binary64.

(* ================================================================== *)
(** * xml.etree.ElementTree *)
(* ================================================================== *)

Module ET.

(** An [Element]: tag, attribute dictionary in insertion order, [text],
    [tail] and the list of children. *)
Inductive element : Type :=
| Element (tag : string) (attrib : list (string * string))
          (text tail : option string) (children : list element).

Definition tag (e : element) : string :=
  match e with Element t _ _ _ _ => t end.
Definition attrib (e : element) : list (string * string) :=
  match e with Element _ a _ _ _ => a end.
Definition text (e : element) : option string :=
  match e with Element _ _ t _ _ => t end.
Definition tail (e : element) : option string :=
  match e with Element _ _ _ t _ => t end.
Definition children (e : element) : list element :=
  match e with Element _ _ _ _ c => c end.

(** [ET.Element(tag, attrib)] *)
Definition new (tg : string) (at_ : list (string * string)) : element :=
  Element tg at_ None None [].

(** [parent.append(child)] *)
Definition append (parent child : element) : element :=
  match parent with
  | Element tg a tx tl ch => Element tg a tx tl (ch ++ [child])
  end.

(** [elem.text = s] *)
Definition set_text (e : element) (s : string) : element :=
  match e with
  | Element tg a _ tl ch => Element tg a (Some s) tl ch
  end.

(** [elem.tail = s] *)
Definition set_tail (e : element) (s : option string) : element :=
  match e with
  | Element tg a tx _ ch => Element tg a tx s ch
  end.

(** [elem.get(key)] *)
Fixpoint lookup (k : string) (a : list (string * string)) : option string :=
  match a with
  | [] => None
  | (k', v) :: r => if String.eqb k k' then Some v else lookup k r
  end.

Definition get (e : element) (k : string) : option string :=
  lookup k (attrib e).

(** Induction on a tree, with the property available for every child. *)
Fixpoint element_children_ind (P : element -> Prop)
    (step : forall tg a tx tl ch, Forall P ch -> P (Element tg a tx tl ch))
    (e : element) : P e :=
  match e with
  | Element tg a tx tl ch =>
      step tg a tx tl ch
        ((fix children_ok (l : list element) : Forall P l :=
            match l with
            | [] => Forall_nil P
            | c :: r =>
                Forall_cons c (element_children_ind P step c) (children_ok r)
            end) ch)
  end.

End ET.

(* ================================================================== *)
(** * Data exchanged between the services *)
(* ================================================================== *)

(** The value of the ['type'] key of a component. *)
Inductive shape_class : Type :=
| circular | horizontal | vertical | rectangular_h | rectangular_v
| square | unknown.

Definition shape_name (s : shape_class) : string :=
  match s with
  | circular => "circular" | horizontal => "horizontal"
  | vertical => "vertical" | rectangular_h => "rectangular_h"
  | rectangular_v => "rectangular_v" | square => "square"
  | unknown => "unknown"
  end.

(** A bounding box [[x, y, w, h]] and a position [(x, y)]. *)
Definition bbox_t : Type := Z * Z * Z * Z.
Definition position_t : Type := Z * Z.

(** The dictionary the detector builds for a component.  The pixel mask
    (key ['mask']) is not read by any function modelled here and is left
    out. *)
Record component : Type := mkComponent {
  c_id : Z;
  c_bbox : bbox_t;
  c_area : Z;
  c_predicted_iou : float;
  c_stability_score : float;
  c_type : shape_class
}.

(** The dictionary [place_labels_on_svg] records for a label. *)
Record label : Type := mkLabel {
  number : Z;
  position : position_t;
  component_id : Z;
  has_leader_line : bool
}.

(* ================================================================== *)
(** * annotation_service.py *)
(* ================================================================== *)

Module AnnotationService.

(** Attributes set by [__init__]. *)
Definition label_font_size : Z := 14.
Definition label_font_family : string := "Arial, sans-serif".
Definition circle_radius : Z := 12.
Definition min_label_distance : Z := 25.

(** [importance_score], the sort key local to
    [_sort_components_by_importance]. *)
Definition importance_score (comp : component) : float :=
  let '(x, y, w, h) := c_bbox comp in
  let area := c_area comp in
  let position_score :=
    ((Py.float_of_Z y * 0.3 + Py.float_of_Z x * 0.1) / Py.float_of_Z 1000)%float in
  let area_score := area in
  (Py.float_of_Z area_score - position_score)%float.

Definition _sort_components_by_importance (components : list component)
  : list component :=
  Py.sorted_reverse PrimFloat.ltb importance_score components.

Definition _calculate_center (bbox : bbox_t) : position_t :=
  let '(x, y, w, h) := bbox in
  (x + w / 2, y + h / 2).

Definition _distance (pos1 pos2 : position_t) : float :=
  Py.math_sqrt_int ((fst pos1 - fst pos2) ^ 2 + (snd pos1 - snd pos2) ^ 2).

Fixpoint _is_position_clear (position : position_t)
    (existing_positions : list position_t) (min_distance : Z) : bool :=
  match existing_positions with
  | [] => true
  | existing_pos :: rest =>
      let distance := _distance position existing_pos in
      if Py.float_lt_int distance min_distance then false
      else _is_position_clear position rest min_distance
  end.

(** The candidate list of [_calculate_label_position], in order of
    preference. *)
Definition candidates (bbox : bbox_t) : list position_t :=
  let '(x, y, w, h) := bbox in
  let margin := 15 in
  [ (x + w + margin, y);                  (* Right-top *)
    (x + w + margin, y + h / 2);          (* Right-middle *)
    (x - margin - 30, y);                 (* Left-top *)
    (x + w / 2 - 10, y - margin - 15);    (* Top-center *)
    (x + w / 2 - 10, y + h + margin);     (* Bottom-center *)
    (x + w + margin, y + h);              (* Right-bottom *)
    (x - margin - 30, y + h / 2) ].       (* Left-middle *)

(** The two bound tests of the candidate loop; [true] when neither
    [continue] is taken. *)
Definition in_bounds (image_bounds : Z * Z) (pos : position_t) : bool :=
  let '(img_width, img_height) := image_bounds in
  let '(pos_x, pos_y) := pos in
  negb ((pos_x <? 10) || (pos_x >? img_width - 30))
  && negb ((pos_y <? 15) || (pos_y >? img_height - 10)).

(** The [for] loop over the candidates: the position returned from inside
    the loop, or [None] when the loop runs to its end. *)
Fixpoint scan_candidates (cands : list position_t)
    (existing_positions : list position_t) (image_bounds : Z * Z)
  : option position_t :=
  match cands with
  | [] => None
  | pos :: rest =>
      if negb (in_bounds image_bounds pos)
      then scan_candidates rest existing_positions image_bounds
      else if _is_position_clear pos existing_positions min_label_distance
      then Some pos
      else scan_candidates rest existing_positions image_bounds
  end.

Definition _calculate_label_position (bbox : bbox_t)
    (component_center : position_t) (existing_positions : list position_t)
    (image_bounds : Z * Z) : position_t :=
  match scan_candidates (candidates bbox) existing_positions image_bounds with
  | Some pos => pos
  | None =>
      (* Fallback: use first candidate even if overlapping *)
      nth 0 (candidates bbox) (0, 0)
  end.

(** The [<g class="patent-label">] group built by [_add_label_to_svg]. *)
Definition label_group (label_number : Z) (pos : position_t) : ET.element :=
  let '(x, y) := pos in
  let group := ET.new "g" [("class", "patent-label")] in
  let circle := ET.new "circle"
    [ ("cx", Py.str x); ("cy", Py.str y); ("r", Py.str circle_radius);
      ("fill", "white"); ("stroke", "black"); ("stroke-width", "1.5") ] in
  let group := ET.append group circle in
  let text := ET.new "text"
    [ ("x", Py.str x); ("y", Py.str (y + 5));
      ("font-family", label_font_family);
      ("font-size", Py.str label_font_size);
      ("font-weight", "bold"); ("fill", "black");
      ("text-anchor", "middle"); ("dominant-baseline", "middle") ] in
  let text := ET.set_text text (Py.str label_number) in
  ET.append group text.

Definition _add_label_to_svg (svg_root : ET.element) (label_number : Z)
    (pos : position_t) : ET.element :=
  ET.append svg_root (label_group label_number pos).

(** The adjusted end point [(int(x2_adj), int(y2_adj))] computed by
    [_add_leader_line]; [None] when [int] raises. *)
Definition leader_end (from_pos to_pos : position_t) : option position_t :=
  let '(x1, y1) := from_pos in
  let '(x2, y2) := to_pos in
  let dx := x2 - x1 in
  let dy := y2 - y1 in
  let length := Py.math_sqrt_int (dx * dx + dy * dy) in
  if Py.float_gt_int length 0 then
    let factor :=
      ((length - Py.float_of_Z circle_radius - Py.float_of_Z 2) / length)%float in
    let x2_adj := (Py.float_of_Z x1 + Py.float_of_Z dx * factor)%float in
    let y2_adj := (Py.float_of_Z y1 + Py.float_of_Z dy * factor)%float in
    match Py.int_of_float x2_adj, Py.int_of_float y2_adj with
    | Some x2i, Some y2i => Some (x2i, y2i)
    | _, _ => None
    end
  else Some (x2, y2).

(** The [<line class="leader-line">] element of [_add_leader_line]. *)
Definition leader_line (from_pos end_pos : position_t) : ET.element :=
  ET.new "line"
    [ ("x1", Py.str (fst from_pos)); ("y1", Py.str (snd from_pos));
      ("x2", Py.str (fst end_pos)); ("y2", Py.str (snd end_pos));
      ("stroke", "black"); ("stroke-width", "1");
      ("stroke-dasharray", "3,3"); ("class", "leader-line") ].

Definition _add_leader_line (svg_root : ET.element)
    (from_pos to_pos : position_t) : option ET.element :=
  match leader_end from_pos to_pos with
  | Some end_pos => Some (ET.append svg_root (leader_line from_pos end_pos))
  | None => None
  end.

(** The state the labelling loop of [place_labels_on_svg] updates:
    the tree, [labels] and [placed_positions]. *)
Record loop_state : Type := mkState {
  svg_root : ET.element;
  labels : list label;
  placed_positions : list position_t
}.

(** One iteration of the loop body, for the pair [(i, component)] of
    [enumerate(sorted_components)].  [distance > 30] is computed once here;
    the source evaluates the same expression for the leader line and for
    the ['has_leader_line'] entry. *)
Definition loop_body (image_bounds : Z * Z) (start_number increment : Z)
    (add_leader_lines : bool) (st : loop_state) (i : Z) (comp : component)
  : option loop_state :=
  let label_number := start_number + i * increment in
  let bbox := c_bbox comp in
  let component_center := _calculate_center bbox in
  let label_pos :=
    _calculate_label_position bbox component_center
      (placed_positions st) image_bounds in
  let root1 := _add_label_to_svg (svg_root st) label_number label_pos in
  let far :=
    add_leader_lines
    && Py.float_gt_int (_distance label_pos component_center) 30 in
  let root2 :=
    if far then _add_leader_line root1 component_center label_pos
    else Some root1 in
  match root2 with
  | None => None
  | Some r =>
      Some (mkState r
              (labels st ++ [mkLabel label_number label_pos (c_id comp) far])
              (placed_positions st ++ [label_pos]))
  end.

Fixpoint run_loop (image_bounds : Z * Z) (start_number increment : Z)
    (add_leader_lines : bool) (st : loop_state)
    (items : list (Z * component)) : option loop_state :=
  match items with
  | [] => Some st
  | (i, comp) :: rest =>
      match loop_body image_bounds start_number increment
              add_leader_lines st i comp with
      | None => None
      | Some st' =>
          run_loop image_bounds start_number increment add_leader_lines
            st' rest
      end
  end.

(** [int(svg_root.get(name, default))] *)
Definition dimension (root : ET.element) (name : string) (default : Z)
  : option Z :=
  match ET.get root name with
  | Some s => Py.int_of_str s
  | None => Some default
  end.

Section PlaceLabels.
(** [ET.fromstring] ([None] is [ParseError]) and
    [ET.tostring(_, encoding='unicode')]. *)
Variable fromstring : string -> option ET.element.
Variable tostring : ET.element -> string.

(** The [try] / [except ET.ParseError] around the parser. *)
Definition parse_svg (svg_content : string) : option ET.element :=
  match fromstring svg_content with
  | Some root => Some root
  | None => fromstring (Py.replace svg_content "xmlns=" "xmlnamespace=")
  end.

(** Everything between parsing and serializing. *)
Definition annotate_tree (root : ET.element) (components : list component)
    (start_number increment : Z) (add_leader_lines : bool)
  : option loop_state :=
  match dimension root "width" 800 with
  | None => None
  | Some width =>
      match dimension root "height" 600 with
      | None => None
      | Some height =>
          let sorted_components :=
            _sort_components_by_importance components in
          run_loop (width, height) start_number increment add_leader_lines
            (mkState root [] []) (Py.enumerate sorted_components)
      end
  end.

Definition place_labels_on_svg (svg_content : string)
    (components : list component) (start_number increment : Z)
    (add_leader_lines : bool) : option (string * list label) :=
  match parse_svg svg_content with
  | None => None
  | Some root =>
      match annotate_tree root components start_number increment
              add_leader_lines with
      | None => None
      | Some st => Some (tostring (svg_root st), labels st)
      end
  end.
End PlaceLabels.

End AnnotationService.

(** ** What the labelling loop does, stated on lists *)

Module AnnotationSpec.
Import AnnotationService.

(** A position is far enough from another one when the distance the code
    computes between them is not below [min_label_distance]. *)
Definition far_enough (p q : position_t) : Prop :=
  Py.float_lt_int (_distance p q) min_label_distance = false.

(** The two conditions under which the candidate loop returns a position:
    it lies inside the margins of the canvas and it is far enough from every
    position already taken. *)
Definition within_canvas (image_bounds : Z * Z) (p : position_t) : Prop :=
  10 <= fst p <= fst image_bounds - 30 /\
  15 <= snd p <= snd image_bounds - 10.

Definition acceptable (image_bounds : Z * Z) (existing : list position_t)
    (p : position_t) : Prop :=
  within_canvas image_bounds p /\ Forall (far_enough p) existing.

(** [root.append] of several elements in turn. *)
Definition append_all (root : ET.element) (es : list ET.element) : ET.element :=
  fold_left ET.append es root.

(** The elements appended for a label: its group alone, or its group and a
    leader line. *)
Definition appended_for (l : label) (es : list ET.element) : Prop :=
  (has_leader_line l = false /\
   es = [label_group (number l) (position l)])
  \/
  (has_leader_line l = true /\
   exists center end_pos,
     es = [label_group (number l) (position l);
           leader_line center end_pos]).

Section Steps.
Variable image_bounds : Z * Z.
Variables start_number increment : Z.
Variable add_leader_lines : bool.

(** The elements one iteration appends for the label [l] of a component
    with center [center]: the label group, then the leader line when the
    label has one. *)
Definition step_elements (center : position_t) (l : label)
    (es : list ET.element) : Prop :=
  (has_leader_line l = false /\
   es = [label_group (number l) (position l)])
  \/
  (has_leader_line l = true /\
   exists end_pos, leader_end center (position l) = Some end_pos /\
     es = [label_group (number l) (position l);
           leader_line center end_pos]).

(** What iteration [i] does for component [comp] when [placed] are the
    positions taken so far. *)
Definition step_ok (placed : list position_t) (i : Z) (comp : component)
    (l : label) (es : list ET.element) : Prop :=
  let center := _calculate_center (c_bbox comp) in
  number l = start_number + i * increment /\
  component_id l = c_id comp /\
  position l =
    _calculate_label_position (c_bbox comp) center placed image_bounds /\
  has_leader_line l =
    add_leader_lines && Py.float_gt_int (_distance (position l) center) 30 /\
  step_elements center l es.

(** A run of iterations from index [i]. *)
Inductive steps : Z -> list position_t -> list component ->
    list label -> list (list ET.element) -> Prop :=
| steps_nil i placed : steps i placed [] [] []
| steps_cons i placed comp comps l ls es ess :
    step_ok placed i comp l es ->
    steps (i + 1) (placed ++ [position l]) comps ls ess ->
    steps i placed (comp :: comps) (l :: ls) (es :: ess).
End Steps.

End AnnotationSpec.

(* ================================================================== *)
(** * component_detector_service.py *)
(* ================================================================== *)

Module ComponentDetectorService.

Definition _classify_component (bbox : bbox_t) : shape_class :=
  let '(x, y, w, h) := bbox in
  if h =? 0 then unknown
  else
    let aspect_ratio := Py.truediv w h in
    if ((0.9 <? aspect_ratio) && (aspect_ratio <? 1.1))%float then circular
    else if (2.5 <? aspect_ratio)%float then horizontal
    else if (aspect_ratio <? 0.4)%float then vertical
    else if (1.5 <? aspect_ratio)%float then rectangular_h
    else if (aspect_ratio <? 0.67)%float then rectangular_v
    else square.

Definition calculate_component_center (bbox : bbox_t) : position_t :=
  let '(x, y, w, h) := bbox in
  (x + w / 2, y + h / 2).

(** A mask dictionary returned by [SAM2AutomaticMaskGenerator.generate];
    the keys ['predicted_iou'] and ['stability_score'] may be missing. *)
Record sam_mask : Type := mkMask {
  m_area : Z;
  m_bbox : bbox_t;
  m_predicted_iou : option float;
  m_stability_score : option float
}.

(** What the fallback reads of a contour: [cv2.contourArea] and
    [cv2.boundingRect]. *)
Record contour : Type := mkContour {
  contourArea : float;
  boundingRect : bbox_t
}.

(** What one run of the [try] block of [_lazy_load_model] can do. *)
Inductive load_outcome (generator : Type) : Type :=
| Loaded (g : generator)      (* the model is built *)
| ImportFailed                (* [ImportError]: sam2 is not installed *)
| LoadFailed.                 (* any other [Exception] *)
Arguments Loaded {generator} g.
Arguments ImportFailed {generator}.
Arguments LoadFailed {generator}.

(** What a call leaves in the log, in the order it happens. *)
Inductive event : Type :=
| LoadAttempt (succeeded : bool)
| DetectedWithSam2
| DetectedWithFallback.

Definition is_load_attempt (e : event) : bool :=
  match e with LoadAttempt _ => true | _ => false end.

Definition is_fallback (e : event) : bool :=
  match e with DetectedWithFallback => true | _ => false end.

Definition is_sam2 (e : event) : bool :=
  match e with DetectedWithSam2 => true | _ => false end.

(** Number of model loads attempted so far. *)
Definition load_attempts (log : list event) : nat :=
  List.length (filter is_load_attempt log).

Section Detector.
(** The decoded RGB array, and [Image.open] followed by [convert('RGB')];
    [None] when the bytes are not an image. *)
Variable image : Type.
Variable decode_rgb : list Byte.byte -> option image.

(** A mask generator: [generate] returns the masks or raises. *)
Definition generator : Type := image -> option (list sam_mask).

(** The outcome of the [n]-th attempt (counted from 0) to import sam2 and
    build the model. *)
Variable sam2_loader : nat -> load_outcome generator.

(** The attempt numbered [n] does not produce a model. *)
Definition load_fails (n : nat) : Prop :=
  sam2_loader n = ImportFailed \/ sam2_loader n = LoadFailed.

(** OpenCV: [None] when [import cv2] raises [ImportError]; otherwise the
    external contours of the image after grayscale conversion and inverse
    binary threshold at 127. *)
Variable cv2 : option (image -> list contour).

(** The attributes of a [ComponentDetectorService] instance that the
    methods read; [mask_generator] is [None] until it is assigned. *)
Record detector : Type := mkDetector {
  _initialized : bool;
  mask_generator : option generator
}.

(** [__init__] *)
Definition init : detector := mkDetector false None.

Definition _lazy_load_model (self : detector) (log : list event)
  : detector * list event :=
  if _initialized self then (self, log)
  else
    match sam2_loader (load_attempts log) with
    | Loaded g =>
        (mkDetector true (Some g), log ++ [LoadAttempt true])
    | ImportFailed =>
        (mkDetector false (mask_generator self), log ++ [LoadAttempt false])
    | LoadFailed =>
        (mkDetector false (mask_generator self), log ++ [LoadAttempt false])
    end.

(** The loop of [_detect_with_sam2] over [enumerate(masks)]. *)
Fixpoint sam2_components (min_area : Z) (masks : list (Z * sam_mask))
  : list component :=
  match masks with
  | [] => []
  | (i, mask) :: rest =>
      let area := m_area mask in
      if area <? min_area then sam2_components min_area rest
      else
        let bbox := m_bbox mask in
        mkComponent i bbox area
          (match m_predicted_iou mask with Some v => v | None => 0%float end)
          (match m_stability_score mask with Some v => v | None => 0%float end)
          (_classify_component bbox)
        :: sam2_components min_area rest
  end.

Definition _detect_with_sam2 (g : generator) (image_array : image)
    (min_area : Z) : option (list component) :=
  match g image_array with
  | None => None
  | Some masks => Some (sam2_components min_area (Py.enumerate masks))
  end.

(** The loop of [_detect_with_fallback] over [enumerate(contours)];
    [None] when [int(area)] raises. *)
Fixpoint fallback_components (min_area : Z) (contours : list (Z * contour))
  : option (list component) :=
  match contours with
  | [] => Some []
  | (i, c) :: rest =>
      let area := contourArea c in
      if Py.float_lt_int area min_area then fallback_components min_area rest
      else
        match Py.int_of_float area, fallback_components min_area rest with
        | Some a, Some cs =>
            Some (mkComponent i (boundingRect c) a 0.5%float 0.5%float
                    (_classify_component (boundingRect c)) :: cs)
        | _, _ => None
        end
  end.

Definition _detect_with_fallback (image_array : image) (min_area : Z)
  : option (list component) :=
  match cv2 with
  | Some find_contours =>
      fallback_components min_area (Py.enumerate (find_contours image_array))
  | None =>
      (* except ImportError: return [] *)
      Some []
  end.

(** [detect_components]; the result is [None] when the call raises. *)
Definition detect_components (self : detector) (log : list event)
    (image_bytes : list Byte.byte) (min_area max_components : Z)
  : detector * list event * option (list component) :=
  match decode_rgb image_bytes with
  | None => (self, log, None)
  | Some img_array =>
      let '(self, log) := _lazy_load_model self log in
      let '(log, components) :=
        if _initialized self then
          match mask_generator self with
          | Some g =>
              (log ++ [DetectedWithSam2], _detect_with_sam2 g img_array min_area)
          | None => (log, None)
          end
        else
          (log ++ [DetectedWithFallback],
           _detect_with_fallback img_array min_area) in
      match components with
      | None => (self, log, None)
      | Some components =>
          let components_sorted :=
            Py.slice_to (Py.sorted_reverse Z.ltb c_area components)
              max_components in
          (self, log, Some components_sorted)
      end
  end.

(** Successive calls on one instance, one per image, with the default
    arguments of the pipeline. *)
Fixpoint detect_all (self : detector) (log : list event)
    (images : list (list Byte.byte)) : detector * list event :=
  match images with
  | [] => (self, log)
  | image_bytes :: rest =>
      let '(self', log', _) := detect_components self log image_bytes 100 50 in
      detect_all self' log' rest
  end.
End Detector.

Arguments detector : clear implicits.
Arguments mkDetector {image}.
Arguments _initialized {image}.
Arguments mask_generator {image}.
Arguments init {image}.

(** What both strategies promise of a component found from index [i] on:
    an area of at least [min_area], an id of at least [i], and as type the
    class of its box. *)
Definition well_formed (min_area i : Z) (c : component) : Prop :=
  min_area <= c_area c /\ i <= c_id c /\
  c_type c = _classify_component (c_bbox c).

End ComponentDetectorService.

(* ================================================================== *)
(** * vectorization_service.py *)
(* ================================================================== *)

Module VectorizationService.

(** What [_path_to_svg] reads of a traced path (pypotrace): a path is a list
    of curves, a curve has a start point and segments, a segment is a corner
    ([c], [end_point]) or a Bezier arc ([c1], [c2], [end_point]). *)
Record point : Type := mkPoint { pt_x : float; pt_y : float }.

Inductive segment : Type :=
| Corner (c end_point : point)
| Bezier (c1 c2 end_point : point).

Record curve : Type := mkCurve {
  start_point : point;
  segments : list segment
}.

Section Trace.
(** [str(f)] for a [float], the text an f-string puts for it. *)
Variable float_str : float -> string.
(** [ET.tostring(_, encoding='unicode')]. *)
Variable tostring : ET.element -> string.

(** [f'{p.x},{p.y}'] *)
Definition coords (p : point) : string :=
  (float_str (pt_x p) ++ "," ++ float_str (pt_y p))%string.

(** The entries of [path_data] for one segment. *)
Definition segment_data (s : segment) : list string :=
  match s with
  | Corner c e => [("L " ++ coords c)%string; ("L " ++ coords e)%string]
  | Bezier c1 c2 e =>
      [("C " ++ coords c1 ++ " " ++ coords c2 ++ " " ++ coords e)%string]
  end.

(** [path_data] of one curve: start point, segments, closing [Z]. *)
Definition path_data (cv : curve) : list string :=
  [("M " ++ coords (start_point cv))%string]
  ++ flat_map segment_data (segments cv) ++ ["Z"].

Definition path_elem (cv : curve) : ET.element :=
  ET.new "path"
    [ ("d", String.concat " " (path_data cv));
      ("fill", "black"); ("stroke", "none") ].

(** The root element [_path_to_svg] creates. *)
Definition svg_root_elem (width height : Z) : ET.element :=
  ET.new "svg"
    [ ("xmlns", "http://www.w3.org/2000/svg");
      ("width", Py.str width); ("height", Py.str height);
      ("viewBox", ("0 0 " ++ Py.str width ++ " " ++ Py.str height)%string);
      ("version", "1.1") ].

(** The tree [_path_to_svg] builds: one [path] child per curve. *)
Definition path_tree (path : list curve) (width height : Z) : ET.element :=
  fold_left (fun svg cv => ET.append svg (path_elem cv)) path
    (svg_root_elem width height).

Definition _path_to_svg (path : list curve) (width height : Z) : string :=
  tostring (path_tree path width height).

(** Pillow and pypotrace.  [binarize image_bytes threshold invert] stands
    for [Image.open], [img.size], [convert('L')], the two [point] calls and
    [np.array(_, dtype=bool)]: the size and the bitmap, or [None] when the
    bytes are not an image.  [trace] stands for [pypotrace.Bitmap(_).trace]
    with [default_params]. *)
Variable bitmap : Type.
Variable binarize : list Byte.byte -> Z -> bool -> option (Z * Z * bitmap).
Variable trace : bitmap -> list curve.

Definition bitmap_to_svg (image_bytes : list Byte.byte) (threshold : Z)
    (invert : bool) : option string :=
  match binarize image_bytes threshold invert with
  | None => None
  | Some (width, height, bmp) =>
      Some (_path_to_svg (trace bmp) width height)
  end.
End Trace.

Definition newline : string := String (ascii_of_nat 10) EmptyString.

(** ["  " * level] *)
Fixpoint spaces (level : nat) : string :=
  match level with
  | O => EmptyString
  | S n => ("  " ++ spaces n)%string
  end.

(** ["\n" + "  " * level] *)
Definition indent_of (level : nat) : string :=
  (newline ++ spaces level)%string.

(** Strings of white space only. *)
Fixpoint all_space (s : string) : bool :=
  match s with
  | EmptyString => true
  | String c r => Py.isspace c && all_space r
  end.

(** [not s or not s.strip()] for a [text] or [tail] that may be [None]. *)
Definition blank (s : option string) : bool :=
  match s with
  | None => true
  | Some s => negb (Py.truthy s) || negb (Py.truthy (Py.strip s))
  end.

(** The statement after the loop of [_indent_xml]: the tail of the last
    child. *)
Fixpoint set_last_tail (indent : string) (ch : list ET.element)
  : list ET.element :=
  match ch with
  | [] => []
  | [child] =>
      [if blank (ET.tail child) then ET.set_tail child (Some indent) else child]
  | c :: rest => c :: set_last_tail indent rest
  end.

Fixpoint _indent_xml (elem : ET.element) (level : nat) : ET.element :=
  match elem with
  | ET.Element tg a tx tl ch =>
      let indent := indent_of level in
      match ch with
      | [] =>
          if negb (Nat.eqb level 0) && blank tl
          then ET.Element tg a tx (Some indent) []
          else elem
      | _ :: _ =>
          let tx' := if blank tx then Some (indent ++ "  ")%string else tx in
          let tl' := if blank tl then Some indent else tl in
          let ch' := map (fun child => _indent_xml child (S level)) ch in
          ET.Element tg a tx' tl' (set_last_tail indent ch')
      end
  end.

Section Optimize.
(** [ET.fromstring] ([None] is [ParseError]), [ET.tostring] and
    [scour.scour.scourString] with the options of [optimize_svg]
    ([None] when [import scour.scour] raises [ImportError]). *)
Variable fromstring : string -> option ET.element.
Variable tostring : ET.element -> string.
Variable scour : option (string -> string).

(** The parser builds no comment nodes, so the loop that removes them
    leaves the tree as it is. *)
Definition _basic_svg_optimization (svg_content : string) : option string :=
  match fromstring svg_content with
  | None => None
  | Some root => Some (tostring (_indent_xml root 0))
  end.

Definition optimize_svg (svg_content : string) : option string :=
  match scour with
  | Some scourString => Some (scourString svg_content)
  | None => _basic_svg_optimization svg_content
  end.
End Optimize.

(** What a tree says once layout is set aside: [text] and [tail] that are
    blank count as absent. *)
Fixpoint content (e : ET.element) : ET.element :=
  match e with
  | ET.Element tg a tx tl ch =>
      ET.Element tg a (if blank tx then None else tx)
        (if blank tl then None else tl) (map content ch)
  end.

End VectorizationService.

(* ================================================================== *)
(** * diagram_pipeline_service.py *)
(* ================================================================== *)

Module DiagramPipelineService.
Import ComponentDetectorService.

(** An [int] or a [float]: the value of ['avg_component_area']. *)
Inductive py_number : Type :=
| PyInt (n : Z)
| PyFloat (f : float).

(** The entries of ['components'] in the result. *)
Record component_summary : Type := mkSummary {
  s_id : Z;
  s_bbox : bbox_t;
  s_area : Z;
  s_type : shape_class
}.

(** The entry for one component; every component the detector returns
    has a ['type'], so [comp.get('type', 'unknown')] is that type. *)
Definition summary (comp : component) : component_summary :=
  mkSummary (c_id comp) (c_bbox comp) (c_area comp) (c_type comp).

Record quality_metrics : Type := mkMetrics {
  num_components_detected : Z;
  num_labels_placed : Z;
  avg_component_area : py_number
}.

(** The dictionary [process_sketch] returns; ['quality_metrics'] is present
    only when the diagram was annotated. *)
Record pipeline_result : Type := mkResult {
  r_svg_content : string;
  r_diagram_image : list Byte.byte;
  r_components : list component_summary;
  r_labels : list label;
  r_processing_time_ms : Z;
  r_auto_annotated : bool;
  r_quality_metrics : option quality_metrics
}.

(** The dictionary [annotate_existing_svg] returns. *)
Record annotation_result : Type := mkAnnotation {
  a_svg_content : string;
  a_labels : list label;
  a_num_components : Z
}.

(** [len(xs)] *)
Definition len {A : Type} (xs : list A) : Z := Z.of_nat (List.length xs).

(** [sum(c['area'] for c in components) / len(components) if components
    else 0] *)
Definition average_area (components : list component) : py_number :=
  match components with
  | [] => PyInt 0
  | _ :: _ =>
      PyFloat (Py.truediv (fold_left Z.add (map c_area components) 0)
                 (len components))
  end.

(** [int((time.time() - start_time) * 1000)] for the two readings of the
    clock; [None] when [int] raises. *)
Definition elapsed_ms (start_time end_time : float) : option Z :=
  Py.int_of_float ((end_time - start_time) * Py.float_of_Z 1000)%float.

Section Pipeline.
(** The collaborators: the detector's environment, the libraries of the
    vectorizer and of the annotator, and the image generator
    ([generate_technical_diagram], [None] when it raises). *)
Variable image : Type.
Variable decode_rgb : list Byte.byte -> option image.
Variable sam2_loader : nat -> load_outcome (generator image).
Variable cv2 : option (image -> list contour).
Variable float_str : float -> string.
Variable fromstring : string -> option ET.element.
Variable tostring : ET.element -> string.
Variable scour : option (string -> string).
Variable bitmap : Type.
Variable binarize : list Byte.byte -> Z -> bool -> option (Z * Z * bitmap).
Variable trace : bitmap -> list VectorizationService.curve.
Variable generate_technical_diagram :
  list Byte.byte -> string -> float -> option string
  -> option (list Byte.byte).

Definition bitmap_to_svg :=
  VectorizationService.bitmap_to_svg float_str tostring bitmap binarize
    trace.
Definition optimize_svg :=
  VectorizationService.optimize_svg fromstring tostring scour.
Definition detect_components :=
  ComponentDetectorService.detect_components image decode_rgb sam2_loader
    cv2.
Definition place_labels_on_svg :=
  AnnotationService.place_labels_on_svg fromstring tostring.

(** [process_sketch] on the shared detector instance [self] with the log
    so far; [start_time] and [end_time] are what the two calls of
    [time.time()] return.  The result is [None] when the call raises. *)
Definition process_sketch (self : detector image) (log : list event)
    (start_time end_time : float)
    (sketch_bytes : list Byte.byte) (diagram_type : string)
    (auto_annotate : bool) (start_number number_increment : Z)
    (controlnet_strength : float) (add_leader_lines : bool)
    (custom_prompt : option string)
  : detector image * list event * option pipeline_result :=
  match generate_technical_diagram sketch_bytes diagram_type
          controlnet_strength custom_prompt with
  | None => (self, log, None)
  | Some diagram_bytes =>
  match bitmap_to_svg diagram_bytes 128 false with
  | None => (self, log, None)
  | Some svg_content =>
  match optimize_svg svg_content with
  | None => (self, log, None)
  | Some svg_optimized =>
      if negb auto_annotate then
        match elapsed_ms start_time end_time with
        | None => (self, log, None)
        | Some processing_time =>
            (self, log,
             Some (mkResult svg_optimized diagram_bytes [] []
                     processing_time false None))
        end
      else
        let '(self, log, detected) :=
          detect_components self log diagram_bytes 100 50 in
        match detected with
        | None => (self, log, None)
        | Some components =>
        match place_labels_on_svg svg_optimized components start_number
                number_increment add_leader_lines with
        | None => (self, log, None)
        | Some (annotated_svg, labels) =>
        match elapsed_ms start_time end_time with
        | None => (self, log, None)
        | Some processing_time =>
            (self, log,
             Some (mkResult annotated_svg diagram_bytes
                     (map summary components) labels processing_time true
                     (Some (mkMetrics (len components) (len labels)
                              (average_area components)))))
        end
        end
        end
  end
  end
  end.

Definition vectorize_only (image_bytes : list Byte.byte) (threshold : Z)
    (optimize : bool) : option string :=
  match bitmap_to_svg image_bytes threshold false with
  | None => None
  | Some svg_content =>
      if optimize then optimize_svg svg_content else Some svg_content
  end.

Definition annotate_existing_svg (self : detector image)
    (log : list event) (svg_content : string)
    (reference_image : list Byte.byte) (start_number number_increment : Z)
    (add_leader_lines : bool)
  : detector image * list event * option annotation_result :=
  let '(self, log, detected) :=
    detect_components self log reference_image 100 50 in
  match detected with
  | None => (self, log, None)
  | Some components =>
      match place_labels_on_svg svg_content components start_number
              number_increment add_leader_lines with
      | None => (self, log, None)
      | Some (annotated_svg, labels) =>
          (self, log,
           Some (mkAnnotation annotated_svg labels (len components)))
      end
  end.
End Pipeline.

End DiagramPipelineService.

(* ================================================================== *)
(** * Sample inputs for the examples *)
(* ================================================================== *)

Module Samples.

(** A plain serializer, enough to print the trees of the examples: start
    tag with its attributes, text, children, end tag, tail; nothing is
    escaped and empty elements are not abbreviated. *)
Fixpoint print_attrib (a : list (string * string)) : string :=
  match a with
  | [] => ""
  | (k, v) :: r => (" " ++ k ++ "='" ++ v ++ "'" ++ print_attrib r)%string
  end.

Definition print_opt (s : option string) : string :=
  match s with Some s => s | None => "" end.

Fixpoint tostring (e : ET.element) : string :=
  match e with
  | ET.Element tg a tx tl ch =>
      ("<" ++ tg ++ print_attrib a ++ ">" ++ print_opt tx
       ++ String.concat "" (map tostring ch)
       ++ "</" ++ tg ++ ">" ++ print_opt tl)%string
  end.

(** Two empty drawings, 800x600 and 400x50. *)
Definition root_800x600 : ET.element :=
  ET.Element "svg" [("width", "800"); ("height", "600")] None None [].

Definition root_400x50 : ET.element :=
  ET.Element "svg" [("width", "400"); ("height", "50")] None None [].

Definition svg_800x600 : string := Eval vm_compute in tostring root_800x600.
Definition svg_400x50 : string := Eval vm_compute in tostring root_400x50.

(** A parser that knows the two drawings. *)
Definition fromstring (s : string) : option ET.element :=
  if String.eqb s svg_800x600 then Some root_800x600
  else if String.eqb s svg_400x50 then Some root_400x50
  else None.

(** The two squares of the end-to-end scenario, the smaller one listed
    first. *)
Definition square_40 : component :=
  mkComponent 0 (50, 50, 40, 40) 1600 0.5 0.5 circular.
Definition square_60 : component :=
  mkComponent 1 (400, 300, 60, 60) 3600 0.5 0.5 circular.

Definition two_squares : list component := [square_40; square_60].

Definition two_squares_out : string * list label :=
  Eval vm_compute in
    match AnnotationService.place_labels_on_svg fromstring tostring
            svg_800x600 two_squares 10 10 true with
    | Some r => r
    | None => ("", [])
    end.

(** The same call without leader lines. *)
Definition two_squares_plain_out : string * list label :=
  Eval vm_compute in
    match AnnotationService.place_labels_on_svg fromstring tostring
            svg_800x600 two_squares 10 10 false with
    | Some r => r
    | None => ("", [])
    end.

(** A drawing whose root binds the default namespace to the reserved
    namespace of the [xml] prefix.  The parser rejects it
    ([ParseError]: prefix must not be bound to one of the reserved
    namespace names); with [xmlns=] rewritten to [xmlnamespace=] the text
    parses, the declaration having become an ordinary attribute. *)
Definition ns_uri : string := "http://www.w3.org/XML/1998/namespace".

Definition ns_doc : string :=
  "<svg xmlns='http://www.w3.org/XML/1998/namespace' width='800' height='600'></svg>".

Definition ns_root : ET.element :=
  ET.Element "svg"
    [("xmlnamespace", ns_uri); ("width", "800"); ("height", "600")]
    None None [].

Definition ns_doc_renamed : string := Eval vm_compute in tostring ns_root.

(** A parser that knows the rewritten text only. *)
Definition fromstring_ns (s : string) : option ET.element :=
  if String.eqb s ns_doc_renamed then Some ns_root else None.

(** A 50x60 box whose right-top label lies 40 to the right of and 30 above
    its center. *)
Definition box_50x60 : component :=
  mkComponent 0 (100, 100, 50, 60) 3000 0.5 0.5 square.

(** Two bars on the 400x50 drawing: the left-top label of the right one and
    the right-top label of the left one fall on the same point. *)
Definition bar_right : component :=
  mkComponent 0 (260, 20, 100, 24) 2400 0.5 0.5 horizontal.
Definition bar_left : component :=
  mkComponent 1 (0, 20, 200, 10) 2000 0.5 0.5 horizontal.

Definition two_bars : list component := [bar_left; bar_right].

Definition two_bars_out : string * list label :=
  Eval vm_compute in
    match AnnotationService.place_labels_on_svg fromstring tostring
            svg_400x50 two_bars 10 10 true with
    | Some r => r
    | None => ("", [])
    end.

(** The specification's reading of the leader line: the end near the label
    is shortened by the circle radius alone, so that it lies on the circle.
    Same computation as [AnnotationService.leader_end] with that length. *)
Definition leader_end_on_circle (from_pos to_pos : position_t)
  : option position_t :=
  let '(x1, y1) := from_pos in
  let '(x2, y2) := to_pos in
  let dx := x2 - x1 in
  let dy := y2 - y1 in
  let length := Py.math_sqrt_int (dx * dx + dy * dy) in
  let factor :=
    ((length - Py.float_of_Z AnnotationService.circle_radius) / length)%float in
  match Py.int_of_float (Py.float_of_Z x1 + Py.float_of_Z dx * factor)%float,
        Py.int_of_float (Py.float_of_Z y1 + Py.float_of_Z dy * factor)%float
  with
  | Some x2i, Some y2i => Some (x2i, y2i)
  | _, _ => None
  end.

Definition box_50x60_out : string * list label :=
  Eval vm_compute in
    match AnnotationService.place_labels_on_svg fromstring tostring
            svg_800x600 [box_50x60] 10 10 true with
    | Some r => r
    | None => ("", [])
    end.

(** The call on the rejected drawing, for the 50x60 box. *)
Definition ns_out : string * list label :=
  Eval vm_compute in
    match AnnotationService.place_labels_on_svg fromstring_ns tostring
            ns_doc [box_50x60] 10 10 true with
    | Some r => r
    | None => ("", [])
    end.

(** Detector environments: every byte string decodes to the one image;
    sam2 is never importable, or its model loads at the second attempt. *)
Definition decode_any (image_bytes : list Byte.byte) : option unit := Some tt.

Definition no_sam2 (n : nat)
  : ComponentDetectorService.load_outcome
      (ComponentDetectorService.generator unit) :=
  ComponentDetectorService.ImportFailed.

Definition late_sam2 (n : nat)
  : ComponentDetectorService.load_outcome
      (ComponentDetectorService.generator unit) :=
  match n with
  | O => ComponentDetectorService.LoadFailed
  | S _ => ComponentDetectorService.Loaded (fun _ => Some [])
  end.

(** An answer of OpenCV for a sketch with two squares and a speck: three
    external contours, listed from the bottom of the image upwards as
    [cv2.findContours] lists them, the speck below the area filter. *)
Definition find_two_squares (img : unit)
  : list ComponentDetectorService.contour :=
  [ ComponentDetectorService.mkContour 3481 (400, 300, 60, 60);
    ComponentDetectorService.mkContour 1521 (50, 50, 40, 40);
    ComponentDetectorService.mkContour 4 (0, 0, 3, 3) ].

(** A segmentation model that loads at the first attempt and reports one
    mask. *)
Definition one_mask_model : ComponentDetectorService.generator unit :=
  fun _ =>
    Some [ComponentDetectorService.mkMask 3600 (400, 300, 60, 60)
            (Some 0.9%float) None].

Definition early_sam2 (n : nat)
  : ComponentDetectorService.load_outcome
      (ComponentDetectorService.generator unit) :=
  ComponentDetectorService.Loaded one_mask_model.

(** The text of a float of integral value, as Python prints it. *)
Definition float_str (f : float) : string :=
  match Py.int_of_float f with
  | Some n => (Py.str n ++ ".0")%string
  | None => "nan"
  end.

(** A trace of one triangle, and a generator, a binarizer and a tracer that
    hand the sketch through, report an 800x600 raster and return that
    trace. *)
Definition triangle : VectorizationService.curve :=
  VectorizationService.mkCurve (VectorizationService.mkPoint 50 50)
    [ VectorizationService.Corner (VectorizationService.mkPoint 90 50)
        (VectorizationService.mkPoint 90 90);
      VectorizationService.Bezier (VectorizationService.mkPoint 80 90)
        (VectorizationService.mkPoint 60 70)
        (VectorizationService.mkPoint 50 50) ].

Definition generate_same (sketch : list Byte.byte) (diagram_type : string)
    (strength : float) (custom_prompt : option string)
  : option (list Byte.byte) := Some sketch.

Definition binarize_800x600 (image_bytes : list Byte.byte) (threshold : Z)
    (invert : bool) : option (Z * Z * unit) := Some (800, 600, tt).

Definition trace_triangle (bmp : unit) : list VectorizationService.curve :=
  [triangle].

Definition traced_tree : ET.element :=
  Eval vm_compute in
    VectorizationService.path_tree float_str [triangle] 800 600.

Definition traced_svg : string := Eval vm_compute in tostring traced_tree.

Definition optimized_tree : ET.element :=
  Eval vm_compute in VectorizationService._indent_xml traced_tree 0.

Definition optimized_svg : string :=
  Eval vm_compute in tostring optimized_tree.

(** A parser that also knows the traced drawing and its optimized form. *)
Definition fromstring_traced (s : string) : option ET.element :=
  if String.eqb s traced_svg then Some traced_tree
  else if String.eqb s optimized_svg
       then Some (ET.set_tail optimized_tree None)
       else fromstring s.

(** Runs of the pipeline on an empty sketch, the clock reading 0 and 0.25:
    with OpenCV alone, with no detector at all, without annotation, and an
    annotation of the 800x600 drawing. *)
Definition pipeline_run :=
  Eval vm_compute in
    DiagramPipelineService.process_sketch unit decode_any no_sam2
      (Some find_two_squares) float_str fromstring_traced tostring None unit
      binarize_800x600 trace_triangle generate_same
      ComponentDetectorService.init [] 0 0.25 [] "generic" true 10 10 0.8
      true None.

Definition pipeline_run_no_detector :=
  Eval vm_compute in
    DiagramPipelineService.process_sketch unit decode_any no_sam2 None
      float_str fromstring_traced tostring None unit binarize_800x600
      trace_triangle generate_same ComponentDetectorService.init [] 0 0.25
      [] "generic" true 10 10 0.8 true None.

Definition pipeline_run_plain :=
  Eval vm_compute in
    DiagramPipelineService.process_sketch unit decode_any no_sam2
      (Some find_two_squares) float_str fromstring_traced tostring None unit
      binarize_800x600 trace_triangle generate_same
      ComponentDetectorService.init [] 0 0.25 [] "generic" false 10 10 0.8
      true None.

Definition annotation_run :=
  Eval vm_compute in
    DiagramPipelineService.annotate_existing_svg unit decode_any no_sam2
      (Some find_two_squares) fromstring tostring
      ComponentDetectorService.init [] svg_800x600 [] 10 10 true.

(** A call of the detector on a fresh instance, with OpenCV alone. *)
Definition fallback_call :=
  ComponentDetectorService.detect_components unit decode_any no_sam2
    (Some find_two_squares) ComponentDetectorService.init [] [] 100 50.

End Samples.

(* ================================================================== *)
(** * Order of binary64 numbers *)
(* ================================================================== *)

Module FloatOrder.

(** Case analysis on the signs and on every comparison of exponents and
    mantissas in sight. *)
Ltac sf_cases :=
  repeat match goal with
  | b : bool |- _ => destruct b
  | |- context [Z.compare ?a ?b] => destruct (Z.compare_spec a b)
  | H : context [Z.compare ?a ?b] |- _ => destruct (Z.compare_spec a b)
  | |- context [Pos.compare_cont Eq ?a ?b] =>
      change (Pos.compare_cont Eq a b) with (Pos.compare a b);
      destruct (Pos.compare_spec a b)
  | H : context [Pos.compare_cont Eq ?a ?b] |- _ =>
      change (Pos.compare_cont Eq a b) with (Pos.compare a b) in H;
      destruct (Pos.compare_spec a b)
  end;
  simpl in *; subst; try discriminate; try reflexivity; try lia.

(** On the specification of binary64 numbers, [<] is transitive and
    asymmetric. *)
Lemma SFcompare_Lt_trans (a b c : spec_float) :
  SFcompare a b = Some Lt -> SFcompare b c = Some Lt -> SFcompare a c = Some Lt.
Proof.
  destruct a, b, c; simpl; intros H1 H2; try discriminate; sf_cases.
Qed.

Lemma SFcompare_Lt_asym (a b : spec_float) :
  SFcompare a b = Some Lt -> SFcompare b a = Some Gt.
Proof.
  destruct a, b; simpl; intros H1; try discriminate; sf_cases.
Qed.

(** Of three numbers the middle one of which is not NaN: if the first is not
    below the second and the second not below the third, the first is not
    below the third. *)
Lemma SFltb_false_trans (a b c : spec_float) :
  b <> S754_nan ->
  SFltb a b = false -> SFltb b c = false -> SFltb a c = false.
Proof.
  unfold SFltb.
  destruct a, b, c; simpl; intros Hb H1 H2; try congruence; sf_cases.
Qed.

(** The same for the numbers of the kernel. *)
Lemma ltb_trans (x y z : float) :
  (x <? y)%float = true -> (y <? z)%float = true -> (x <? z)%float = true.
Proof.
  rewrite !FloatAxioms.ltb_spec. unfold SFltb.
  destruct (SFcompare (Prim2SF x) (Prim2SF y)) as [[]|] eqn:E1;
    try discriminate.
  destruct (SFcompare (Prim2SF y) (Prim2SF z)) as [[]|] eqn:E2;
    try discriminate.
  now rewrite (SFcompare_Lt_trans _ _ _ E1 E2).
Qed.

Lemma ltb_asym (x y : float) :
  (x <? y)%float = true -> (y <? x)%float = false.
Proof.
  rewrite !FloatAxioms.ltb_spec. unfold SFltb.
  destruct (SFcompare (Prim2SF x) (Prim2SF y)) as [[]|] eqn:E1;
    try discriminate.
  now rewrite (SFcompare_Lt_asym _ _ E1).
Qed.

Lemma is_nan_false (x : float) :
  is_nan x = false -> Prim2SF x <> S754_nan.
Proof.
  unfold is_nan. rewrite FloatAxioms.eqb_spec. unfold SFeqb.
  intros H E. rewrite E in H. discriminate.
Qed.

Lemma ltb_false_trans (x y z : float) :
  is_nan y = false ->
  (x <? y)%float = false -> (y <? z)%float = false -> (x <? z)%float = false.
Proof.
  rewrite !FloatAxioms.ltb_spec. intros Hy. apply SFltb_false_trans.
  now apply is_nan_false.
Qed.

End FloatOrder.

(* ================================================================== *)
(** * Rounding of binary64 numbers *)
(* ================================================================== *)

Module RoundingFacts.
Import Binary64.
Import Reals.

(** ** Bit counts and shifts *)

Lemma digits2_pos_bounds (p : positive) :
  2 ^ (Z.pos (digits2_pos p) - 1) <= Z.pos p < 2 ^ Z.pos (digits2_pos p).
Proof.
  induction p as [p IH|p IH|]; simpl digits2_pos.
  - rewrite Pos2Z.inj_succ.
    replace (Z.succ (Z.pos (digits2_pos p)) - 1)
      with (Z.succ (Z.pos (digits2_pos p) - 1)) by lia.
    rewrite !Z.pow_succ_r by lia. lia.
  - rewrite Pos2Z.inj_succ.
    replace (Z.succ (Z.pos (digits2_pos p)) - 1)
      with (Z.succ (Z.pos (digits2_pos p) - 1)) by lia.
    rewrite !Z.pow_succ_r by lia. lia.
  - simpl. lia.
Qed.

Lemma Zdigits2_bounds (m : Z) :
  0 < m -> 1 <= Zdigits2 m /\ 2 ^ (Zdigits2 m - 1) <= m < 2 ^ Zdigits2 m.
Proof.
  destruct m as [|p|p]; try lia. intros _. simpl Zdigits2.
  split; [lia | apply digits2_pos_bounds].
Qed.

Lemma Zdigits2_unique (m d : Z) :
  2 ^ (d - 1) <= m < 2 ^ d -> 1 <= d -> Zdigits2 m = d.
Proof.
  intros [Hlo Hhi] Hd.
  assert (Hm : 0 < m) by (pose proof (Z.pow_pos_nonneg 2 (d - 1)); lia).
  destruct (Zdigits2_bounds m Hm) as [H1 [Hlo' Hhi']].
  destruct (Z.lt_trichotomy (Zdigits2 m) d) as [Hlt | [Heq | Hgt]];
    [| exact Heq |].
  - assert (2 ^ Zdigits2 m <= 2 ^ (d - 1)) by (apply Z.pow_le_mono_r; lia).
    lia.
  - assert (2 ^ d <= 2 ^ (Zdigits2 m - 1)) by (apply Z.pow_le_mono_r; lia).
    lia.
Qed.

Lemma Zdigits2_nonneg (m : Z) : 0 <= m -> 0 <= Zdigits2 m.
Proof. destruct m; simpl; lia. Qed.

Lemma shr_m_shr_1 (mrs : shr_record) :
  0 <= shr_m mrs -> shr_m (shr_1 mrs) = shr_m mrs / 2.
Proof.
  destruct mrs as [m r s]. simpl shr_m. intros Hm.
  destruct m as [|[p|p|]|p]; simpl; try lia; try reflexivity.
  - rewrite Pos2Z.inj_xI. apply Z.div_unique with 1; lia.
  - rewrite Pos2Z.inj_xO. apply Z.div_unique with 0; lia.
Qed.

Lemma pow2_xO (p : positive) : 2 ^ Z.pos p~0 = 2 ^ Z.pos p * 2 ^ Z.pos p.
Proof. rewrite Pos2Z.inj_xO, <- Z.pow_add_r by lia. f_equal. lia. Qed.

Lemma pow2_xI (p : positive) :
  2 ^ Z.pos p~1 = 2 * (2 ^ Z.pos p * 2 ^ Z.pos p).
Proof.
  rewrite Pos2Z.inj_xI, <- Z.pow_add_r, <- Z.pow_succ_r by lia. f_equal. lia.
Qed.

Lemma shr_m_iter (p : positive) :
  forall mrs, 0 <= shr_m mrs ->
    shr_m (SpecFloat.iter_pos shr_1 p mrs) = shr_m mrs / 2 ^ Z.pos p.
Proof.
  induction p as [p IH|p IH|]; intros mrs Hm; simpl SpecFloat.iter_pos.
  - assert (H1 : 0 <= shr_m (shr_1 mrs))
      by (rewrite shr_m_shr_1 by exact Hm; apply Z.div_pos; lia).
    assert (H2 : 0 <= shr_m (SpecFloat.iter_pos shr_1 p (shr_1 mrs)))
      by (rewrite IH by exact H1; apply Z.div_pos; [exact H1|];
          apply Z.pow_pos_nonneg; lia).
    rewrite IH by exact H2. rewrite IH by exact H1.
    rewrite shr_m_shr_1 by exact Hm.
    rewrite !Z.div_div by (try apply Z.pow_pos_nonneg; lia).
    f_equal. rewrite (pow2_xI p). ring.
  - assert (H2 : 0 <= shr_m (SpecFloat.iter_pos shr_1 p mrs))
      by (rewrite IH by exact Hm; apply Z.div_pos; [exact Hm|];
          apply Z.pow_pos_nonneg; lia).
    rewrite IH by exact H2. rewrite IH by exact Hm.
    rewrite !Z.div_div by (try apply Z.pow_pos_nonneg; lia).
    f_equal. rewrite (pow2_xO p). ring.
  - rewrite shr_m_shr_1 by exact Hm. reflexivity.
Qed.

Lemma shr_m_of_loc (m : Z) (l : location) :
  shr_m (shr_record_of_loc m l) = m.
Proof. destruct l as [|[]]; reflexivity. Qed.

Lemma round_nearest_even_cases (m : Z) (l : location) :
  round_nearest_even m l = m \/ round_nearest_even m l = m + 1.
Proof.
  destruct l as [|[]]; simpl; auto. destruct (Z.even m); auto.
Qed.

Lemma fexp_eq (e : Z) : fexp prec emax e = Z.max (e - 53) (-1074).
Proof. reflexivity. Qed.

Lemma bounded_iff (m : positive) (e : Z) :
  SpecFloat.bounded prec emax m e = true <->
  Z.max (Z.pos (digits2_pos m) + e - 53) (-1074) = e /\ e <= 971.
Proof.
  unfold SpecFloat.bounded, canonical_mantissa. rewrite fexp_eq.
  rewrite andb_true_iff, Z.eqb_eq, Z.leb_le. reflexivity.
Qed.

(** ** Rounding *)

(** The first step of rounding: the mantissa is cut down to 53 bits. *)
Lemma shr_fexp_spec (mx ex : Z) (lx : location) :
  0 <= mx -> -1074 <= ex ->
  let k := Z.max 0 (Zdigits2 mx - 53) in
  exists mrs,
    shr_fexp prec emax mx ex lx = (mrs, ex + k) /\
    shr_m mrs = mx / 2 ^ k /\
    (k = 0 -> mrs = shr_record_of_loc mx lx).
Proof.
  intros Hm He k.
  pose proof (Zdigits2_nonneg mx Hm) as Hd.
  unfold shr_fexp, shr, fexp, SpecFloat.emin, prec, emax.
  destruct (Z.max (Zdigits2 mx + ex - 53) (3 - 1024 - 53) - ex) as [|p|p] eqn:E.
  - assert (k = 0) by lia. exists (shr_record_of_loc mx lx).
    replace k with 0 by lia. rewrite Z.add_0_r, shr_m_of_loc, Z.pow_0_r, Z.div_1_r.
    auto.
  - assert (Hk : k = Z.pos p) by lia.
    exists (SpecFloat.iter_pos shr_1 p (shr_record_of_loc mx lx)).
    rewrite Hk. split; [reflexivity|]. split; [|lia].
    rewrite shr_m_iter by (rewrite shr_m_of_loc; exact Hm).
    now rewrite shr_m_of_loc.
  - assert (k = 0) by lia. exists (shr_record_of_loc mx lx).
    replace k with 0 by lia. rewrite Z.add_0_r, shr_m_of_loc, Z.pow_0_r, Z.div_1_r.
    auto.
Qed.

(** Rounding gives the 53-bit floor of the mantissa or the number after
    it, packed. *)
Lemma binary_round_aux_pack (s : bool) (mx ex : Z) (lx : location) :
  0 <= mx -> -1074 <= ex ->
  let k := Z.max 0 (Zdigits2 mx - 53) in
  exists m1,
    (m1 = mx / 2 ^ k \/ m1 = mx / 2 ^ k + 1) /\
    (k = 0 -> lx = loc_Exact -> m1 = mx) /\
    (0 <= m1 <= 2 ^ 53) /\
    binary_round_aux prec emax s mx ex lx = pack s m1 (ex + k).
Proof.
  intros Hm He k.
  destruct (shr_fexp_spec mx ex lx Hm He) as (mrs & E1 & Hq & Hk0).
  fold k in E1, Hq, Hk0.
  set (q := mx / 2 ^ k) in *.
  assert (Hk : 0 <= k) by lia.
  assert (Hq0 : 0 <= q) by (apply Z.div_pos; [lia | apply Z.pow_pos_nonneg; lia]).
  assert (Hq53 : q < 2 ^ 53).
  { destruct (Z.eq_dec mx 0) as [->|Hne].
    - unfold q. rewrite Z.div_0_l; [reflexivity|].
      apply Z.pow_nonzero; lia.
    - destruct (Zdigits2_bounds mx) as [Hd1 [_ Hhi]]; [lia|].
      unfold q. apply Z.div_lt_upper_bound; [apply Z.pow_pos_nonneg; lia|].
      rewrite <- Z.pow_add_r by lia.
      eapply Z.lt_le_trans; [exact Hhi|]. apply Z.pow_le_mono_r; lia. }
  set (m1 := round_nearest_even (shr_m mrs) (loc_of_shr_record mrs)).
  assert (Hm1 : m1 = q \/ m1 = q + 1).
  { unfold m1. rewrite Hq. apply round_nearest_even_cases. }
  exists m1. split; [exact Hm1|]. split.
  { intros Hk0' ->. unfold m1. rewrite (Hk0 Hk0'). reflexivity. }
  split; [lia|].
  unfold binary_round_aux. rewrite E1. fold m1.
  assert (Hm1' : 0 <= m1) by lia.
  assert (He' : -1074 <= ex + k) by lia.
  destruct (shr_fexp_spec m1 (ex + k) loc_Exact Hm1' He') as (mrs2 & E2 & Hq2 & Hk2).
  rewrite E2. rewrite Hq2. unfold pack.
  destruct (Z.eq_dec m1 (2 ^ 53)) as [E53 | N53].
  - rewrite E53. change (Zdigits2 (2 ^ 53)) with 54.
    change (Z.max 0 (54 - 53)) with 1. change (2 ^ 53 / 2 ^ 1) with (Z.pos (2 ^ 52)).
    change (2 ^ 53 =? 0) with false. rewrite Z.eqb_refl.
    cbv iota. unfold prec, emax. change (1024 - 53) with 971.
    reflexivity.
  - assert (Hlt : m1 < 2 ^ 53) by lia.
    assert (Hd : Z.max 0 (Zdigits2 m1 - 53) = 0).
    { destruct (Z.eq_dec m1 0) as [->|Hne]; [reflexivity|].
      destruct (Zdigits2_bounds m1) as [Hd1 [Hlo _]]; [lia|].
      destruct (Z_le_gt_dec (Zdigits2 m1) 53); [lia|].
      assert (2 ^ 53 <= 2 ^ (Zdigits2 m1 - 1)) by (apply Z.pow_le_mono_r; lia).
      lia. }
    rewrite Hd, Z.pow_0_r, Z.div_1_r, Z.add_0_r.
    destruct (Z.eqb_spec m1 (2 ^ 53)); [contradiction|].
    destruct m1 as [|p|p]; [reflexivity | | lia].
    change (Z.pos p =? 0) with false. cbv iota.
    unfold prec, emax. change (1024 - 53) with 971. reflexivity.
Qed.


(** A packed number with a full mantissa is a valid binary64 number. *)
Lemma valid_pack (s : bool) (m e : Z) :
  2 ^ 52 <= m <= 2 ^ 53 -> -1074 <= e ->
  valid_binary (pack s m e) = true.
Proof.
  intros Hm He. unfold pack.
  destruct (Z.eqb_spec m 0) as [E0|_]; [lia|].
  destruct (Z.eqb_spec m (2 ^ 53)) as [E53|N53].
  - destruct (Z.leb_spec (e + 1) 971) as [Hle|_]; [|reflexivity].
    apply bounded_iff. change (Z.pos (digits2_pos (2 ^ 52))) with 53.
    clear Hm E53. lia.
  - destruct (Z.leb_spec e 971) as [Hle|_]; [|reflexivity].
    assert (Hd : Zdigits2 m = 53) by (apply Zdigits2_unique; lia).
    destruct m as [|p|p]; try lia. simpl Z.to_pos. simpl Zdigits2 in Hd.
    apply bounded_iff. rewrite Hd. clear Hm N53. lia.
Qed.

Lemma Pos_iter_xO (p j : positive) :
  Z.pos (Pos.iter xO p j) = Z.pos p * 2 ^ Z.pos j.
Proof.
  induction j as [|j IH] using Pos.peano_ind.
  - simpl. lia.
  - rewrite Pos.iter_succ, Pos2Z.inj_xO, IH, Pos2Z.inj_succ.
    rewrite Z.pow_succ_r by lia. ring.
Qed.

Lemma shl_align_spec (mx : positive) (ex ez : Z) :
  ez <= ex ->
  Z.pos (fst (shl_align mx ex ez)) = Z.pos mx * 2 ^ (ex - ez) /\
  snd (shl_align mx ex ez) = ez.
Proof.
  intros Hle. unfold shl_align.
  destruct (ez - ex) as [|j|j] eqn:E; simpl fst; simpl snd.
  - replace (ex - ez) with 0 by lia. rewrite Z.pow_0_r. lia.
  - lia.
  - rewrite Pos_iter_xO. replace (ex - ez) with (Z.pos j) by lia. auto.
Qed.

(** Normalizing [p * 2^e], away from the subnormal range: the 53 leading
    bits of [p], exactly when [p] has no more than that. *)
Lemma binary_round_pack (s : bool) (p : positive) (e : Z) :
  -1021 <= e ->
  let d := Z.pos (digits2_pos p) in
  exists m,
    binary_round prec emax s p e = pack s m (e + d - 53) /\
    2 ^ 52 <= m <= 2 ^ 53 /\
    (d <= 53 -> m = Z.pos p * 2 ^ (53 - d)) /\
    (53 < d -> m = Z.pos p / 2 ^ (d - 53) \/ m = Z.pos p / 2 ^ (d - 53) + 1).
Proof.
  intros He d.
  pose proof (digits2_pos_bounds p) as [Hlo Hhi]. fold d in Hlo, Hhi.
  assert (Hd1 : 1 <= d) by (unfold d; lia).
  unfold binary_round.
  assert (Hf : fexp prec emax (Z.pos (digits2_pos p) + e) = d + e - 53)
    by (rewrite fexp_eq; fold d; lia).
  rewrite Hf.
  destruct (Z_le_gt_dec d 53) as [Hle | Hgt].
  - (* at most 53 bits: aligned to the left, exact *)
    destruct (shl_align_spec p e (d + e - 53)) as [Hm Hz]; [lia|].
    destruct (shl_align p e (d + e - 53)) as [mz ez]. cbn [fst snd] in Hm, Hz.
    subst ez. replace (e - (d + e - 53)) with (53 - d) in Hm by lia.
    assert (Hb : 2 ^ 52 <= Z.pos mz < 2 ^ 53).
    { rewrite Hm. split.
      - replace 52 with ((d - 1) + (53 - d)) by lia.
        rewrite Z.pow_add_r by lia.
        apply Z.mul_le_mono_nonneg_r; [apply Z.pow_nonneg; lia | exact Hlo].
      - replace 53 with (d + (53 - d)) at 2 by lia.
        rewrite Z.pow_add_r by lia.
        apply Z.mul_lt_mono_pos_r; [apply Z.pow_pos_nonneg; lia | exact Hhi]. }
    assert (Hdz : Zdigits2 (Z.pos mz) = 53) by (apply Zdigits2_unique; lia).
    destruct (binary_round_aux_pack s (Z.pos mz) (d + e - 53) loc_Exact)
      as (m1 & _ & Hex & _ & Hr); [lia | lia |].
    rewrite Hdz in Hex, Hr. change (Z.max 0 (53 - 53)) with 0 in Hex, Hr.
    rewrite (Hex eq_refl eq_refl) in Hr. rewrite Z.add_0_r in Hr.
    exists (Z.pos mz). replace (e + d - 53) with (d + e - 53) by lia.
    split; [exact Hr|]. split; [lia|].
    split; [intros _; exact Hm | lia].
  - (* more than 53 bits: rounded *)
    destruct (shl_align_spec p e e) as [Hm Hz]; [lia|].
    assert (Halign : shl_align p e (d + e - 53) = (p, e)).
    { unfold shl_align. destruct (d + e - 53 - e) eqn:E; try reflexivity. lia. }
    rewrite Halign.
    destruct (binary_round_aux_pack s (Z.pos p) e loc_Exact)
      as (m1 & Hm1 & _ & _ & Hr); [lia | lia |].
    change (Zdigits2 (Z.pos p)) with d in Hm1, Hr.
    replace (Z.max 0 (d - 53)) with (d - 53) in Hm1, Hr by lia.
    replace (e + (d - 53)) with (e + d - 53) in Hr by lia.
    exists m1. split; [exact Hr|].
    assert (Hq : 2 ^ 52 <= Z.pos p / 2 ^ (d - 53) < 2 ^ 53).
    { split.
      - apply Z.div_le_lower_bound; [apply Z.pow_pos_nonneg; lia|].
        rewrite <- Z.pow_add_r by lia.
        replace (d - 53 + 52) with (d - 1) by lia. exact Hlo.
      - apply Z.div_lt_upper_bound; [apply Z.pow_pos_nonneg; lia|].
        rewrite <- Z.pow_add_r by lia.
        replace (d - 53 + 53) with d by lia. exact Hhi. }
    split; [lia|]. split; [lia | intros _; exact Hm1].
Qed.

(** [float(n)] for an [n] other than 0. *)
Lemma float_of_Z_pack (n : Z) :
  n <> 0 ->
  let d := Zdigits2 n in
  exists m,
    Prim2SF (Py.float_of_Z n) = pack (n <? 0) m (d - 53) /\
    2 ^ 52 <= m <= 2 ^ 53 /\
    (d <= 53 -> m = Z.abs n * 2 ^ (53 - d)) /\
    (53 < d ->
     m = Z.abs n / 2 ^ (d - 53) \/ m = Z.abs n / 2 ^ (d - 53) + 1).
Proof.
  intros Hn d. destruct n as [|p|p]; try lia.
  - destruct (binary_round_pack false p 0) as (m & Hr & Hm & H1 & H2); [lia|].
    exists m. unfold Py.float_of_Z. simpl binary_normalize.
    rewrite Hr. simpl Z.add. fold d.
    split; [|auto].
    apply FloatAxioms.Prim2SF_SF2Prim. apply valid_pack; [exact Hm|].
    unfold d. simpl Zdigits2. clear. lia.
  - destruct (binary_round_pack true p 0) as (m & Hr & Hm & H1 & H2); [lia|].
    exists m. unfold Py.float_of_Z. simpl binary_normalize.
    rewrite Hr. simpl Z.add. fold d.
    split; [|auto].
    apply FloatAxioms.Prim2SF_SF2Prim. apply valid_pack; [exact Hm|].
    unfold d. simpl Zdigits2. clear. lia.
Qed.

(** The square root of a normal number [m * 2^e]. *)
Lemma SFsqrt_pack (m : positive) (e : Z) :
  2 ^ 52 <= Z.pos m < 2 ^ 53 -> -1074 <= e <= 971 ->
  let e' := Z.div2 e - 26 in
  let q := Z.sqrt (Z.pos m * 2 ^ (e - 2 * e')) in
  exists m1,
    (m1 = q \/ m1 = q + 1) /\ 2 ^ 52 <= q < 2 ^ 53 /\
    (e - 2 * e' = 52 \/ e - 2 * e' = 53) /\
    SFsqrt prec emax (S754_finite false m e) = pack false m1 e'.
Proof.
  intros Hm He e' q.
  assert (Hd : Zdigits2 (Z.pos m) = 53) by (apply Zdigits2_unique; lia).
  assert (Hdiv : e = 2 * Z.div2 e \/ e = 2 * Z.div2 e + 1).
  { rewrite Z.div2_div. pose proof (Z.div_mod e 2). 
    pose proof (Z.mod_pos_bound e 2). lia. }
  assert (Hs : e - 2 * e' = 52 \/ e - 2 * e' = 53) by (unfold e'; lia).
  unfold SFsqrt, SFsqrt_core_binary. rewrite Hd.
  assert (H54 : Z.div2 (53 + e + 1) = Z.div2 e + 27).
  { rewrite !Z.div2_div. replace (53 + e + 1) with (e + 27 * 2) by lia.
    now rewrite Z.div_add by lia. }
  rewrite H54.
  assert (Hmin : Z.min (fexp prec emax (Z.div2 e + 27)) (Z.div2 e) = e')
    by (rewrite fexp_eq; unfold e'; lia).
  rewrite Hmin.
  assert (Hm' : match e - 2 * e' with
                | Z.pos _ => Z.shiftl (Z.pos m) (e - 2 * e')
                | 0 => Z.pos m
                | Z.neg _ => 0
                end = Z.pos m * 2 ^ (e - 2 * e')).
  { destruct (e - 2 * e') eqn:E; try lia. rewrite Z.shiftl_mul_pow2; lia. }
  rewrite Hm'.
  set (N := Z.pos m * 2 ^ (e - 2 * e')) in *.
  assert (HN : 2 ^ 104 <= N < 2 ^ 106).
  { unfold N. destruct Hs as [-> | ->]; lia. }
  pose proof (Z.sqrtrem_spec N ltac:(lia)) as Hspec.
  pose proof (Z.sqrtrem_sqrt N) as Hfst.
  destruct (Z.sqrtrem N) as [q0 r0]. simpl in Hfst. fold q in Hfst.
  subst q0. destruct Hspec as [HNq Hr].
  assert (Hq : 2 ^ 52 <= q < 2 ^ 53).
  { split.
    - unfold q. change (2 ^ 52) with (Z.sqrt (2 ^ 104)).
      apply Z.sqrt_le_mono. lia.
    - unfold q. apply Z.sqrt_lt_square; lia. }
  assert (Hdq : Zdigits2 q = 53) by (apply Zdigits2_unique; lia).
  set (l := if r0 =? 0 then loc_Exact
            else loc_Inexact (if r0 <=? q then Lt else Gt)).
  destruct (binary_round_aux_pack false q e' l) as (m1 & Hm1 & _ & _ & Hr1);
    [lia | unfold e'; lia |].
  rewrite Hdq in Hm1, Hr1. change (Z.max 0 (53 - 53)) with 0 in Hm1, Hr1.
  rewrite Z.pow_0_r, Z.div_1_r in Hm1. rewrite Z.add_0_r in Hr1.
  exists m1. auto.
Qed.


(** ** Comparing with an integer *)

Lemma compare_double (a b : Z) : (2 * a ?= 2 * b) = (a ?= b).
Proof.
  destruct (Z.compare_spec a b), (Z.compare_spec (2 * a) (2 * b));
    try reflexivity; lia.
Qed.

Lemma cmp_float_Z_pack (f : float) (m e n : Z) :
  Prim2SF f = pack false m e -> 0 < m <= 2 ^ 53 -> e <= 970 ->
  Py.cmp_float_Z f n =
    Some (if 0 <=? e then (m * 2 ^ e ?= n) else (m ?= n * 2 ^ (- e))).
Proof.
  intros Hf Hm He. unfold Py.cmp_float_Z. rewrite Hf. unfold pack.
  destruct (Z.eqb_spec m 0) as [E0|_]; [lia|].
  destruct (Z.eqb_spec m (2 ^ 53)) as [E53|N53].
  - destruct (Z.leb_spec (e + 1) 971) as [_|Hgt]; [|lia].
    subst m. f_equal.
    destruct (Z.leb_spec 0 e) as [H0|H0].
    + destruct (Z.leb_spec 0 (e + 1)) as [_|]; [|lia].
      f_equal. rewrite Z.pow_add_r by lia.
      change (2 ^ 53) with (Z.pos (2 ^ 52) * 2 ^ 1). ring.
    + destruct (Z.leb_spec 0 (e + 1)) as [H1|H1].
      * assert (e = -1) by lia. subst e. simpl Z.add. simpl Z.opp.
        rewrite Z.pow_0_r, Z.pow_1_r, Z.mul_1_r.
        change (2 ^ 53) with (2 * Z.pos (2 ^ 52)).
        rewrite (Z.mul_comm n 2). symmetry. apply compare_double.
      * replace (- e) with (Z.succ (- (e + 1))) by lia.
        rewrite Z.pow_succ_r by lia.
        change (2 ^ 53) with (2 * Z.pos (2 ^ 52)).
        replace (n * (2 * 2 ^ (- (e + 1)))) with (2 * (n * 2 ^ (- (e + 1))))
          by ring.
        symmetry. apply compare_double.
  - destruct (Z.leb_spec e 971) as [_|Hgt]; [|lia].
    destruct m as [|p|p]; try lia. reflexivity.
Qed.

Lemma sq_le_scaled (T P n : Z) :
  0 <= T -> 0 <= P -> T * T <= n -> (T * P) * (T * P) <= n * (P * P).
Proof.
  intros HT HP Hn. replace (T * P * (T * P)) with (T * T * (P * P)) by ring.
  apply Z.mul_le_mono_nonneg_r; [apply Z.mul_nonneg_nonneg; lia | exact Hn].
Qed.

Lemma sq_lt_scaled (T P n : Z) :
  0 <= T -> 2 * T + 1 <= P -> T * T < n ->
  (T * P + 1) * (T * P + 1) <= n * (P * P).
Proof.
  intros HT HP Hn.
  apply Z.le_trans with ((T * T + 1) * (P * P)).
  - assert (H : 2 * T * P + 1 <= P * P).
    { apply Z.le_trans with ((2 * T + 1) * P); [nia|].
      apply Z.mul_le_mono_nonneg_r; lia. }
    nia.
  - apply Z.mul_le_mono_nonneg_r; [apply Z.mul_nonneg_nonneg; lia | lia].
Qed.

(** The square root of an integer is not below a number whose square the
    integer reaches, and above a number whose square it exceeds. *)
Lemma math_sqrt_int_bounds (n T : Z) :
  0 < T < 2 ^ 20 -> T * T <= n ->
  Py.float_lt_int (Py.math_sqrt_int n) T = false /\
  (T * T < n -> Py.float_gt_int (Py.math_sqrt_int n) T = true).
Proof.
  intros HT Hn.
  assert (Hn0 : 0 < n) by nia.
  destruct (float_of_Z_pack n ltac:(lia)) as (m & Hf & Hm & Hsmall & Hbig).
  replace (n <? 0) with false in Hf by (symmetry; apply Z.ltb_ge; lia).
  rewrite (Z.abs_eq n) in Hsmall, Hbig by lia.
  set (d := Zdigits2 n) in *.
  destruct (Zdigits2_bounds n Hn0) as [Hd1 [Hlo Hhi]]. fold d in Hd1, Hlo, Hhi.
  unfold Py.float_lt_int, Py.float_gt_int, Py.math_sqrt_int.
  (* the argument of the square root, as a specification number *)
  assert (Harg :
    Prim2SF (Py.float_of_Z n) = S754_infinity false \/
    exists mm ee, Prim2SF (Py.float_of_Z n) = S754_finite false mm ee /\
      2 ^ 52 <= Z.pos mm < 2 ^ 53 /\ -52 <= ee <= 971 /\
      (ee < 0 -> Z.pos mm = n * 2 ^ (- ee))).
  { rewrite Hf. unfold pack.
    destruct (Z.eqb_spec m 0) as [E0|_]; [lia|].
    destruct (Z.eqb_spec m (2 ^ 53)) as [E53|N53].
    - destruct (Z.leb_spec (d - 53 + 1) 971) as [Hle|_]; [|now left].
      right. exists (2 ^ 52)%positive, (d - 53 + 1).
      split; [reflexivity|]. split; [split; [reflexivity | reflexivity]|].
      split; [lia|]. intros Hneg.
      assert (Hd53 : d <= 53) by lia. specialize (Hsmall Hd53).
      (* n * 2^(53-d) = 2^53 cannot be: n < 2^d *)
      exfalso. assert (n * 2 ^ (53 - d) < 2 ^ d * 2 ^ (53 - d)).
      { apply Z.mul_lt_mono_pos_r; [apply Z.pow_pos_nonneg; lia | exact Hhi]. }
      rewrite <- Z.pow_add_r in H by lia. replace (d + (53 - d)) with 53 in H by lia.
      lia.
    - destruct (Z.leb_spec (d - 53) 971) as [Hle|_]; [|now left].
      right. exists (Z.to_pos m), (d - 53).
      split; [reflexivity|]. rewrite Z2Pos.id by lia.
      split; [lia|]. split; [lia|]. intros Hneg.
      rewrite Hsmall by lia. f_equal. f_equal. lia. }
  destruct Harg as [Hinf | (mm & ee & Hfin & Hmm & Hee & Hexact)].
  { unfold Py.cmp_float_Z. rewrite FloatAxioms.sqrt_spec, Hinf. simpl.
    split; [reflexivity | intros _; reflexivity]. }
  destruct (SFsqrt_pack mm ee Hmm ltac:(lia)) as (m1 & Hm1 & Hq & Hs & Hr).
  set (e' := Z.div2 ee - 26) in *.
  set (q := Z.sqrt (Z.pos mm * 2 ^ (ee - 2 * e'))) in *.
  assert (Hdiv : ee = 2 * Z.div2 ee \/ ee = 2 * Z.div2 ee + 1).
  { rewrite Z.div2_div. pose proof (Z.div_mod ee 2).
    pose proof (Z.mod_pos_bound ee 2). lia. }
  assert (Hspec : Prim2SF (PrimFloat.sqrt (Py.float_of_Z n)) = pack false m1 e').
  { rewrite FloatAxioms.sqrt_spec, Hfin. exact Hr. }
  rewrite (cmp_float_Z_pack _ m1 e' T Hspec) by (unfold e'; lia).
  assert (HP0 : 0 < 2 ^ (- e') /\ 0 < 2 ^ e' \/ e' < 0 \/ 0 <= e') by lia.
  assert (Hm1T : T < m1).
  { apply Z.lt_le_trans with (2 ^ 52); [|clear - Hm1 Hq; lia].
    apply Z.lt_trans with (2 ^ 20); [apply HT | reflexivity]. }
  clear Hf Hsmall Hbig Hlo Hhi Hfin Hr Hspec.
  destruct (Z.leb_spec 0 e') as [He0 | He0].
  - (* a large root *)
    assert (Hbig' : T < m1 * 2 ^ e').
    { assert (Hp : 0 < 2 ^ e') by (apply Z.pow_pos_nonneg; lia).
      apply Z.lt_le_trans with (m1 * 1); [lia|].
      apply Z.mul_le_mono_nonneg_l; lia. }
    apply Z.compare_gt_iff in Hbig'. rewrite Hbig'.
    split; [reflexivity | intros _; reflexivity].
  - destruct (Z_le_gt_dec (-30) e') as [Hmid | Hlow].
    + (* still far above [T] *)
      assert (Hbig' : T * 2 ^ (- e') < m1).
      { assert (Hp1 : 2 ^ (- e') <= 2 ^ 30) by (apply Z.pow_le_mono_r; lia).
        apply Z.le_lt_trans with (2 ^ 20 * 2 ^ 30).
        - apply Z.mul_le_mono_nonneg; try lia.
        - apply Z.lt_le_trans with (2 ^ 52); [reflexivity|].
          clear - Hm1 Hq; lia. }
      apply Z.compare_gt_iff in Hbig'. rewrite Hbig'.
      split; [reflexivity | intros _; reflexivity].
    + (* the exact case: the argument is n itself *)
      assert (Hneg : ee < 0) by (unfold e' in Hlow; lia).
      specialize (Hexact Hneg).
      set (P := 2 ^ (- e')).
      assert (HP : 2 ^ 31 <= P) by (apply Z.pow_le_mono_r; lia).
      assert (HP' : 2 * T + 1 <= P).
      { apply Z.le_trans with (2 ^ 31); [|exact HP].
        change (2 ^ 31) with (2 * 2 ^ 20 + (2 ^ 31 - 2 * 2 ^ 20)).
        clear - HT. lia. }
      assert (HP0' : 0 <= P) by (clear - HP; lia).
      assert (HN : Z.pos mm * 2 ^ (ee - 2 * e') = n * (P * P)).
      { rewrite Hexact. unfold P. rewrite <- Z.pow_add_r by lia.
        rewrite <- Z.mul_assoc, <- Z.pow_add_r by lia.
        f_equal. f_equal. lia. }
      assert (HTP : 0 <= T * P) by (apply Z.mul_nonneg_nonneg; lia).
      assert (Hqge : T * P <= q).
      { unfold q. rewrite HN.
        rewrite <- (Z.sqrt_square (T * P) HTP) at 1.
        apply Z.sqrt_le_mono. apply sq_le_scaled; lia. }
      split.
      * assert (Hge : T * P <= m1) by (clear - Hqge Hm1; lia).
        destruct (Z.compare_spec m1 (T * P)); try reflexivity.
        clear - Hge H. lia.
      * intros Hlt.
        assert (Hqgt : T * P + 1 <= q).
        { unfold q. rewrite HN.
          rewrite <- (Z.sqrt_square (T * P + 1)) at 1 by lia.
          apply Z.sqrt_le_mono. apply sq_lt_scaled; lia. }
        assert (Hgt : T * P < m1) by (clear - Hqgt Hm1; lia).
        apply Z.compare_gt_iff in Hgt. now rewrite Hgt.
Qed.

(** The two thresholds of the annotation service, exactly: a distance is
    below 25 when the squared distance is below 625, and above 30 when the
    squared distance is above 900. *)
Lemma small_roots :
  forallb (fun k => Py.float_lt_int (Py.math_sqrt_int (Z.of_nat k)) 25)
    (seq 0 625) = true /\
  forallb (fun k => negb (Py.float_gt_int (Py.math_sqrt_int (Z.of_nat k)) 30))
    (seq 0 901) = true.
Proof. split; vm_compute; reflexivity. Qed.


Lemma distance_above_30 (n : Z) :
  0 <= n -> Py.float_gt_int (Py.math_sqrt_int n) 30 = (900 <? n).
Proof.
  intros Hn. destruct (Z.ltb_spec 900 n) as [Hlt|Hge].
  - apply (math_sqrt_int_bounds n 30); lia.
  - destruct small_roots as [_ H]. rewrite forallb_forall in H.
    specialize (H (Z.to_nat n)). rewrite Z2Nat.id in H by exact Hn.
    apply negb_true_iff. apply H. apply in_seq. lia.
Qed.

(** A number above an integer is above every smaller integer. *)
Lemma float_gt_int_weaken (f : float) (a b : Z) :
  Py.float_gt_int f a = true -> b <= a -> Py.float_gt_int f b = true.
Proof.
  unfold Py.float_gt_int, Py.cmp_float_Z.
  destruct (Prim2SF f) as [s|s| |s m e]; try discriminate.
  - destruct (Z.compare_spec 0 a), (Z.compare_spec 0 b);
      try discriminate; try reflexivity; lia.
  - destruct s; [discriminate | reflexivity].
  - assert (0 < 2 ^ (- e) \/ e >= 0) by
      (destruct (Z_lt_le_dec e 0);
       [left; apply Z.pow_pos_nonneg; lia | right; lia]).
    destruct (0 <=? e) eqn:Ee; intros Hgt Hle;
      repeat match goal with
      | |- context [?u ?= ?v] => destruct (Z.compare_spec u v)
      | H : context [?u ?= ?v] |- _ => destruct (Z.compare_spec u v)
      end; try discriminate; try reflexivity; try lia; try nia.
Qed.

End RoundingFacts.

Module ValueFacts.
Import Binary64 RoundingFacts.
Import Reals Lra.
Local Open Scope R_scope.

(** ** Powers of two *)

Lemma bpow_pos (e : Z) : 0 < powerRZ 2 e.
Proof. apply powerRZ_lt. lra. Qed.

Lemma bpow_add (a b : Z) : powerRZ 2 (a + b) = powerRZ 2 a * powerRZ 2 b.
Proof. apply powerRZ_add. lra. Qed.

Lemma bpow_IZR (e : Z) : (0 <= e)%Z -> powerRZ 2 e = IZR (2 ^ e).
Proof.
  intros He. rewrite <- (Z2Nat.id e He) at 1.
  rewrite <- pow_powerRZ, pow_IZR. now rewrite Z2Nat.id.
Qed.

Lemma bpow_le (a b : Z) : (a <= b)%Z -> powerRZ 2 a <= powerRZ 2 b.
Proof.
  intros Hab. replace b with (a + (b - a))%Z by lia.
  rewrite bpow_add, (bpow_IZR (b - a)) by lia.
  assert (H1 : (1 <= 2 ^ (b - a))%Z)
    by (pose proof (Z.pow_pos_nonneg 2 (b - a)); lia).
  apply IZR_le in H1. pose proof (bpow_pos a). nra.
Qed.

Lemma bpow_lt (a b : Z) : (a < b)%Z -> powerRZ 2 a < powerRZ 2 b.
Proof.
  intros Hab. replace b with (a + (b - a))%Z by lia.
  rewrite bpow_add, (bpow_IZR (b - a)) by lia.
  assert (H1 : (2 <= 2 ^ (b - a))%Z).
  { change 2%Z with (2 ^ 1)%Z at 1. apply Z.pow_le_mono_r; lia. }
  apply IZR_le in H1. pose proof (bpow_pos a). nra.
Qed.

Lemma bpow_lt_inv (a b : Z) : powerRZ 2 a < powerRZ 2 b -> (a < b)%Z.
Proof.
  intros H. destruct (Z_lt_le_dec a b) as [Hlt|Hge]; [exact Hlt|].
  apply bpow_le in Hge. lra.
Qed.

Lemma bpow_opp (e : Z) : powerRZ 2 (- e) = / powerRZ 2 e.
Proof. apply powerRZ_neg'. Qed.

Lemma Rabs_le_inv (x a : R) : Rabs x <= a -> - a <= x <= a.
Proof. unfold Rabs. destruct (Rcase_abs x); lra. Qed.

(** ** The value of a packed number *)

Lemma Rabs_sign_of (s : bool) : Rabs (sign_of s) = 1.
Proof.
  unfold sign_of, Rabs. destruct s; destruct (Rcase_abs _); lra.
Qed.

Lemma SF2R_finite (s : bool) (m : positive) (e : Z) :
  SF2R (S754_finite s m e) = sign_of s * IZR (Z.pos m) * powerRZ 2 e.
Proof. unfold SF2R, sign_of. destruct s; ring. Qed.

Lemma SF2R_pack (s : bool) (m e : Z) :
  (0 <= m <= 2 ^ 53)%Z -> (e <= 970)%Z ->
  is_finite_SF (pack s m e) = true /\
  SF2R (pack s m e) = sign_of s * IZR m * powerRZ 2 e.
Proof.
  intros Hm He. unfold pack.
  destruct (Z.eqb_spec m 0) as [->|N0].
  - split; [reflexivity|]. simpl. ring.
  - destruct (Z.eqb_spec m (2 ^ 53)) as [->|N53].
    + destruct (Z.leb_spec (e + 1) 971) as [_|Hgt]; [|lia].
      split; [reflexivity|]. rewrite SF2R_finite, bpow_add.
      change (powerRZ 2 1) with (2 * 1).
      change (Z.pos (2 ^ 52)) with (2 ^ 52)%Z.
      change (2 ^ 53)%Z with (2 ^ 52 * 2)%Z. rewrite mult_IZR. ring.
    + destruct (Z.leb_spec e 971) as [_|Hgt]; [|lia].
      split; [reflexivity|]. rewrite SF2R_finite.
      rewrite Z2Pos.id by lia. reflexivity.
Qed.

(** ** Rounding, on values *)

(** A packed number whose mantissa is one of the two integers around
    [v / 2^e], both of 53 bits, is [v] up to a relative error of 2^-52. *)
Lemma pack_close (s : bool) (q m1 e : Z) (v : R) :
  (2 ^ 52 <= q)%Z -> (m1 = q \/ m1 = q + 1)%Z -> (m1 <= 2 ^ 53)%Z ->
  IZR q * powerRZ 2 e <= v <= IZR (q + 1) * powerRZ 2 e ->
  v < powerRZ 2 1023 ->
  is_finite_SF (pack s m1 e) = true /\
  Rabs (SF2R (pack s m1 e) - sign_of s * v) <= v / IZR (2 ^ 52).
Proof.
  intros Hq52 Hm1 Hb [Hlo Hhi] Hmax.
  set (U := powerRZ 2 e) in *.
  assert (HU : 0 < U) by apply bpow_pos.
  assert (Hq52' : IZR (2 ^ 52) <= IZR q) by now apply IZR_le.
  assert (H52 : 0 < IZR (2 ^ 52)) by (apply IZR_lt; reflexivity).
  assert (HUlt : U < powerRZ 2 971).
  { assert (Hx : IZR (2 ^ 52) * U < powerRZ 2 1023) by nra.
    replace 1023%Z with (52 + 971)%Z in Hx by reflexivity.
    rewrite bpow_add, (bpow_IZR 52) in Hx by lia. nra. }
  assert (Hexp : (e <= 970)%Z).
  { apply bpow_lt_inv in HUlt. lia. }
  destruct (SF2R_pack s m1 e) as [Hfin Hval]; [lia | exact Hexp |].
  split; [exact Hfin|].
  rewrite Hval. fold U.
  assert (Hm1' : IZR m1 = IZR q \/ IZR m1 = IZR q + 1).
  { destruct Hm1 as [-> | ->]; [now left | right]. now rewrite plus_IZR. }
  rewrite plus_IZR in Hhi.
  assert (Hv0 : 0 < v) by nra.
  assert (HUv : U <= v / IZR (2 ^ 52)).
  { apply Rmult_le_reg_r with (IZR (2 ^ 52)); [exact H52|].
    unfold Rdiv. rewrite Rmult_assoc, Rinv_l by lra. nra. }
  replace (sign_of s * IZR m1 * U - sign_of s * v)
    with (sign_of s * (IZR m1 * U - v)) by ring.
  rewrite Rabs_mult, Rabs_sign_of, Rmult_1_l.
  apply Rle_trans with U; [|exact HUv].
  apply Rabs_le. destruct Hm1' as [-> | ->]; nra.
Qed.

(** Rounding a mantissa of at least 53 bits standing for the value [v]
    gives [v] up to a relative error of 2^-52. *)
Lemma binary_round_aux_value (s : bool) (mx ex : Z) (lx : location) (v : R) :
  (2 ^ 52 <= mx)%Z -> (-1074 <= ex)%Z ->
  IZR mx * powerRZ 2 ex <= v <= IZR (mx + 1) * powerRZ 2 ex ->
  v < powerRZ 2 1023 ->
  let r := binary_round_aux prec emax s mx ex lx in
  is_finite_SF r = true /\
  Rabs (SF2R r - sign_of s * v) <= v / IZR (2 ^ 52).
Proof.
  intros Hmx Hex Hv Hmax r.
  destruct (binary_round_aux_pack s mx ex lx) as (m1 & Hm1 & _ & Hb & Hr);
    [lia | lia |].
  fold r in Hr. set (k := Z.max 0 (Zdigits2 mx - 53)) in *.
  set (q := (mx / 2 ^ k)%Z) in *.
  assert (Hk : (0 <= k)%Z) by lia.
  assert (Hp : (0 < 2 ^ k)%Z) by (apply Z.pow_pos_nonneg; lia).
  assert (Hq52 : (2 ^ 52 <= q)%Z).
  { destruct (Zdigits2_bounds mx) as [Hd1 [Hlo Hhi]]; [lia|].
    destruct (Z_le_gt_dec (Zdigits2 mx) 53) as [Hle|Hgt].
    - unfold q. replace k with 0%Z by lia. now rewrite Z.pow_0_r, Z.div_1_r.
    - unfold q. apply Z.div_le_lower_bound; [exact Hp|].
      rewrite <- Z.pow_add_r by lia.
      replace (k + 52)%Z with (Zdigits2 mx - 1)%Z by lia. exact Hlo. }
  assert (Hdiv : (q * 2 ^ k <= mx < (q + 1) * 2 ^ k)%Z).
  { pose proof (Z.div_mod mx (2 ^ k) ltac:(lia)) as Hdm.
    pose proof (Z.mod_pos_bound mx (2 ^ k) Hp) as Hmod.
    fold q in Hdm. clear - Hdm Hmod. nia. }
  set (U := powerRZ 2 (ex + k)).
  assert (HUk : U = IZR (2 ^ k) * powerRZ 2 ex).
  { unfold U. rewrite Z.add_comm, bpow_add, (bpow_IZR k) by lia. ring. }
  rewrite Hr. apply pack_close with q; try assumption; [lia|].
  fold U. split.
  - apply Rle_trans with (IZR mx * powerRZ 2 ex); [|apply Hv].
    rewrite HUk, <- Rmult_assoc, <- mult_IZR.
    apply Rmult_le_compat_r; [apply Rlt_le, bpow_pos|].
    apply IZR_le. lia.
  - apply Rle_trans with (IZR (mx + 1) * powerRZ 2 ex); [apply Hv|].
    rewrite HUk, <- Rmult_assoc, <- mult_IZR.
    apply Rmult_le_compat_r; [apply Rlt_le, bpow_pos|].
    apply IZR_le. lia.
Qed.

(** ** Finite numbers *)

Lemma is_finite_cases (f : float) :
  is_finite f = true ->
  (exists s, Prim2SF f = S754_zero s /\ F2R f = 0) \/
  (exists s m e, Prim2SF f = S754_finite s m e /\
     (Z.max (Z.pos (digits2_pos m) + e - 53) (-1074) = e)%Z /\
     (e <= 971)%Z /\
     F2R f = sign_of s * IZR (Z.pos m) * powerRZ 2 e).
Proof.
  unfold is_finite, F2R. pose proof (FloatAxioms.Prim2SF_valid f) as Hv.
  destruct (Prim2SF f) as [s|s| |s m e]; try discriminate; intros _.
  - left. exists s. auto.
  - right. exists s, m, e. split; [reflexivity|].
    apply bounded_iff in Hv. destruct Hv as [Hc He].
    split; [exact Hc|]. split; [exact He|]. apply SF2R_finite.
Qed.

(** A finite number of moderate size is normal. *)
Lemma moderate_repr (f : float) :
  is_finite f = true ->
  / IZR (2 ^ 100) <= Rabs (F2R f) <= IZR (2 ^ 100) ->
  exists s m e, Prim2SF f = S754_finite s m e /\
    (2 ^ 52 <= Z.pos m < 2 ^ 53)%Z /\ (-153 <= e <= 48)%Z /\
    F2R f = sign_of s * IZR (Z.pos m) * powerRZ 2 e.
Proof.
  intros Hfin [Hlo Hhi].
  assert (H100 : 0 < IZR (2 ^ 100)) by (apply IZR_lt; reflexivity).
  assert (Hinv : 0 < / IZR (2 ^ 100)) by (apply Rinv_0_lt_compat; exact H100).
  destruct (is_finite_cases f Hfin) as [(s & _ & H0) | (s & m & e & Hf & Hc & He & Hv)].
  { rewrite H0, Rabs_R0 in Hlo. lra. }
  exists s, m, e. split; [exact Hf|].
  pose proof (digits2_pos_bounds m) as [Hdlo Hdhi].
  set (d := Z.pos (digits2_pos m)) in *.
  assert (Habs : Rabs (F2R f) = IZR (Z.pos m) * powerRZ 2 e).
  { rewrite Hv, !Rabs_mult, Rabs_sign_of, Rmult_1_l.
    rewrite (Rabs_pos_eq (IZR (Z.pos m))) by (apply IZR_le; lia).
    rewrite (Rabs_pos_eq (powerRZ 2 e)) by (apply Rlt_le, bpow_pos).
    reflexivity. }
  rewrite Habs in Hlo, Hhi.
  assert (Hd53 : (d <= 53)%Z) by lia.
  assert (Hm53 : (Z.pos m < 2 ^ 53)%Z).
  { eapply Z.lt_le_trans; [exact Hdhi|]. apply Z.pow_le_mono_r; lia. }
  assert (Hm53' : IZR (Z.pos m) < IZR (2 ^ 53)) by now apply IZR_lt.
  assert (Hpe : 0 < powerRZ 2 e) by apply bpow_pos.
  (* the exponent is above -153 *)
  assert (Helo : (-153 < e)%Z).
  { assert (H1 : powerRZ 2 (-100) < powerRZ 2 (53 + e)).
    { rewrite bpow_add, (bpow_IZR 53) by lia.
      replace (powerRZ 2 (-100)) with (/ IZR (2 ^ 100)).
      - nra.
      - change (-100)%Z with (- (100))%Z. rewrite bpow_opp.
        now rewrite (bpow_IZR 100) by lia. }
    apply bpow_lt_inv in H1. lia. }
  assert (Hd : d = 53%Z) by lia.
  assert (Hm52 : (2 ^ 52 <= Z.pos m)%Z).
  { rewrite Hd in Hdlo. exact Hdlo. }
  split; [lia|]. split; [|exact Hv].
  split; [lia|].
  assert (H2 : powerRZ 2 (52 + e) < powerRZ 2 101).
  { rewrite bpow_add, (bpow_IZR 52), (bpow_IZR 101) by lia.
    assert (IZR (2 ^ 52) <= IZR (Z.pos m)) by now apply IZR_le.
    assert (IZR (2 ^ 100) < IZR (2 ^ 101)) by (apply IZR_lt; reflexivity).
    nra. }
  apply bpow_lt_inv in H2. lia.
Qed.

Lemma moderate_cases (f : float) :
  moderate f ->
  exists s m e, Prim2SF f = S754_finite s m e /\
    (2 ^ 52 <= Z.pos m < 2 ^ 53)%Z /\ (-153 <= e <= 48)%Z /\
    F2R f = sign_of s * IZR (Z.pos m) * powerRZ 2 e.
Proof. intros [Hfin Hb]. now apply moderate_repr. Qed.

Lemma zero_repr (f : float) :
  is_finite f = true -> F2R f = 0 -> exists s, Prim2SF f = S754_zero s.
Proof.
  intros Hfin H0.
  destruct (is_finite_cases f Hfin) as [(s & Hs & _) | (s & m & e & _ & _ & _ & Hv)].
  - now exists s.
  - exfalso. rewrite Hv in H0.
    pose proof (bpow_pos e). assert (0 < IZR (Z.pos m)) by (apply IZR_lt; lia).
    unfold sign_of in H0. destruct s; nra.
Qed.

Lemma sign_of_xorb (a b : bool) :
  sign_of (xorb a b) = sign_of a * sign_of b.
Proof. unfold sign_of. destruct a, b; simpl; ring. Qed.

Lemma close_refl (v : R) : close v v.
Proof.
  unfold close. replace (v - v) with 0 by ring. rewrite Rabs_R0.
  apply Rmult_le_pos; [apply Rabs_pos|].
  apply Rlt_le, Rinv_0_lt_compat, IZR_lt. reflexivity.
Qed.

Lemma close_signed (s : bool) (x v : R) :
  0 <= v ->
  Rabs (x - sign_of s * v) <= v / IZR (2 ^ 52) ->
  close x (sign_of s * v).
Proof.
  intros Hv H. unfold close.
  rewrite Rabs_mult, Rabs_sign_of, Rmult_1_l, (Rabs_pos_eq v Hv). exact H.
Qed.

(** ** The operations *)

Lemma bpow_1023 (v : R) (k : Z) :
  (k <= 1023)%Z -> v < powerRZ 2 k -> v < powerRZ 2 1023.
Proof.
  intros Hk Hv. apply Rlt_le_trans with (powerRZ 2 k); [exact Hv|].
  now apply bpow_le.
Qed.

(** The value of a normal mantissa and exponent, bounded. *)
Lemma normal_bounds (m : positive) (e : Z) :
  (2 ^ 52 <= Z.pos m < 2 ^ 53)%Z ->
  powerRZ 2 (52 + e) <= IZR (Z.pos m) * powerRZ 2 e < powerRZ 2 (53 + e).
Proof.
  intros [Hlo Hhi]. rewrite !bpow_add, (bpow_IZR 52), (bpow_IZR 53) by lia.
  apply IZR_le in Hlo. apply IZR_lt in Hhi. pose proof (bpow_pos e).
  split; nra.
Qed.

Lemma mul_value (x y : float) :
  is_finite x = true -> F2R x = 0 \/ moderate x -> moderate y ->
  is_finite (x * y) = true /\ close (F2R (x * y)) (F2R x * F2R y).
Proof.
  intros Hfx Hx Hy.
  destruct (moderate_cases y Hy) as (sy & my & ey & Hfy & Hmy & Hey & Hvy).
  unfold is_finite, F2R at 1. rewrite FloatAxioms.mul_spec.
  unfold FloatAxioms.SF64mul.
  destruct Hx as [H0 | Hx].
  - destruct (zero_repr x Hfx H0) as [sx Hsx].
    rewrite Hsx, Hfy. simpl. split; [reflexivity|].
    rewrite H0, Rmult_0_l. apply close_refl.
  - destruct (moderate_cases x Hx) as (sx & mx & ex & Hfx' & Hmx & Hex & Hvx).
    rewrite Hfx', Hfy. simpl SFmul.
    set (v := IZR (Z.pos (mx * my)) * powerRZ 2 (ex + ey)).
    assert (Hprod : (2 ^ 52 <= Z.pos (mx * my))%Z).
    { rewrite Pos2Z.inj_mul.
      apply Z.le_trans with (2 ^ 52 * 1)%Z; [reflexivity|].
      apply Z.mul_le_mono_nonneg; lia. }
    assert (Hv0 : 0 <= v).
    { apply Rmult_le_pos; [apply IZR_le; lia | apply Rlt_le, bpow_pos]. }
    assert (Hvv : v = (IZR (Z.pos mx) * powerRZ 2 ex)
                      * (IZR (Z.pos my) * powerRZ 2 ey)).
    { unfold v. rewrite Pos2Z.inj_mul, mult_IZR, bpow_add. ring. }
    destruct (binary_round_aux_value (xorb sx sy) (Z.pos (mx * my)) (ex + ey)
                loc_Exact v) as [Hfin Hclose].
    + exact Hprod.
    + lia.
    + unfold v. split; [apply Rle_refl|].
      apply Rmult_le_compat_r; [apply Rlt_le, bpow_pos|].
      apply IZR_le. lia.
    + apply bpow_1023 with (53 + ex + (53 + ey))%Z; [lia|].
      rewrite Hvv, bpow_add.
      pose proof (normal_bounds mx ex Hmx) as [H1 H2].
      pose proof (normal_bounds my ey Hmy) as [H3 H4].
      pose proof (bpow_pos (52 + ex)). pose proof (bpow_pos (52 + ey)).
      apply Rmult_le_0_lt_compat; lra.
    + split; [exact Hfin|].
      replace (F2R x * F2R y) with (sign_of (xorb sx sy) * v)
        by (rewrite Hvx, Hvy, Hvv, sign_of_xorb; ring).
      now apply close_signed.
Qed.

Lemma SFdiv_core_normal (m1 m2 : positive) (e1 e2 : Z) :
  (2 ^ 52 <= Z.pos m1 < 2 ^ 53)%Z -> (2 ^ 52 <= Z.pos m2 < 2 ^ 53)%Z ->
  (-500 <= e1 - e2 <= 500)%Z ->
  exists l,
    SFdiv_core_binary prec emax (Z.pos m1) e1 (Z.pos m2) e2
    = ((Z.pos m1 * 2 ^ 53 / Z.pos m2)%Z, (e1 - e2 - 53)%Z, l).
Proof.
  intros H1 H2 He. unfold SFdiv_core_binary.
  assert (Hd1 : Zdigits2 (Z.pos m1) = 53%Z) by (apply Zdigits2_unique; lia).
  assert (Hd2 : Zdigits2 (Z.pos m2) = 53%Z) by (apply Zdigits2_unique; lia).
  rewrite Hd1, Hd2.
  assert (He' : Z.min (fexp prec emax (53 + e1 - (53 + e2))) (e1 - e2)
                = (e1 - e2 - 53)%Z) by (rewrite fexp_eq; lia).
  rewrite He'.
  replace (e1 - e2 - (e1 - e2 - 53))%Z with 53%Z by lia.
  rewrite Z.shiftl_mul_pow2 by lia.
  unfold Z.div. destruct (Z.div_eucl (Z.pos m1 * 2 ^ 53) (Z.pos m2)) as [q r].
  eexists. reflexivity.
Qed.

Lemma div_value (x y : float) :
  moderate x -> moderate y ->
  is_finite (x / y) = true /\ close (F2R (x / y)) (F2R x / F2R y).
Proof.
  intros Hx Hy.
  destruct (moderate_cases x Hx) as (sx & mx & ex & Hfx & Hmx & Hex & Hvx).
  destruct (moderate_cases y Hy) as (sy & my & ey & Hfy & Hmy & Hey & Hvy).
  unfold is_finite, F2R at 1. rewrite FloatAxioms.div_spec.
  unfold FloatAxioms.SF64div. rewrite Hfx, Hfy. simpl SFdiv.
  destruct (SFdiv_core_normal mx my ex ey Hmx Hmy) as [l Hcore]; [lia|].
  rewrite Hcore.
  set (q := (Z.pos mx * 2 ^ 53 / Z.pos my)%Z).
  set (e' := (ex - ey - 53)%Z).
  set (v := IZR (Z.pos mx) * powerRZ 2 ex / (IZR (Z.pos my) * powerRZ 2 ey)).
  assert (Hmy0 : 0 < IZR (Z.pos my)) by (apply IZR_lt; lia).
  assert (Hmx0 : 0 < IZR (Z.pos mx)) by (apply IZR_lt; lia).
  pose proof (bpow_pos ex) as Hpx. pose proof (bpow_pos ey) as Hpy.
  pose proof (bpow_pos e') as Hpe.
  assert (Hv : v = IZR (Z.pos mx * 2 ^ 53) / IZR (Z.pos my) * powerRZ 2 e').
  { unfold v, e'. replace ex with (ey + ((ex - ey - 53) + 53))%Z at 1 by lia.
    rewrite !bpow_add, (bpow_IZR 53), mult_IZR by lia. field. lra. }
  assert (Hdm : (q * Z.pos my <= Z.pos mx * 2 ^ 53 < (q + 1) * Z.pos my)%Z).
  { pose proof (Z.div_mod (Z.pos mx * 2 ^ 53) (Z.pos my) ltac:(lia)) as Hd.
    pose proof (Z.mod_pos_bound (Z.pos mx * 2 ^ 53) (Z.pos my) ltac:(lia)) as Hm.
    fold q in Hd. clear - Hd Hm. nia. }
  assert (Hq52 : (2 ^ 52 <= q)%Z).
  { unfold q. apply Z.div_le_lower_bound; [lia|].
    apply Z.le_trans with (2 ^ 53 * 2 ^ 52)%Z.
    - apply Z.mul_le_mono_nonneg_r; lia.
    - rewrite (Z.mul_comm (Z.pos mx)). apply Z.mul_le_mono_nonneg_l; lia. }
  assert (Hqv : IZR q * powerRZ 2 e' <= v <= IZR (q + 1) * powerRZ 2 e').
  { rewrite Hv. destruct Hdm as [Hd1 Hd2].
    set (N := (Z.pos mx * 2 ^ 53)%Z) in *.
    apply IZR_le in Hd1. apply IZR_lt in Hd2.
    rewrite mult_IZR in Hd1, Hd2. rewrite plus_IZR in Hd2 |- *.
    split; apply Rmult_le_compat_r; try lra.
    - apply Rmult_le_reg_r with (IZR (Z.pos my)); [exact Hmy0|].
      unfold Rdiv. rewrite Rmult_assoc, Rinv_l by lra. lra.
    - apply Rmult_le_reg_r with (IZR (Z.pos my)); [exact Hmy0|].
      unfold Rdiv. rewrite Rmult_assoc, Rinv_l by lra. lra. }
  assert (Hv0 : 0 <= v).
  { apply Rle_trans with (IZR q * powerRZ 2 e'); [|apply Hqv].
    apply Rmult_le_pos; [apply IZR_le; lia | lra]. }
  destruct (binary_round_aux_value (xorb sx sy) q e' l v) as [Hfin Hclose].
  - exact Hq52.
  - unfold e'. lia.
  - exact Hqv.
  - apply bpow_1023 with 600%Z; [lia|].
    apply Rle_lt_trans with (IZR (q + 1) * powerRZ 2 e'); [apply Hqv|].
    assert (Hq54 : (q + 1 <= 2 ^ 54)%Z).
    { assert (q < 2 ^ 54)%Z; [|lia]. unfold q.
      apply Z.div_lt_upper_bound; [lia|].
      apply Z.lt_le_trans with (2 ^ 53 * 2 ^ 53)%Z.
      - apply Z.mul_lt_mono_pos_r; lia.
      - change (2 ^ 53 * 2 ^ 53)%Z with (2 ^ 52 * 2 ^ 54)%Z.
        apply Z.mul_le_mono_nonneg_r; lia. }
    apply IZR_le in Hq54.
    apply Rle_lt_trans with (IZR (2 ^ 54) * powerRZ 2 e').
    + apply Rmult_le_compat_r; lra.
    + rewrite <- (bpow_IZR 54), <- bpow_add by lia. apply bpow_lt.
      unfold e'. lia.
  - split; [exact Hfin|].
    replace (F2R x / F2R y) with (sign_of (xorb sx sy) * v).
    + now apply close_signed.
    + rewrite Hvx, Hvy, sign_of_xorb. unfold v, sign_of.
      destruct sx, sy; field; lra.
Qed.

(** ** Conversions *)

Lemma sign_abs (n : Z) : sign_of (n <? 0)%Z * IZR (Z.abs n) = IZR n.
Proof.
  unfold sign_of. destruct (Z.ltb_spec n 0) as [Hn|Hn].
  - rewrite Z.abs_neq by lia. rewrite opp_IZR. ring.
  - rewrite Z.abs_eq by lia. ring.
Qed.

(** [float(n)] is exact below 2^53. *)
Lemma float_of_Z_value (n : Z) :
  (Z.abs n < 2 ^ 53)%Z ->
  is_finite (Py.float_of_Z n) = true /\ F2R (Py.float_of_Z n) = IZR n.
Proof.
  intros Hn. destruct (Z.eq_dec n 0) as [-> | N0].
  - split; reflexivity.
  - destruct (float_of_Z_pack n N0) as (m & Hp & Hm & H1 & _).
    set (d := Zdigits2 n) in *.
    assert (Hd : (1 <= d /\ 2 ^ (d - 1) <= Z.abs n)%Z).
    { unfold d. destruct n as [|p|p]; try lia; simpl Zdigits2; simpl Z.abs;
        pose proof (digits2_pos_bounds p); lia. }
    destruct Hd as [Hd1 Hd2].
    assert (Hd53 : (d <= 53)%Z).
    { destruct (Z_le_gt_dec d 53) as [H|H]; [exact H|exfalso].
      assert (2 ^ 53 <= 2 ^ (d - 1))%Z by (apply Z.pow_le_mono_r; lia).
      lia. }
    specialize (H1 Hd53).
    destruct (SF2R_pack (n <? 0)%Z m (d - 53)) as [Hfin Hval]; [lia | lia |].
    unfold is_finite, F2R. rewrite Hp. split; [exact Hfin|].
    rewrite Hval, H1, mult_IZR, <- (bpow_IZR (53 - d)) by lia.
    rewrite <- (sign_abs n).
    rewrite !Rmult_assoc, <- bpow_add.
    replace (53 - d + (d - 53))%Z with 0%Z by lia. simpl powerRZ. ring.
Qed.

(** [int(f)] truncates. *)
Lemma int_of_float_value (f : float) :
  is_finite f = true ->
  exists z, Py.int_of_float f = Some z /\ Rabs (IZR z - F2R f) < 1.
Proof.
  unfold is_finite, F2R, Py.int_of_float.
  destruct (Prim2SF f) as [s|s| |s m e]; try discriminate; intros _.
  - exists 0%Z. split; [reflexivity|]. simpl.
    replace (0 - 0) with 0 by ring. rewrite Rabs_R0. lra.
  - eexists. split; [reflexivity|].
    rewrite SF2R_finite.
    set (a := Z.shiftl (Z.pos m) e).
    assert (Ha : Rabs (IZR a - IZR (Z.pos m) * powerRZ 2 e) < 1).
    { destruct (Z_le_gt_dec 0 e) as [He|He].
      - unfold a. rewrite Z.shiftl_mul_pow2, mult_IZR, <- (bpow_IZR e) by lia.
        replace (_ - _) with 0 by ring. rewrite Rabs_R0. lra.
      - unfold a. rewrite Z.shiftl_div_pow2 by lia.
        set (k := (- e)%Z). set (q := (Z.pos m / 2 ^ k)%Z).
        assert (Hk : (0 < 2 ^ k)%Z) by (apply Z.pow_pos_nonneg; lia).
        pose proof (Z.div_mod (Z.pos m) (2 ^ k) ltac:(lia)) as Hdm.
        pose proof (Z.mod_pos_bound (Z.pos m) (2 ^ k) Hk) as Hmod.
        fold q in Hdm.
        assert (Hq : (q * 2 ^ k <= Z.pos m < (q + 1) * 2 ^ k)%Z)
          by (clear - Hdm Hmod; nia).
        destruct Hq as [Hq1 Hq2].
        apply IZR_le in Hq1. apply IZR_lt in Hq2.
        rewrite mult_IZR in Hq1, Hq2. rewrite plus_IZR in Hq2.
        replace e with (- k)%Z by (unfold k; lia).
        rewrite bpow_opp, (bpow_IZR k) by (unfold k; lia).
        assert (HK : 0 < IZR (2 ^ k)) by (apply IZR_lt; exact Hk).
        set (K := IZR (2 ^ k)) in *. set (M := IZR (Z.pos m)) in *.
        set (Q := IZR q) in *.
        assert (HKi : 0 < / K) by (apply Rinv_0_lt_compat; exact HK).
        assert (Hx : M * / K - Q = (M - Q * K) * / K) by (field; lra).
        apply Rabs_def1.
        + assert (0 <= M * / K - Q); [|lra].
          rewrite Hx. apply Rmult_le_pos; lra.
        + assert (M * / K - Q < 1); [|lra].
          rewrite Hx. apply Rmult_lt_reg_r with K; [exact HK|].
          rewrite Rmult_assoc, Rinv_l by lra. lra. }
    destruct s; unfold sign_of.
    + rewrite opp_IZR.
      replace (- IZR a - -1 * IZR (Z.pos m) * powerRZ 2 e)
        with (- (IZR a - IZR (Z.pos m) * powerRZ 2 e)) by ring.
      now rewrite Rabs_Ropp.
    + replace (IZR a - 1 * IZR (Z.pos m) * powerRZ 2 e)
        with (IZR a - IZR (Z.pos m) * powerRZ 2 e) by ring.
      exact Ha.
Qed.

(** ** Addition and subtraction *)

Lemma binary_round_value (s : bool) (p : positive) (e : Z) :
  (-1021 <= e)%Z ->
  IZR (Z.pos p) * powerRZ 2 e < powerRZ 2 1023 ->
  let r := binary_round prec emax s p e in
  is_finite_SF r = true /\
  Rabs (SF2R r - sign_of s * (IZR (Z.pos p) * powerRZ 2 e))
    <= IZR (Z.pos p) * powerRZ 2 e / IZR (2 ^ 52).
Proof.
  intros He Hmax r.
  destruct (binary_round_pack s p e He) as (m & Hr & Hm & H1 & H2).
  fold r in Hr. set (d := Z.pos (digits2_pos p)) in *.
  pose proof (digits2_pos_bounds p) as [Hlo Hhi]. fold d in Hlo, Hhi.
  assert (Hd1 : (1 <= d)%Z) by (unfold d; lia).
  rewrite Hr.
  destruct (Z_le_gt_dec d 53) as [Hd|Hd].
  - specialize (H1 Hd).
    apply pack_close with m; [lia | now left | lia | | exact Hmax].
    assert (Hv : IZR (Z.pos p) * powerRZ 2 e
                 = IZR m * powerRZ 2 (e + d - 53)).
    { rewrite H1, mult_IZR, <- (bpow_IZR (53 - d)), Rmult_assoc, <- bpow_add
        by lia.
      f_equal. f_equal. lia. }
    rewrite Hv. pose proof (bpow_pos (e + d - 53)).
    rewrite plus_IZR. split; nra.
  - set (k := (d - 53)%Z) in *.
    set (q := (Z.pos p / 2 ^ k)%Z) in *.
    assert (Hk : (0 < 2 ^ k)%Z) by (apply Z.pow_pos_nonneg; lia).
    assert (Hq52 : (2 ^ 52 <= q)%Z).
    { unfold q. apply Z.div_le_lower_bound; [exact Hk|].
      rewrite <- Z.pow_add_r by lia.
      replace (k + 52)%Z with (d - 1)%Z by lia. exact Hlo. }
    assert (Hdiv : (q * 2 ^ k <= Z.pos p < (q + 1) * 2 ^ k)%Z).
    { pose proof (Z.div_mod (Z.pos p) (2 ^ k) ltac:(lia)) as Hdm.
      pose proof (Z.mod_pos_bound (Z.pos p) (2 ^ k) Hk) as Hmod.
      fold q in Hdm. clear - Hdm Hmod. nia. }
    apply pack_close with q;
      [exact Hq52 | apply H2; lia | lia | | exact Hmax].
    replace (e + d - 53)%Z with (k + e)%Z by lia.
    rewrite bpow_add, (bpow_IZR k), <- !Rmult_assoc, <- !mult_IZR by lia.
    pose proof (bpow_pos e).
    split; apply Rmult_le_compat_r; try lra; apply IZR_le; lia.
Qed.

Lemma normalize_value (M e : Z) :
  (-1021 <= e)%Z ->
  Rabs (IZR M) * powerRZ 2 e < powerRZ 2 1023 ->
  let r := binary_normalize prec emax M e false in
  is_finite_SF r = true /\ close (SF2R r) (IZR M * powerRZ 2 e).
Proof.
  intros He Hmax r. unfold r, binary_normalize.
  pose proof (bpow_pos e) as Hpe.
  destruct M as [|p|p].
  - split; [reflexivity|]. simpl SF2R. rewrite Rmult_0_l. apply close_refl.
  - rewrite Rabs_pos_eq in Hmax by (apply IZR_le; lia).
    destruct (binary_round_value false p e He Hmax) as [Hfin Hc].
    split; [exact Hfin|].
    replace (IZR (Z.pos p) * powerRZ 2 e)
      with (sign_of false * (IZR (Z.pos p) * powerRZ 2 e))
      by (unfold sign_of; ring).
    apply close_signed; [|exact Hc].
    apply Rmult_le_pos; [apply IZR_le; lia | lra].
  - assert (Hneg : IZR (Z.neg p) = - IZR (Z.pos p))
      by (rewrite <- opp_IZR; reflexivity).
    rewrite Hneg, Rabs_Ropp, Rabs_pos_eq in Hmax by (apply IZR_le; lia).
    destruct (binary_round_value true p e He Hmax) as [Hfin Hc].
    split; [exact Hfin|].
    replace (IZR (Z.neg p) * powerRZ 2 e)
      with (sign_of true * (IZR (Z.pos p) * powerRZ 2 e))
      by (rewrite Hneg; unfold sign_of; ring).
    apply close_signed; [|exact Hc].
    apply Rmult_le_pos; [apply IZR_le; lia | lra].
Qed.

Lemma aligned_value (s : bool) (m : positive) (e ez : Z) :
  (ez <= e)%Z ->
  IZR (cond_Zopp s (Z.pos (fst (shl_align m e ez)))) * powerRZ 2 ez
  = sign_of s * IZR (Z.pos m) * powerRZ 2 e.
Proof.
  intros Hez. destruct (shl_align_spec m e ez Hez) as [Hm _].
  assert (Hv : IZR (Z.pos (fst (shl_align m e ez))) * powerRZ 2 ez
               = IZR (Z.pos m) * powerRZ 2 e).
  { rewrite Hm, mult_IZR, <- (bpow_IZR (e - ez)), Rmult_assoc, <- bpow_add
      by lia.
    f_equal. f_equal. lia. }
  unfold cond_Zopp, sign_of. destruct s.
  - rewrite opp_IZR. lra.
  - lra.
Qed.

Lemma moderate_abs (f : float) :
  moderate f -> Rabs (F2R f) <= IZR (2 ^ 100).
Proof. intros [_ [_ H]]. exact H. Qed.

Lemma sum_below_max (a b : R) :
  Rabs a <= IZR (2 ^ 100) -> Rabs b <= IZR (2 ^ 100) ->
  Rabs (a + b) < powerRZ 2 1023 /\ Rabs (a - b) < powerRZ 2 1023.
Proof.
  intros Ha Hb.
  assert (H : IZR (2 ^ 100) + IZR (2 ^ 100) < powerRZ 2 1023).
  { rewrite <- plus_IZR. change (2 ^ 100 + 2 ^ 100)%Z with (2 ^ 101)%Z.
    rewrite <- (bpow_IZR 101) by lia. apply bpow_lt. lia. }
  split.
  - eapply Rle_lt_trans; [apply Rabs_triang|]. lra.
  - eapply Rle_lt_trans; [apply Rabs_triang|]. rewrite Rabs_Ropp. lra.
Qed.

Lemma add_value (x y : float) :
  is_finite x = true -> F2R x = 0 \/ moderate x ->
  is_finite y = true -> F2R y = 0 \/ moderate y ->
  is_finite (x + y) = true /\ close (F2R (x + y)) (F2R x + F2R y).
Proof.
  intros Hfx Hx Hfy Hy.
  unfold is_finite, F2R at 1. rewrite FloatAxioms.add_spec.
  unfold FloatAxioms.SF64add.
  destruct Hx as [Hx0 | Hx]; destruct Hy as [Hy0 | Hy].
  - destruct (zero_repr x Hfx Hx0) as [sx Hsx].
    destruct (zero_repr y Hfy Hy0) as [sy Hsy].
    rewrite Hsx, Hsy, Hx0, Hy0, Rplus_0_l.
    destruct sx, sy; simpl; (split; [reflexivity | apply close_refl]).
  - destruct (zero_repr x Hfx Hx0) as [sx Hsx].
    destruct (moderate_cases y Hy) as (sy & my & ey & Hpy & _).
    rewrite Hsx, Hpy, Hx0, Rplus_0_l. simpl SFadd.
    split; [reflexivity|]. unfold F2R. rewrite Hpy. apply close_refl.
  - destruct (zero_repr y Hfy Hy0) as [sy Hsy].
    destruct (moderate_cases x Hx) as (sx & mx & ex & Hpx & _).
    rewrite Hsy, Hpx, Hy0, Rplus_0_r. simpl SFadd.
    split; [reflexivity|]. unfold F2R. rewrite Hpx. apply close_refl.
  - destruct (moderate_cases x Hx) as (sx & mx & ex & Hpx & Hmx & Hex & Hvx).
    destruct (moderate_cases y Hy) as (sy & my & ey & Hpy & Hmy & Hey & Hvy).
    rewrite Hpx, Hpy. cbv beta iota delta [SFadd].
    set (ez := Z.min ex ey).
    set (M := (cond_Zopp sx (Z.pos (fst (shl_align mx ex ez)))
               + cond_Zopp sy (Z.pos (fst (shl_align my ey ez))))%Z).
    assert (HM : IZR M * powerRZ 2 ez = F2R x + F2R y).
    { unfold M. rewrite plus_IZR, Rmult_plus_distr_r.
      rewrite !aligned_value by (unfold ez; lia). now rewrite Hvx, Hvy. }
    rewrite <- HM. apply normalize_value; [unfold ez; lia|].
    pose proof (bpow_pos ez) as Hpe.
    rewrite <- (Rabs_pos_eq (powerRZ 2 ez)) at 1 by lra.
    rewrite <- Rabs_mult, HM.
    apply sum_below_max; now apply moderate_abs.
Qed.

Lemma sub_value (x y : float) :
  moderate x -> moderate y ->
  is_finite (x - y) = true /\ close (F2R (x - y)) (F2R x - F2R y).
Proof.
  intros Hx Hy.
  unfold is_finite, F2R at 1. rewrite FloatAxioms.sub_spec.
  unfold FloatAxioms.SF64sub.
  destruct (moderate_cases x Hx) as (sx & mx & ex & Hpx & Hmx & Hex & Hvx).
  destruct (moderate_cases y Hy) as (sy & my & ey & Hpy & Hmy & Hey & Hvy).
  rewrite Hpx, Hpy. cbv beta iota delta [SFsub].
  set (ez := Z.min ex ey).
  set (M := (cond_Zopp sx (Z.pos (fst (shl_align mx ex ez)))
             - cond_Zopp sy (Z.pos (fst (shl_align my ey ez))))%Z).
  assert (HM : IZR M * powerRZ 2 ez = F2R x - F2R y).
  { unfold M. rewrite minus_IZR. unfold Rminus at 1.
    rewrite Rmult_plus_distr_r, Ropp_mult_distr_l_reverse.
    rewrite !aligned_value by (unfold ez; lia). rewrite Hvx, Hvy. ring. }
  rewrite <- HM. apply normalize_value; [unfold ez; lia|].
  pose proof (bpow_pos ez) as Hpe.
  rewrite <- (Rabs_pos_eq (powerRZ 2 ez)) at 1 by lra.
  rewrite <- Rabs_mult, HM.
  apply sum_below_max; now apply moderate_abs.
Qed.

(** ** The square root *)

Lemma sqrt_value (x : float) :
  moderate x -> 0 < F2R x ->
  is_finite (PrimFloat.sqrt x) = true /\
  close (F2R (PrimFloat.sqrt x)) (sqrt (F2R x)).
Proof.
  intros Hx Hpos.
  destruct (moderate_cases x Hx) as (s & m & e & Hpx & Hm & He & Hv).
  assert (Hm0 : 0 < IZR (Z.pos m)) by (apply IZR_lt; lia).
  pose proof (bpow_pos e) as Hpe.
  assert (Hs : s = false).
  { destruct s; [|reflexivity]. exfalso. rewrite Hv in Hpos.
    unfold sign_of in Hpos. nra. }
  subst s. unfold sign_of in Hv. rewrite Rmult_1_l in Hv.
  unfold is_finite, F2R at 1. rewrite FloatAxioms.sqrt_spec.
  unfold FloatAxioms.SF64sqrt. rewrite Hpx.
  destruct (SFsqrt_pack m e Hm) as (m1 & Hm1 & Hq & Hk & Hsq); [lia|].
  rewrite Hsq. clear Hsq.
  set (e' := (Z.div2 e - 26)%Z) in *. set (k := (e - 2 * e')%Z) in *.
  set (q := Z.sqrt (Z.pos m * 2 ^ k)) in *.
  assert (Hk0 : (0 <= k)%Z) by lia.
  assert (Hn0 : (0 <= Z.pos m * 2 ^ k)%Z).
  { apply Z.mul_nonneg_nonneg; [lia|]. apply Z.pow_nonneg. lia. }
  pose proof (Z.sqrt_spec (Z.pos m * 2 ^ k) Hn0) as Hspec.
  cbv zeta in Hspec. fold q in Hspec. destruct Hspec as [Hs1 Hs2].
  pose proof (bpow_pos e') as Hpe'.
  set (P := powerRZ 2 e') in *.
  assert (Hvv : F2R x = IZR (Z.pos m * 2 ^ k) * (P * P)).
  { rewrite Hv, mult_IZR, <- (bpow_IZR k) by lia. unfold P.
    rewrite <- bpow_add, Rmult_assoc, <- bpow_add.
    f_equal. f_equal. unfold k. lia. }
  set (v := sqrt (F2R x)).
  assert (Hq0 : 0 <= IZR q) by (apply IZR_le; lia).
  assert (Hlo : IZR q * P <= v).
  { rewrite <- (sqrt_square (IZR q * P)) by (apply Rmult_le_pos; lra).
    apply sqrt_le_1_alt. rewrite Hvv.
    replace (IZR q * P * (IZR q * P)) with (IZR (q * q) * (P * P))
      by (rewrite mult_IZR; ring).
    apply Rmult_le_compat_r; [nra|]. now apply IZR_le. }
  assert (Hhi : v <= IZR (q + 1) * P).
  { assert (Hq1 : 0 <= IZR (q + 1)) by (apply IZR_le; lia).
    rewrite <- (sqrt_square (IZR (q + 1) * P)) by (apply Rmult_le_pos; lra).
    apply sqrt_le_1_alt. rewrite Hvv.
    replace (IZR (q + 1) * P * (IZR (q + 1) * P))
      with (IZR ((q + 1) * (q + 1)) * (P * P))
      by (rewrite mult_IZR; ring).
    apply Rmult_le_compat_r; [nra|]. apply IZR_le.
    unfold Z.succ in Hs2. lia. }
  assert (Hv0 : 0 <= v) by (apply sqrt_pos).
  destruct (pack_close false q m1 e' v) as [Hfin Hc].
  - lia.
  - exact Hm1.
  - destruct Hm1; lia.
  - split; [exact Hlo | exact Hhi].
  - apply Rle_lt_trans with (IZR (q + 1) * P); [exact Hhi|].
    apply Rle_lt_trans with (IZR (2 ^ 53) * P).
    + apply Rmult_le_compat_r; [lra|]. apply IZR_le. lia.
    + unfold P. rewrite <- (bpow_IZR 53), <- bpow_add by lia.
      apply bpow_lt. unfold e'.
      assert (Z.div2 e <= 24)%Z; [|lia].
      rewrite Z.div2_div. apply Z.div_le_upper_bound; lia.
  - split; [exact Hfin|].
    pose proof (close_signed false _ v Hv0 Hc) as Hcl.
    unfold sign_of in Hcl. now rewrite Rmult_1_l in Hcl.
Qed.

(** ** Sizes *)

Lemma moderate_range (f : float) :
  is_finite f = true -> / 4 <= Rabs (F2R f) <= IZR (2 ^ 50) -> moderate f.
Proof.
  intros Hfin [Hlo Hhi]. split; [exact Hfin|]. split.
  - apply Rle_trans with (/ 4); [|exact Hlo].
    apply Rinv_le_contravar; [lra|].
    apply (IZR_le 4 (2 ^ 100)). discriminate.
  - apply Rle_trans with (IZR (2 ^ 50)); [exact Hhi|].
    apply IZR_le. discriminate.
Qed.

Lemma close_bound (x v B : R) :
  close x v -> Rabs v <= B -> Rabs (x - v) <= B * / IZR (2 ^ 52).
Proof.
  unfold close, Rdiv. intros Hc Hb.
  apply Rle_trans with (Rabs v * / IZR (2 ^ 52)); [exact Hc|].
  apply Rmult_le_compat_r; [|exact Hb].
  apply Rlt_le, Rinv_0_lt_compat, IZR_lt. reflexivity.
Qed.

Lemma close_zero (x : R) : close x 0 -> x = 0.
Proof.
  unfold close. rewrite Rabs_R0. unfold Rdiv. rewrite Rmult_0_l.
  replace (x - 0) with x by ring. intros H.
  pose proof (Rabs_pos x). destruct (Req_dec x 0) as [E|E]; [exact E|].
  apply Rabs_pos_lt in E. lra.
Qed.

End ValueFacts.

(* ================================================================== *)
(** * The end point of a leader line *)
(* ================================================================== *)

Module LeaderFacts.
Import AnnotationService Binary64 RoundingFacts ValueFacts.
Import Reals Lra.
Local Open Scope R_scope.

(** ** Sizes of the errors *)

Lemma eta_small : IZR (2 ^ 22) * / IZR (2 ^ 52) = / IZR (2 ^ 30).
Proof.
  change (2 ^ 52)%Z with (2 ^ 22 * 2 ^ 30)%Z. rewrite mult_IZR.
  assert (0 < IZR (2 ^ 22)) by (apply IZR_lt; reflexivity).
  assert (0 < IZR (2 ^ 30)) by (apply IZR_lt; reflexivity).
  field. split; lra.
Qed.

Lemma eta_bound : / IZR (2 ^ 30) <= / 1000000.
Proof.
  apply Rinv_le_contravar; [lra|]. apply (IZR_le 1000000 (2 ^ 30)).
  discriminate.
Qed.

(** The scaling factor, on real numbers: with [L] within [eta] of [r],
    [a] within [5 * eta] of [r - 14] and [f] the rounded quotient [a / L],
    [f] is [1 - 14 / r] up to [7 * eta / r]. *)
Lemma factor_error (eps eta r L a f : R) :
  0 < eps -> 30 <= r -> r * eps <= eta -> eta <= / 1000000 ->
  Rabs (L - r) <= eta ->
  Rabs (a - (r - 14)) <= 5 * eta ->
  Rabs (f - a / L) <= Rabs (a / L) * eps ->
  / 2 <= f <= 1 /\ Rabs (r * (f - (1 - 14 / r))) <= 7 * eta.
Proof.
  intros Heps Hr Hre Heta HL Ha Hf.
  apply Rabs_le_inv in HL. apply Rabs_le_inv in Ha.
  assert (HL0 : 0 < L) by lra.
  set (g := a / L) in *.
  assert (HgL : g * L = a) by (unfold g; field; lra).
  assert (Hg : / 2 <= g <= 1 - 13 / r).
  { split.
    - apply Rmult_le_reg_r with L; [exact HL0|]. rewrite HgL. lra.
    - apply Rmult_le_reg_r with (L * r); [nra|].
      replace ((1 - 13 / r) * (L * r)) with (L * r - 13 * L) by (field; lra).
      replace (g * (L * r)) with (a * r) by (rewrite <- HgL; ring).
      nra. }
  assert (Hr13 : 0 < 13 / r <= 1 / 2).
  { split.
    - apply Rdiv_lt_0_compat; lra.
    - apply Rmult_le_reg_r with r; [lra|].
      replace (13 / r * r) with 13 by (field; lra). lra. }
  rewrite (Rabs_pos_eq g) in Hf by lra.
  assert (Hfg : Rabs (f - g) <= eps).
  { apply Rle_trans with (g * eps); [exact Hf|]. nra. }
  apply Rabs_le_inv in Hfg.
  assert (He30 : 30 * eps <= eta) by nra.
  split.
  - assert (13 / r >= 13 * eps * 1000000).
    { apply Rle_ge. apply Rmult_le_reg_r with r; [lra|].
      replace (13 / r * r) with 13 by (field; lra). nra. }
    nra.
  - replace (r * (f - (1 - 14 / r)))
      with (r * (f - g) + ((a - (r - 14)) - (L - r) * g))
      by (rewrite <- HgL; field; lra).
    apply Rabs_le. nra.
Qed.

(** The end point is off the shortened vector by less than one pixel and
    the rounding errors; it stays in a ring around the label. *)
Lemma ring_bounds (ax ay ux uy : R) :
  Rabs ax <= 1001 / 1000 -> Rabs ay <= 1001 / 1000 ->
  ux * ux + uy * uy = 196 ->
  156 < (ax - ux) * (ax - ux) + (ay - uy) * (ay - uy) < 238.
Proof.
  intros Hax Hay Hu. apply Rabs_le_inv in Hax. apply Rabs_le_inv in Hay.
  set (c := ax * ux + ay * uy).
  assert (Hcs : c * c <= (ax * ax + ay * ay) * 196).
  { rewrite <- Hu. unfold c.
    pose proof (Rle_0_sqr (ax * uy - ay * ux)) as H. unfold Rsqr in H. nra. }
  assert (Haa : ax * ax + ay * ay <= 2004002 / 1000000) by nra.
  assert (Hc : - (1982 / 100) <= c <= 1982 / 100) by nra.
  replace ((ax - ux) * (ax - ux) + (ay - uy) * (ay - uy))
    with (ux * ux + uy * uy - 2 * c + (ax * ax + ay * ay))
    by (unfold c; ring).
  rewrite Hu. split; nra.
Qed.

(** ** The computation of [_add_leader_line] *)

Lemma moderate_between (f : float) (lo hi : R) :
  is_finite f = true -> lo <= F2R f <= hi ->
  / 4 <= lo -> hi <= IZR (2 ^ 50) -> moderate f.
Proof.
  intros Hfin [H1 H2] Hlo Hhi. apply moderate_range; [exact Hfin|].
  assert (/ 4 = 0.25) by lra.
  rewrite Rabs_pos_eq by lra. lra.
Qed.

Lemma moderate_int (n : Z) :
  (n <> 0)%Z -> (Z.abs n < 2 ^ 50)%Z -> moderate (Py.float_of_Z n).
Proof.
  intros N0 Hn. destruct (float_of_Z_value n) as [Hfin Hv]; [lia|].
  apply moderate_range; [exact Hfin|]. rewrite Hv, <- abs_IZR. split.
  - apply Rle_trans with 1; [lra|]. apply (IZR_le 1). lia.
  - apply IZR_le. lia.
Qed.

Lemma two_22_50 : IZR (2 ^ 22) + 1 <= IZR (2 ^ 50).
Proof.
  pose proof (IZR_le (2 ^ 22 + 1) (2 ^ 50) ltac:(discriminate)) as H.
  now rewrite plus_IZR in H.
Qed.

Lemma two_22_30 : 30 <= IZR (2 ^ 22).
Proof. apply (IZR_le 30 (2 ^ 22)). discriminate. Qed.

(** The factor [(length - circle_radius - 2) / length] for a squared length
    [n]: it is [1 - 14 / sqrt n] up to the rounding errors. *)
Lemma factor_value (n : Z) :
  (900 < n <= 2 ^ 43)%Z ->
  let r := sqrt (IZR n) in
  let L := Py.math_sqrt_int n in
  let f := ((L - Py.float_of_Z circle_radius - Py.float_of_Z 2) / L)%float in
  30 <= r <= IZR (2 ^ 22) /\ r * r = IZR n /\
  moderate f /\ / 2 <= F2R f <= 1 /\
  Rabs (r * (F2R f - (1 - 14 / r))) <= 7 * / IZR (2 ^ 30).
Proof.
  intros Hn r L f.
  assert (Hn0 : 0 <= IZR n) by (apply IZR_le; lia).
  assert (Hrr : r * r = IZR n) by (apply sqrt_sqrt; exact Hn0).
  assert (Hr30 : 30 <= r).
  { unfold r. rewrite <- (sqrt_square 30) by lra. apply sqrt_le_1_alt.
    apply Rle_trans with (IZR 900); [lra|]. apply IZR_le. lia. }
  assert (Hr22 : r <= IZR (2 ^ 22)).
  { unfold r. rewrite <- (sqrt_square (IZR (2 ^ 22)))
      by (apply IZR_le; discriminate).
    apply sqrt_le_1_alt. rewrite <- mult_IZR. apply IZR_le.
    change (2 ^ 22 * 2 ^ 22)%Z with (2 ^ 44)%Z. lia. }
  pose proof eta_small as Heta. pose proof eta_bound as Hsmall.
  pose proof two_22_50 as H2250.
  set (B := IZR (2 ^ 22)) in *. set (eps := / IZR (2 ^ 52)) in *.
  set (eta := / IZR (2 ^ 30)) in *.
  assert (Heps : 0 < eps)
    by (apply Rinv_0_lt_compat, IZR_lt; reflexivity).
  (* the length *)
  destruct (float_of_Z_value n) as [HfN HvN]; [lia|].
  assert (HmN : moderate (Py.float_of_Z n)) by (apply moderate_int; lia).
  destruct (sqrt_value (Py.float_of_Z n) HmN) as [HfL HcL];
    [rewrite HvN; apply IZR_lt; lia|].
  rewrite HvN in HcL. fold r in HcL. fold (Py.math_sqrt_int n) in HfL, HcL.
  fold L in HfL, HcL.
  assert (HL : Rabs (F2R L - r) <= eta).
  { rewrite <- Heta. apply close_bound; [exact HcL|].
    rewrite Rabs_pos_eq; lra. }
  pose proof (Rabs_le_inv _ _ HL) as HL'.
  assert (HmL : moderate L)
    by (apply moderate_between with 29 (B + 1); [exact HfL | lra | lra | lra]).
  (* minus the radius *)
  assert (Hm12 : moderate (Py.float_of_Z circle_radius))
    by (apply moderate_int; [discriminate | reflexivity]).
  destruct (float_of_Z_value circle_radius) as [_ Hv12]; [reflexivity|].
  change (IZR circle_radius) with 12 in Hv12.
  set (b := (L - Py.float_of_Z circle_radius)%float) in *.
  destruct (sub_value L _ HmL Hm12) as [Hfb Hcb]. fold b in Hfb, Hcb.
  rewrite Hv12 in Hcb.
  assert (Hb : Rabs (F2R b - (F2R L - 12)) <= eta).
  { rewrite <- Heta. apply close_bound; [exact Hcb|].
    rewrite Rabs_pos_eq; lra. }
  pose proof (Rabs_le_inv _ _ Hb) as Hb'.
  assert (Hmb : moderate b)
    by (apply moderate_between with 17 (B + 1); [exact Hfb | lra | lra | lra]).
  (* minus two *)
  assert (Hm2 : moderate (Py.float_of_Z 2))
    by (apply moderate_int; [discriminate | reflexivity]).
  destruct (float_of_Z_value 2) as [_ Hv2]; [reflexivity|].
  set (a := (b - Py.float_of_Z 2)%float) in *.
  destruct (sub_value b _ Hmb Hm2) as [Hfa Hca]. fold a in Hfa, Hca.
  rewrite Hv2 in Hca.
  assert (Ha : Rabs (F2R a - (F2R b - 2)) <= eta).
  { rewrite <- Heta. apply close_bound; [exact Hca|].
    rewrite Rabs_pos_eq; lra. }
  pose proof (Rabs_le_inv _ _ Ha) as Ha'.
  assert (Hma : moderate a)
    by (apply moderate_between with 15 (B + 1); [exact Hfa | lra | lra | lra]).
  (* the quotient *)
  destruct (div_value a L Hma HmL) as [Hff Hcf]. fold f in Hff, Hcf.
  destruct (factor_error eps eta r (F2R L) (F2R a) (F2R f)) as [Hf1 Hf2].
  - exact Heps.
  - exact Hr30.
  - rewrite <- Heta. apply Rmult_le_compat_r; lra.
  - exact Hsmall.
  - exact HL.
  - apply Rabs_le. lra.
  - exact Hcf.
  - split; [split; assumption|]. split; [exact Hrr|].
    split; [|split; assumption].
    apply moderate_between with (/ 2) 1; [exact Hff | exact Hf1 | lra | lra].
Qed.

(** One coordinate of the end point: [int(x1 + dx * factor)]. *)
Lemma coordinate_value (x1 d : Z) (f : float) (r : R) :
  (Z.abs x1 <= 2 ^ 20)%Z -> (Z.abs d <= 2 ^ 21)%Z ->
  30 <= r -> Rabs (IZR d) <= r ->
  moderate f -> / 2 <= F2R f <= 1 ->
  Rabs (r * (F2R f - (1 - 14 / r))) <= 7 * / IZR (2 ^ 30) ->
  exists e,
    Py.int_of_float (Py.float_of_Z x1 + Py.float_of_Z d * f) = Some e /\
    Rabs (IZR e - IZR (x1 + d) + 14 * IZR d / r) <= 1001 / 1000.
Proof.
  intros Hx1 Hd Hr Hdr Hmf Hf Herr.
  pose proof eta_small as Heta. pose proof eta_bound as Hsmall.
  pose proof two_22_50 as H2250. pose proof two_22_30 as H2230.
  set (B := IZR (2 ^ 22)) in *. set (eps := / IZR (2 ^ 52)) in *.
  set (eta := / IZR (2 ^ 30)) in *.
  assert (Heps : 0 < eps)
    by (apply Rinv_0_lt_compat, IZR_lt; reflexivity).
  assert (HdB : Rabs (IZR d) <= B / 2).
  { rewrite <- abs_IZR. apply Rle_trans with (IZR (2 ^ 21)).
    - apply IZR_le. exact Hd.
    - unfold B. change (2 ^ 22)%Z with (2 ^ 21 * 2)%Z. rewrite mult_IZR. lra. }
  assert (HxB : Rabs (IZR x1) <= B / 4).
  { rewrite <- abs_IZR. apply Rle_trans with (IZR (2 ^ 20)).
    - apply IZR_le. exact Hx1.
    - unfold B. change (2 ^ 22)%Z with (2 ^ 20 * 4)%Z. rewrite mult_IZR. lra. }
  pose proof (Rabs_le_inv _ _ HdB) as HdB'.
  pose proof (Rabs_le_inv _ _ HxB) as HxB'.
  pose proof (Rabs_le_inv _ _ Hdr) as Hdr'.
  set (fv := F2R f) in *.
  (* the product *)
  destruct (float_of_Z_value d) as [HfD HvD]; [lia|].
  assert (HD : F2R (Py.float_of_Z d) = 0 \/ moderate (Py.float_of_Z d)).
  { destruct (Z.eq_dec d 0) as [-> | N0].
    - left. exact HvD.
    - right. apply moderate_int; [exact N0 | lia]. }
  set (p := (Py.float_of_Z d * f)%float).
  destruct (mul_value _ f HfD HD Hmf) as [Hfp Hcp]. fold p in Hfp, Hcp.
  rewrite HvD in Hcp. fold fv in Hcp.
  assert (Hdf : Rabs (IZR d * fv) <= B / 2).
  { rewrite Rabs_mult, (Rabs_pos_eq fv) by lra.
    pose proof (Rabs_pos (IZR d)). nra. }
  assert (Hp : Rabs (F2R p - IZR d * fv) <= eta).
  { rewrite <- Heta. fold B eps.
    apply Rle_trans with (B / 2 * eps); [|nra].
    apply close_bound; [exact Hcp | exact Hdf]. }
  pose proof (Rabs_le_inv _ _ Hp) as Hp'.
  pose proof (Rabs_le_inv _ _ Hdf) as Hdf'.
  assert (Hpm : F2R p = 0 \/ moderate p).
  { destruct (Z.eq_dec d 0) as [E | N0].
    - left. rewrite E, Rmult_0_l in Hcp. now apply close_zero.
    - right. apply moderate_range; [exact Hfp|].
      assert (H1 : 1 <= Rabs (IZR d))
        by (rewrite <- abs_IZR; apply (IZR_le 1); lia).
      assert (H2 : / 2 <= Rabs (IZR d * fv)).
      { rewrite Rabs_mult, (Rabs_pos_eq fv) by lra. nra. }
      assert (H3 : Rabs (IZR d * fv) - eta <= Rabs (F2R p)).
      { pose proof (Rabs_triang_inv (IZR d * fv) (F2R p - IZR d * fv + IZR d * fv)).
        pose proof (Rabs_triang (F2R p - IZR d * fv) (IZR d * fv)) as Ht.
        replace (F2R p - IZR d * fv + IZR d * fv) with (F2R p) in Ht by ring.
        pose proof (Rabs_triang (F2R p) (- (F2R p - IZR d * fv))) as Ht2.
        replace (F2R p + - (F2R p - IZR d * fv)) with (IZR d * fv) in Ht2
          by ring.
        rewrite Rabs_Ropp in Ht2. lra. }
      assert (H4 : Rabs (F2R p) <= B / 2 + eta).
      { pose proof (Rabs_triang (F2R p - IZR d * fv) (IZR d * fv)) as Ht.
        replace (F2R p - IZR d * fv + IZR d * fv) with (F2R p) in Ht by ring.
        lra. }
      split; lra. }
  (* the sum *)
  destruct (float_of_Z_value x1) as [HfX HvX]; [lia|].
  assert (HX : F2R (Py.float_of_Z x1) = 0 \/ moderate (Py.float_of_Z x1)).
  { destruct (Z.eq_dec x1 0) as [-> | N0].
    - left. exact HvX.
    - right. apply moderate_int; [exact N0 | lia]. }
  set (X := (Py.float_of_Z x1 + p)%float).
  destruct (add_value _ p HfX HX Hfp Hpm) as [HfS HcS]. fold X in HfS, HcS.
  rewrite HvX in HcS.
  assert (HS : Rabs (F2R X - (IZR x1 + F2R p)) <= eta).
  { rewrite <- Heta. fold B eps. apply close_bound; [exact HcS|].
    apply Rabs_le. lra. }
  pose proof (Rabs_le_inv _ _ HS) as HS'.
  (* the truncation *)
  destruct (int_of_float_value X HfS) as (e & He & Htr).
  exists e. split; [exact He|].
  apply Rabs_def2 in Htr.
  (* the error of the factor, scaled by d *)
  assert (Hdh : Rabs (IZR d * (fv - (1 - 14 / r))) <= 7 * eta).
  { apply Rle_trans with (Rabs (r * (fv - (1 - 14 / r)))); [|exact Herr].
    rewrite !Rabs_mult. apply Rmult_le_compat_r; [apply Rabs_pos|].
    rewrite (Rabs_pos_eq r) by lra. exact Hdr. }
  pose proof (Rabs_le_inv _ _ Hdh) as Hdh'.
  rewrite plus_IZR.
  replace (IZR e - (IZR x1 + IZR d) + 14 * IZR d / r)
    with ((IZR e - F2R X) + (F2R X - (IZR x1 + F2R p))
          + (F2R p - IZR d * fv) + IZR d * (fv - (1 - 14 / r)))
    by (field; lra).
  apply Rabs_le. lra.
Qed.

Lemma square_bound (d : Z) : (Z.abs d <= 2 ^ 21)%Z -> (d * d <= 2 ^ 42)%Z.
Proof.
  intros Hd. rewrite <- Z.abs_square.
  change (2 ^ 42)%Z with (2 ^ 21 * 2 ^ 21)%Z.
  apply Z.mul_le_mono_nonneg; lia.
Qed.

Lemma component_below_length (d r s : R) :
  0 <= r -> 0 <= s -> d * d + s = r * r -> Rabs d <= r.
Proof. intros Hr Hs H. apply Rabs_le. split; nra. Qed.

(** For a label more than 30 away from the center, with coordinates of at
    most 2^20 in magnitude, the end point of the leader line lies between
    12.5 and 15.4 from the label position: outside the label circle of
    radius 12, not on it. *)
Lemma leader_end_geometry (x1 y1 x2 y2 : Z) :
  (Z.abs x1 <= 2 ^ 20)%Z -> (Z.abs y1 <= 2 ^ 20)%Z ->
  (Z.abs x2 <= 2 ^ 20)%Z -> (Z.abs y2 <= 2 ^ 20)%Z ->
  (900 < (x2 - x1) * (x2 - x1) + (y2 - y1) * (y2 - y1))%Z ->
  exists ex ey,
    leader_end (x1, y1) (x2, y2) = Some (ex, ey) /\
    (157 <= (ex - x2) * (ex - x2) + (ey - y2) * (ey - y2) <= 237)%Z.
Proof.
  intros Hx1 Hy1 Hx2 Hy2 Hfar.
  set (dx := (x2 - x1)%Z) in *. set (dy := (y2 - y1)%Z) in *.
  assert (Hdx : (Z.abs dx <= 2 ^ 21)%Z) by (unfold dx; lia).
  assert (Hdy : (Z.abs dy <= 2 ^ 21)%Z) by (unfold dy; lia).
  pose proof (square_bound dx Hdx) as Hsx.
  pose proof (square_bound dy Hdy) as Hsy.
  set (n := (dx * dx + dy * dy)%Z) in *.
  assert (Hn : (900 < n <= 2 ^ 43)%Z).
  { split; [exact Hfar|]. change (2 ^ 43)%Z with (2 ^ 42 + 2 ^ 42)%Z.
    unfold n. lia. }
  destruct (factor_value n Hn) as ([Hr30 Hr22] & Hrr & Hmf & Hf & Herr).
  set (r := sqrt (IZR n)) in *.
  set (L := Py.math_sqrt_int n) in *.
  set (f := ((L - Py.float_of_Z circle_radius - Py.float_of_Z 2) / L)%float)
    in *.
  assert (Hgt : Py.float_gt_int L 0 = true).
  { apply float_gt_int_weaken with 30%Z; [|lia].
    unfold L. rewrite distance_above_30 by lia. apply Z.ltb_lt. lia. }
  assert (Hnr : IZR dx * IZR dx + IZR dy * IZR dy = r * r).
  { rewrite Hrr. unfold n. now rewrite plus_IZR, !mult_IZR. }
  assert (Hsqx : 0 <= IZR dx * IZR dx) by nra.
  assert (Hsqy : 0 <= IZR dy * IZR dy) by nra.
  destruct (coordinate_value x1 dx f r) as (ex & Hex & Hax);
    [assumption | assumption | assumption
    | apply component_below_length with (IZR dy * IZR dy); lra
    | assumption | assumption | assumption |].
  destruct (coordinate_value y1 dy f r) as (ey & Hey & Hay);
    [assumption | assumption | assumption
    | apply component_below_length with (IZR dx * IZR dx); lra
    | assumption | assumption | assumption |].
  exists ex, ey. split.
  - unfold leader_end. fold dx dy n L. rewrite Hgt. fold f.
    now rewrite Hex, Hey.
  - replace (x1 + dx)%Z with x2 in Hax by (unfold dx; lia).
    replace (y1 + dy)%Z with y2 in Hay by (unfold dy; lia).
    destruct (ring_bounds _ _ (14 * IZR dx / r) (14 * IZR dy / r) Hax Hay)
      as [Hlo Hhi].
    { replace (14 * IZR dx / r * (14 * IZR dx / r)
               + 14 * IZR dy / r * (14 * IZR dy / r))
        with (196 * (IZR dx * IZR dx + IZR dy * IZR dy) / (r * r))
        by (field; lra).
      rewrite Hnr. field. lra. }
    replace (IZR ex - IZR x2 + 14 * IZR dx / r - 14 * IZR dx / r)
      with (IZR (ex - x2)) in Hlo, Hhi by (rewrite minus_IZR; ring).
    replace (IZR ey - IZR y2 + 14 * IZR dy / r - 14 * IZR dy / r)
      with (IZR (ey - y2)) in Hlo, Hhi by (rewrite minus_IZR; ring).
    rewrite <- !mult_IZR, <- plus_IZR in Hlo, Hhi.
    apply lt_IZR in Hlo. apply lt_IZR in Hhi. lia.
Qed.

End LeaderFacts.

(* ================================================================== *)
(** * Sorting *)
(* ================================================================== *)

Module SortFacts.
Section Generic.
Context {A K : Type}.
Variable lt : K -> K -> bool.
Variable key : A -> K.

(** Sorting only permutes the list. *)
Lemma insert_desc_perm (x : A) (l : list A) :
  Permutation (x :: l) (Py.insert_desc lt key x l).
Proof.
  induction l as [|y l IH]; simpl; [reflexivity|].
  destruct (lt (key x) (key y)); [|reflexivity].
  rewrite perm_swap. now constructor.
Qed.

Lemma sorted_reverse_perm (xs : list A) :
  Permutation xs (Py.sorted_reverse lt key xs).
Proof.
  induction xs as [|x xs IH]; simpl; [constructor|].
  rewrite <- insert_desc_perm. now constructor.
Qed.

Lemma sorted_reverse_length (xs : list A) :
  List.length (Py.sorted_reverse lt key xs) = List.length xs.
Proof. symmetry. apply Permutation_length, sorted_reverse_perm. Qed.

Hypothesis lt_asym : forall a b, lt a b = true -> lt b a = false.

Lemma insert_desc_hd (x y : A) (l : list A) :
  (Py.not_below lt key) y x -> HdRel (Py.not_below lt key) y l ->
  HdRel (Py.not_below lt key) y (Py.insert_desc lt key x l).
Proof.
  intros Hyx Hy. destruct l as [|z l]; simpl.
  - now constructor.
  - destruct (lt (key x) (key z)); constructor; auto.
    now inversion Hy.
Qed.

Lemma insert_desc_sorted (x : A) (l : list A) :
  Sorted (Py.not_below lt key) l ->
  Sorted (Py.not_below lt key) (Py.insert_desc lt key x l).
Proof.
  induction 1 as [|y l Hs IH Hhd]; simpl.
  - repeat constructor.
  - destruct (lt (key x) (key y)) eqn:E.
    + constructor; [exact IH|].
      apply insert_desc_hd; [|exact Hhd]. now apply lt_asym.
    + constructor; [now constructor|]. now constructor.
Qed.

(** Neighbours are in descending order. *)
Lemma sorted_reverse_sorted (xs : list A) :
  Sorted (Py.not_below lt key) (Py.sorted_reverse lt key xs).
Proof.
  induction xs as [|x xs IH]; simpl; [constructor|].
  now apply insert_desc_sorted.
Qed.

(** Keys that compare like a total preorder. *)
Variable good : K -> Prop.
Hypothesis lt_false_trans : forall a b c, good b ->
  lt a b = false -> lt b c = false -> lt a c = false.

Lemma insert_desc_strongly (x : A) (l : list A) :
  Forall (fun a => good (key a)) l ->
  StronglySorted (Py.not_below lt key) l ->
  StronglySorted (Py.not_below lt key) (Py.insert_desc lt key x l).
Proof.
  intros Hg Hs. induction Hs as [|y l Hs IH Hall]; simpl.
  - repeat constructor.
  - inversion Hg as [|? ? Hgy Hgl]; subst.
    destruct (lt (key x) (key y)) eqn:E.
    + constructor; [now apply IH|].
      eapply Permutation_Forall; [apply insert_desc_perm|].
      constructor; [now apply lt_asym | exact Hall].
    + constructor; [now constructor|].
      constructor; [exact E|].
      eapply Forall_impl; [|exact Hall].
      intros z Hyz. now apply lt_false_trans with (key y).
Qed.

(** Every element is followed only by elements it may stand before. *)
Lemma sorted_reverse_strongly (xs : list A) :
  Forall (fun a => good (key a)) xs ->
  StronglySorted (Py.not_below lt key) (Py.sorted_reverse lt key xs).
Proof.
  induction 1 as [|x xs Hx Hxs IH]; simpl; [constructor|].
  apply insert_desc_strongly; [|exact IH].
  eapply Permutation_Forall; [apply sorted_reverse_perm | exact Hxs].
Qed.
End Generic.
End SortFacts.

(* ================================================================== *)
(** * Shape classification *)
(* ================================================================== *)

Module ClassifyFacts.
Import ComponentDetectorService FloatOrder.





End ClassifyFacts.

(* ================================================================== *)
(** * Label placement *)
(* ================================================================== *)

Module PlacementFacts.
Import AnnotationService AnnotationSpec.

Lemma in_bounds_iff (image_bounds : Z * Z) (p : position_t) :
  in_bounds image_bounds p = true <-> within_canvas image_bounds p.
Proof.
  destruct image_bounds as [W H], p as [px py].
  unfold in_bounds, within_canvas; simpl.
  rewrite andb_true_iff, !negb_true_iff, !orb_false_iff.
  rewrite !Z.ltb_ge, !Z.gtb_ltb, !Z.ltb_ge. lia.
Qed.

Lemma is_position_clear_iff (p : position_t) (existing : list position_t) :
  _is_position_clear p existing min_label_distance = true
  <-> Forall (far_enough p) existing.
Proof.
  induction existing as [|e r IH]; simpl.
  - split; [constructor | reflexivity].
  - destruct (Py.float_lt_int (_distance p e) min_label_distance) eqn:E.
    + split; [discriminate|]. intros HF. inversion HF; subst.
      unfold far_enough in *. congruence.
    + rewrite IH. split.
      * intros HF. constructor; assumption.
      * intros HF. now inversion HF.
Qed.

Lemma acceptable_iff (image_bounds : Z * Z) (existing : list position_t)
    (p : position_t) :
  in_bounds image_bounds p
  && _is_position_clear p existing min_label_distance = true
  <-> acceptable image_bounds existing p.
Proof.
  unfold acceptable.
  now rewrite andb_true_iff, in_bounds_iff, is_position_clear_iff.
Qed.

Lemma scan_step (pos : position_t) (rest existing : list position_t)
    (image_bounds : Z * Z) :
  scan_candidates (pos :: rest) existing image_bounds =
    if in_bounds image_bounds pos
       && _is_position_clear pos existing min_label_distance
    then Some pos
    else scan_candidates rest existing image_bounds.
Proof.
  simpl. destruct (in_bounds image_bounds pos); simpl; [|reflexivity].
  now destruct (_is_position_clear pos existing min_label_distance).
Qed.

(** The loop returns the first acceptable candidate. *)
Lemma scan_some (cands existing : list position_t) (image_bounds : Z * Z)
    (p : position_t) :
  scan_candidates cands existing image_bounds = Some p ->
  exists k, nth_error cands k = Some p /\
    acceptable image_bounds existing p /\
    forall j q, (j < k)%nat -> nth_error cands j = Some q ->
      ~ acceptable image_bounds existing q.
Proof.
  induction cands as [|c r IH]; [discriminate|].
  rewrite scan_step.
  destruct (in_bounds image_bounds c
            && _is_position_clear c existing min_label_distance) eqn:E.
  - intros [= <-]. exists 0%nat. split; [reflexivity|]. split.
    + now apply acceptable_iff.
    + intros j q Hj. lia.
  - intros Hs. destruct (IH Hs) as (k & Hk & Hacc & Hbefore).
    exists (S k). split; [exact Hk|]. split; [exact Hacc|].
    intros [|j] q Hj Hq.
    + simpl in Hq. injection Hq as <-.
      rewrite <- acceptable_iff. congruence.
    + apply (Hbefore j); [lia | exact Hq].
Qed.

(** The loop runs to its end only when no candidate is acceptable. *)
Lemma scan_none (cands existing : list position_t) (image_bounds : Z * Z) :
  scan_candidates cands existing image_bounds = None ->
  forall q, In q cands -> ~ acceptable image_bounds existing q.
Proof.
  induction cands as [|c r IH]; [intros _ q []|].
  rewrite scan_step.
  destruct (in_bounds image_bounds c
            && _is_position_clear c existing min_label_distance) eqn:E;
    [discriminate|].
  intros Hs q [<- | Hin].
  - rewrite <- acceptable_iff. congruence.
  - now apply IH.
Qed.

Lemma candidates_length (bbox : bbox_t) : List.length (candidates bbox) = 7%nat.
Proof. now destruct bbox as [[[x y] w] h]. Qed.

(** The returned position is always one of the candidates. *)
Lemma label_position_in_candidates (bbox : bbox_t) (center : position_t)
    (existing : list position_t) (image_bounds : Z * Z) :
  In (_calculate_label_position bbox center existing image_bounds)
     (candidates bbox).
Proof.
  unfold _calculate_label_position.
  destruct (scan_candidates (candidates bbox) existing image_bounds) eqn:E.
  - destruct (scan_some _ _ _ _ E) as (k & Hk & _).
    eapply nth_error_In; eassumption.
  - destruct bbox as [[[x y] w] h]. simpl. now left.
Qed.

(** A position returned although some candidate was acceptable is itself
    acceptable. *)
Lemma label_position_acceptable (bbox : bbox_t) (center : position_t)
    (existing : list position_t) (image_bounds : Z * Z) (q : position_t) :
  In q (candidates bbox) -> acceptable image_bounds existing q ->
  acceptable image_bounds existing
    (_calculate_label_position bbox center existing image_bounds).
Proof.
  intros Hin Hq. unfold _calculate_label_position.
  destruct (scan_candidates (candidates bbox) existing image_bounds) eqn:E.
  - now destruct (scan_some _ _ _ _ E) as (k & _ & Hacc & _).
  - exfalso. exact (scan_none _ _ _ E q Hin Hq).
Qed.




End PlacementFacts.

Module LoopFacts.
Import AnnotationService AnnotationSpec PlacementFacts.

(** Appending touches nothing but the end of the list of children. *)
Lemma append_all_children (tg : string) (a : list (string * string))
    (tx tl : option string) (ch es : list ET.element) :
  append_all (ET.Element tg a tx tl ch) es = ET.Element tg a tx tl (ch ++ es).
Proof.
  revert ch. induction es as [|e es IH]; intros ch; simpl.
  - now rewrite app_nil_r.
  - rewrite IH. now rewrite <- app_assoc.
Qed.

Lemma append_all_app (root : ET.element) (es1 es2 : list ET.element) :
  append_all root (es1 ++ es2) = append_all (append_all root es1) es2.
Proof. apply fold_left_app. Qed.

Section Steps.
Variable image_bounds : Z * Z.
Variables start_number increment : Z.
Variable add_leader_lines : bool.

(** One iteration that does not raise is a step. *)
Lemma loop_body_ok (st st' : loop_state) (i : Z) (comp : component) :
  loop_body image_bounds start_number increment add_leader_lines st i comp
    = Some st' ->
  exists l es,
    step_ok image_bounds start_number increment add_leader_lines
      (placed_positions st) i comp l es /\
    labels st' = labels st ++ [l] /\
    placed_positions st' = placed_positions st ++ [position l] /\
    svg_root st' = append_all (svg_root st) es.
Proof.
  unfold loop_body.
  set (center := _calculate_center (c_bbox comp)).
  set (pos := _calculate_label_position (c_bbox comp) center
                (placed_positions st) image_bounds).
  destruct (add_leader_lines && Py.float_gt_int (_distance pos center) 30)
    eqn:Efar.
  - unfold _add_leader_line.
    destruct (leader_end center pos) as [e|] eqn:Ee; [|discriminate].
    intros [= <-].
    exists (mkLabel (start_number + i * increment) pos (c_id comp) true),
           [label_group (start_number + i * increment) pos;
            leader_line center e].
    repeat split; try reflexivity.
    + symmetry. exact Efar.
    + right. split; [reflexivity|]. now exists e.
  - intros [= <-].
    exists (mkLabel (start_number + i * increment) pos (c_id comp) false),
           [label_group (start_number + i * increment) pos].
    repeat split; try reflexivity.
    + symmetry. exact Efar.
    + left. now split.
Qed.

(** A loop that does not raise is a run of steps. *)
Lemma run_loop_steps (comps : list component) :
  forall (i : Z) (st st' : loop_state),
  run_loop image_bounds start_number increment add_leader_lines st
    (Py.enumerate_from i comps) = Some st' ->
  exists ls ess,
    steps image_bounds start_number increment add_leader_lines
    i (placed_positions st) comps ls ess /\
    labels st' = labels st ++ ls /\
    placed_positions st' = placed_positions st ++ map position ls /\
    svg_root st' = append_all (svg_root st) (List.concat ess).
Proof.
  induction comps as [|comp comps IH]; intros i st st'; simpl.
  - intros [= <-]. exists [], []. rewrite !app_nil_r.
    repeat split. constructor.
  - destruct (loop_body image_bounds start_number increment
                add_leader_lines st i comp) as [st1|] eqn:E1; [|discriminate].
    intros Hrun.
    destruct (loop_body_ok _ _ _ _ E1) as (l & es & Hok & Hl & Hp & Hr).
    destruct (IH _ _ _ Hrun) as (ls & ess & Hsteps & Hl' & Hp' & Hr').
    exists (l :: ls), (es :: ess). repeat split.
    + constructor; [exact Hok|]. now rewrite <- Hp.
    + rewrite Hl', Hl. now rewrite <- app_assoc.
    + rewrite Hp', Hp. simpl. now rewrite <- app_assoc.
    + rewrite Hr', Hr. simpl. now rewrite append_all_app.
Qed.

Lemma steps_length i placed comps ls ess :
  steps image_bounds start_number increment add_leader_lines
    i placed comps ls ess ->
  List.length ls = List.length comps /\ List.length ess = List.length comps.
Proof. induction 1; simpl; [auto | lia]. Qed.

(** The [k]-th iteration of a run. *)
Lemma steps_nth i placed comps ls ess :
  steps image_bounds start_number increment add_leader_lines
    i placed comps ls ess ->
  forall (k : nat) (l : label), nth_error ls k = Some l ->
  exists comp es,
    nth_error comps k = Some comp /\ nth_error ess k = Some es /\
    step_ok image_bounds start_number increment add_leader_lines
      (placed ++ map position (firstn k ls)) (i + Z.of_nat k) comp l es.
Proof.
  induction 1 as [|i placed comp comps l0 ls es ess Hok Hs IH];
    intros k l Hk.
  - now destruct k.
  - destruct k as [|k]; simpl in Hk.
    + injection Hk as <-. exists comp, es. simpl.
      rewrite app_nil_r, Z.add_0_r. auto.
    + destruct (IH k l Hk) as (c & e & Hc & He & Hstep).
      exists c, e. split; [exact Hc|]. split; [exact He|].
      rewrite <- app_assoc in Hstep.
      replace (i + Z.of_nat (S k)) with (i + 1 + Z.of_nat k) by lia.
      exact Hstep.
Qed.

Lemma steps_ids i placed comps ls ess :
  steps image_bounds start_number increment add_leader_lines
    i placed comps ls ess ->
  map component_id ls = map c_id comps.
Proof.
  induction 1 as [|? ? ? ? ? ? ? ? Hok _ IH]; simpl; [reflexivity|].
  destruct Hok as (_ & -> & _). now rewrite IH.
Qed.
End Steps.

Section Place.
Variable fromstring : string -> option ET.element.
Variable tostring : ET.element -> string.

(** A successful call, taken apart. *)
Lemma place_labels_success (svg_content : string)
    (components : list component) (start_number increment : Z)
    (add_leader_lines : bool) (out : string) (lbls : list label) :
  place_labels_on_svg fromstring tostring svg_content components
    start_number increment add_leader_lines = Some (out, lbls) ->
  exists root width height ess,
    parse_svg fromstring svg_content = Some root /\
    dimension root "width" 800 = Some width /\
    dimension root "height" 600 = Some height /\
    steps (width, height) start_number increment add_leader_lines 0 []
      (_sort_components_by_importance components) lbls ess /\
    out = tostring (append_all root (List.concat ess)).
Proof.
  unfold place_labels_on_svg, annotate_tree.
  destruct (parse_svg fromstring svg_content) as [root|] eqn:Ep;
    [|discriminate].
  destruct (dimension root "width" 800) as [width|] eqn:Ew; [|discriminate].
  destruct (dimension root "height" 600) as [height|] eqn:Eh;
    [|discriminate].
  destruct (run_loop _ _ _ _ _ _) as [st|] eqn:Erun; [|discriminate].
  intros [= <- <-].
  destruct (run_loop_steps _ _ _ _ _ _ _ _ Erun)
    as (ls & ess & Hsteps & Hl & _ & Hr).
  simpl in Hl, Hr, Hsteps. rewrite Hl, Hr.
  exists root, width, height, ess. repeat split; assumption || reflexivity.
Qed.
End Place.
End LoopFacts.

Module AnnotationFacts.
Import AnnotationService AnnotationSpec PlacementFacts LoopFacts FloatOrder.

(** Along a run every label carries the id of its component and stands on
    one of its candidates. *)
Lemma steps_placed_for bounds s inc add i placed comps ls ess :
  steps bounds s inc add i placed comps ls ess ->
  Forall2 (fun comp l =>
             component_id l = c_id comp /\
             In (position l) (candidates (c_bbox comp))) comps ls.
Proof.
  induction 1 as [|? ? ? ? ? ? ? ? Hok _ IH]; constructor; [|exact IH].
  destruct Hok as (_ & Hid & Hpos & _). split; [exact Hid|].
  rewrite Hpos. apply label_position_in_candidates.
Qed.

(** Along a run every label gets its group and, if it has one, its line. *)
Lemma steps_appended bounds s inc add i placed comps ls ess :
  steps bounds s inc add i placed comps ls ess ->
  Forall2 appended_for ls ess.
Proof.
  induction 1 as [|? ? ? ? ? ? ? ? Hok _ IH]; constructor; [|exact IH].
  destruct Hok as (_ & _ & _ & _ & [[Hf ->] | [Ht (e & _ & ->)]]).
  - left. now split.
  - right. split; [exact Ht|]. now eexists _, e.
Qed.

Lemma nth_error_firstn_lt {A : Type} (l : list A) (i j : nat) (a : A) :
  (i < j)%nat -> nth_error l i = Some a -> In a (firstn j l).
Proof.
  revert i j. induction l as [|x l IH]; intros i j Hij Hi.
  - now destruct i.
  - destruct j as [|j]; [lia|]. destruct i as [|i]; simpl in *.
    + left. congruence.
    + right. apply (IH i j); [lia | exact Hi].
Qed.

Section Claims.
Variable fromstring : string -> option ET.element.
Variable tostring : ET.element -> string.

(** In a successful call the label at rank k stands where
    [_calculate_label_position] puts it for the component at rank k, given
    the positions of the labels at ranks below k. *)
Lemma label_positions_follow_rank_order (svg_content : string)
    (components : list component) (start_number increment : Z)
    (add_leader_lines : bool) (out : string) (lbls : list label) :
  place_labels_on_svg fromstring tostring svg_content components
    start_number increment add_leader_lines = Some (out, lbls) ->
  exists root width height,
    parse_svg fromstring svg_content = Some root /\
    dimension root "width" 800 = Some width /\
    dimension root "height" 600 = Some height /\
    forall k l, nth_error lbls k = Some l ->
      exists comp,
        nth_error (_sort_components_by_importance components) k
          = Some comp /\
        position l =
          _calculate_label_position (c_bbox comp)
            (_calculate_center (c_bbox comp))
            (map position (firstn k lbls)) (width, height).
Proof.
  intros Hrun.
  destruct (place_labels_success _ _ _ _ _ _ _ _ _ Hrun)
    as (root & width & height & ess & Hp & Hw & Hh & Hsteps & _).
  exists root, width, height. repeat (split; [assumption|]).
  intros k l Hk.
  destruct (steps_nth _ _ _ _ _ _ _ _ _ Hsteps k l Hk)
    as (comp & es & Hc & _ & _ & _ & Hpos & _).
  exists comp. split; [exact Hc | exact Hpos].
Qed.

(** C1. A successful call returns one label per component: as many labels
    as components, the k-th label carrying the id of the k-th component in
    importance order and standing on one of that component's candidate
    positions; the ids recorded are the ids of the input, each as often as
    it occurs there. *)
Theorem one_label_per_component (svg_content : string)
    (components : list component) (start_number increment : Z)
    (add_leader_lines : bool) (out : string) (lbls : list label) :
  place_labels_on_svg fromstring tostring svg_content components
    start_number increment add_leader_lines = Some (out, lbls) ->
  List.length lbls = List.length components /\
  Forall2 (fun comp l =>
             component_id l = c_id comp /\
             In (position l) (candidates (c_bbox comp)))
    (_sort_components_by_importance components) lbls /\
  Permutation (map c_id components) (map component_id lbls).
Proof.
  intros Hrun.
  destruct (place_labels_success _ _ _ _ _ _ _ _ _ Hrun)
    as (root & width & height & ess & _ & _ & _ & Hsteps & _).
  split; [|split].
  - destruct (steps_length _ _ _ _ _ _ _ _ _ Hsteps) as [-> _].
    apply SortFacts.sorted_reverse_length.
  - exact (steps_placed_for _ _ _ _ _ _ _ _ _ Hsteps).
  - rewrite (steps_ids _ _ _ _ _ _ _ _ _ Hsteps).
    apply Permutation_map, SortFacts.sorted_reverse_perm.
Qed.

(** C2. The components are ranked by [importance_score], which is
    area - (0.3 * y + 0.1 * x) / 1000 for the top-left corner (x, y) of the
    box, highest first (no component is ranked before one of strictly
    higher score, and the ranking only permutes the input), and the label
    at rank i, counted
    from 0, has number [start_number + i * increment] and the id of the
    component at rank i.  With an increment of at least 1 the numbers
    strictly increase along the ranking, so no two labels share a
    number. *)
Theorem labels_numbered_along_importance_order (svg_content : string)
    (components : list component) (start_number increment : Z)
    (add_leader_lines : bool) (out : string) (lbls : list label) :
  place_labels_on_svg fromstring tostring svg_content components
    start_number increment add_leader_lines = Some (out, lbls) ->
  let ranked := _sort_components_by_importance components in
  let descending (a b : component) :=
    (importance_score a <? importance_score b)%float = false in
  (forall comp x y w h, c_bbox comp = (x, y, w, h) ->
     importance_score comp =
       (Py.float_of_Z (c_area comp)
        - (Py.float_of_Z y * 0.3 + Py.float_of_Z x * 0.1) / 1000)%float) /\
  Permutation components ranked /\
  Sorted descending ranked /\
  (Forall (fun c => is_nan (importance_score c) = false) components ->
   StronglySorted descending ranked) /\
  (forall i l, nth_error lbls i = Some l ->
     number l = start_number + Z.of_nat i * increment /\
     exists comp, nth_error ranked i = Some comp /\
                  component_id l = c_id comp) /\
  (1 <= increment ->
   forall i j li lj, (i < j)%nat ->
     nth_error lbls i = Some li -> nth_error lbls j = Some lj ->
     number li < number lj) /\
  (1 <= increment ->
   forall i j li lj, i <> j ->
     nth_error lbls i = Some li -> nth_error lbls j = Some lj ->
     number li <> number lj).
Proof.
  intros Hrun ranked descending.
  destruct (place_labels_success _ _ _ _ _ _ _ _ _ Hrun)
    as (root & width & height & ess & _ & _ & _ & Hsteps & _).
  assert (Hnum : forall i l, nth_error lbls i = Some l ->
            number l = start_number + Z.of_nat i * increment /\
            exists comp, nth_error ranked i = Some comp /\
                         component_id l = c_id comp).
  { intros i l Hi.
    destruct (steps_nth _ _ _ _ _ _ _ _ _ Hsteps i l Hi)
      as (comp & es & Hc & _ & Hn & Hid & _).
    split; [rewrite Hn; f_equal | exists comp; auto]. }
  assert (Hinc : 1 <= increment ->
            forall i j li lj, (i < j)%nat ->
              nth_error lbls i = Some li -> nth_error lbls j = Some lj ->
              number li < number lj).
  { intros Hpos i j li lj Hij Hi Hj.
    destruct (Hnum i li Hi) as [-> _]. destruct (Hnum j lj Hj) as [-> _].
    nia. }
  split.
  { intros comp x y w h Hb. unfold importance_score. now rewrite Hb. }
  split; [apply SortFacts.sorted_reverse_perm|].
  split; [apply SortFacts.sorted_reverse_sorted; exact ltb_asym|].
  split.
  { intros Hgood.
    apply SortFacts.sorted_reverse_strongly
      with (good := fun k => is_nan k = false);
      [exact ltb_asym | | exact Hgood].
    intros a b c. apply ltb_false_trans. }
  split; [exact Hnum|].
  split; [exact Hinc|].
  intros Hpos i j li lj Hij Hi Hj.
  destruct (Nat.lt_total i j) as [Hlt | [Heq | Hgt]]; [| contradiction |].
  - apply Z.lt_neq. now apply (Hinc Hpos i j).
  - apply not_eq_sym, Z.lt_neq. now apply (Hinc Hpos j i).
Qed.

(** The group of a label, element by element, and the leader line. *)
Lemma label_group_elements (n : Z) (p : position_t) :
  label_group n p =
    ET.Element "g" [("class", "patent-label")] None None
      [ ET.Element "circle"
          [ ("cx", Py.str (fst p)); ("cy", Py.str (snd p)); ("r", "12");
            ("fill", "white"); ("stroke", "black");
            ("stroke-width", "1.5") ] None None [];
        ET.Element "text"
          [ ("x", Py.str (fst p)); ("y", Py.str (snd p + 5));
            ("font-family", "Arial, sans-serif"); ("font-size", "14");
            ("font-weight", "bold"); ("fill", "black");
            ("text-anchor", "middle"); ("dominant-baseline", "middle") ]
          (Some (Py.str n)) None [] ].
Proof. destruct p as [x y]. reflexivity. Qed.

Lemma leader_line_elements (c e : position_t) :
  leader_line c e =
    ET.Element "line"
      [ ("x1", Py.str (fst c)); ("y1", Py.str (snd c));
        ("x2", Py.str (fst e)); ("y2", Py.str (snd e));
        ("stroke", "black"); ("stroke-width", "1");
        ("stroke-dasharray", "3,3"); ("class", "leader-line") ]
      None None [].
Proof. reflexivity. Qed.

Lemma squares_nonneg (a b : Z) : 0 <= a ^ 2 + b ^ 2.
Proof.
  rewrite !Z.pow_2_r.
  pose proof (Z.square_nonneg a). pose proof (Z.square_nonneg b). lia.
Qed.

(** The test [distance > 30] of the loop, on integers. *)
Lemma distance_above_30_iff (p c : position_t) :
  Py.float_gt_int (_distance p c) 30
  = (900 <? (fst p - fst c) ^ 2 + (snd p - snd c) ^ 2).
Proof.
  unfold _distance. apply RoundingFacts.distance_above_30.
  apply squares_nonneg.
Qed.

(** C5 (as the code has it). In a successful call the label at rank k has
    [has_leader_line] exactly when [add_leader_lines] is set and its
    position (px, py) is more than 30 away from the center
    (x + w / 2, y + h / 2) of the box of its component, that is when
    (px - cx)^2 + (py - cy)^2 exceeds 900.  The elements appended for it
    are its group and, exactly in that case, one dashed line that starts
    at the center and ends at the point the code computes.  For
    coordinates of at most 2^20 in magnitude that end point lies between
    12.5 and 15.4 away from the label position (squared distance from 157
    to 237): the line stops about 14 short of the center of the circle,
    outside the circle of radius 12 and not on its edge. *)
Theorem leader_line_iff_far_from_center (svg_content : string)
    (components : list component) (start_number increment : Z)
    (add_leader_lines : bool) (out : string) (lbls : list label) :
  place_labels_on_svg fromstring tostring svg_content components
    start_number increment add_leader_lines = Some (out, lbls) ->
  exists root ess,
    parse_svg fromstring svg_content = Some root /\
    out = tostring
            (ET.Element (ET.tag root) (ET.attrib root) (ET.text root)
               (ET.tail root) (ET.children root ++ List.concat ess)) /\
    List.length ess = List.length lbls /\
    forall k l, nth_error lbls k = Some l ->
      exists comp es x y w h,
        nth_error (_sort_components_by_importance components) k
          = Some comp /\
        c_bbox comp = (x, y, w, h) /\
        nth_error ess k = Some es /\
        let cx := x + w / 2 in
        let cy := y + h / 2 in
        let px := fst (position l) in
        let py := snd (position l) in
        let group :=
          ET.Element "g" [("class", "patent-label")] None None
            [ ET.Element "circle"
                [ ("cx", Py.str px); ("cy", Py.str py); ("r", "12");
                  ("fill", "white"); ("stroke", "black");
                  ("stroke-width", "1.5") ] None None [];
              ET.Element "text"
                [ ("x", Py.str px); ("y", Py.str (py + 5));
                  ("font-family", "Arial, sans-serif");
                  ("font-size", "14"); ("font-weight", "bold");
                  ("fill", "black"); ("text-anchor", "middle");
                  ("dominant-baseline", "middle") ]
                (Some (Py.str (number l))) None [] ] in
        has_leader_line l =
          add_leader_lines
          && (900 <? (px - cx) ^ 2 + (py - cy) ^ 2) /\
        (has_leader_line l = false -> es = [group]) /\
        (has_leader_line l = true ->
         exists x2 y2,
           leader_end (cx, cy) (px, py) = Some (x2, y2) /\
           es = [ group;
                  ET.Element "line"
                    [ ("x1", Py.str cx); ("y1", Py.str cy);
                      ("x2", Py.str x2); ("y2", Py.str y2);
                      ("stroke", "black"); ("stroke-width", "1");
                      ("stroke-dasharray", "3,3");
                      ("class", "leader-line") ] None None [] ] /\
           (Z.abs cx <= 2 ^ 20 -> Z.abs cy <= 2 ^ 20 ->
            Z.abs px <= 2 ^ 20 -> Z.abs py <= 2 ^ 20 ->
            157 <= (x2 - px) ^ 2 + (y2 - py) ^ 2 <= 237)).
Proof.
  intros Hrun.
  destruct (place_labels_success _ _ _ _ _ _ _ _ _ Hrun)
    as (root & width & height & ess & Hp & _ & _ & Hsteps & Hout).
  exists root, ess. split; [exact Hp|]. split.
  { rewrite Hout. destruct root as [tg a tx tl ch].
    now rewrite append_all_children. }
  destruct (steps_length _ _ _ _ _ _ _ _ _ Hsteps) as [Hl He].
  split; [congruence|].
  intros k l Hk.
  destruct (steps_nth _ _ _ _ _ _ _ _ _ Hsteps k l Hk)
    as (comp & es & Hc & Hes & _ & _ & _ & Hfar & Hel).
  destruct (c_bbox comp) as [[[x y] w] h] eqn:Hbox.
  exists comp, es, x, y, w, h.
  split; [exact Hc|]. split; [exact Hbox|]. split; [exact Hes|].
  cbv zeta. rewrite distance_above_30_iff in Hfar.
  unfold _calculate_center in Hfar, Hel. cbn [fst snd] in Hfar.
  split; [exact Hfar|].
  rewrite <- label_group_elements.
  destruct Hel as [[Hf ->] | [Ht (e & Hend & ->)]].
  - split; [reflexivity | congruence].
  - split; [congruence|]. intros _.
    destruct e as [x2 y2]. exists x2, y2.
    destruct (position l) as [px py] eqn:Hpos. cbn [fst snd] in *.
    split; [exact Hend|]. split; [now rewrite leader_line_elements|].
    intros Hcx Hcy Hpx Hpy.
    rewrite Ht in Hfar. symmetry in Hfar.
    apply andb_prop in Hfar as [_ Hgt]. apply Z.ltb_lt in Hgt.
    rewrite !Z.pow_2_r in Hgt.
    destruct (LeaderFacts.leader_end_geometry _ _ _ _ Hcx Hcy Hpx Hpy Hgt)
      as (ex & ey & Hend' & Hring).
    rewrite Hend in Hend'. injection Hend' as -> ->.
    now rewrite !Z.pow_2_r.
Qed.

(** Along a run the elements appended for a label are its group, a circle
    and the number as centered text, followed by one dashed line when the
    label has a leader line. *)
Lemma steps_elements bounds s inc add i placed comps ls ess :
  steps bounds s inc add i placed comps ls ess ->
  Forall2
    (fun l es =>
       let px := fst (position l) in
       let py := snd (position l) in
       let group :=
         ET.Element "g" [("class", "patent-label")] None None
           [ ET.Element "circle"
               [ ("cx", Py.str px); ("cy", Py.str py); ("r", "12");
                 ("fill", "white"); ("stroke", "black");
                 ("stroke-width", "1.5") ] None None [];
             ET.Element "text"
               [ ("x", Py.str px); ("y", Py.str (py + 5));
                 ("font-family", "Arial, sans-serif");
                 ("font-size", "14"); ("font-weight", "bold");
                 ("fill", "black"); ("text-anchor", "middle");
                 ("dominant-baseline", "middle") ]
               (Some (Py.str (number l))) None [] ] in
       (has_leader_line l = false /\ es = [group]) \/
       (has_leader_line l = true /\
        exists x1 y1 x2 y2,
          es = [ group;
                 ET.Element "line"
                   [ ("x1", Py.str x1); ("y1", Py.str y1);
                     ("x2", Py.str x2); ("y2", Py.str y2);
                     ("stroke", "black"); ("stroke-width", "1");
                     ("stroke-dasharray", "3,3");
                     ("class", "leader-line") ] None None [] ]))
    ls ess.
Proof.
  induction 1 as [|? ? ? ? ? ? ? ? Hok _ IH]; constructor; [|exact IH].
  cbv zeta. rewrite <- label_group_elements.
  destruct Hok as (_ & _ & _ & _ & [[Hf ->] | [Ht (e & _ & ->)]]).
  - left. now split.
  - right. split; [exact Ht|].
    exists (fst (_calculate_center (c_bbox comp))),
      (snd (_calculate_center (c_bbox comp))), (fst e), (snd e).
    now rewrite leader_line_elements.
Qed.

(** C8 (as the code has it). A successful call serializes the tree it
    parsed with new children appended to its root and nothing else
    changed.  That tree is the tree of the document when the document
    parses; when it does not, it is the tree of the document with every
    [xmlns=] rewritten to [xmlnamespace=].  Tag, attributes, text and
    tail of the root are kept, its former children come first, unchanged
    and in their order, and the children added are, label by label, one
    group (a circle and the number as centered text) followed by one
    dashed line when the label has a leader line. *)
Theorem annotate_appends_to_parsed_tree (svg_content : string)
    (components : list component) (start_number increment : Z)
    (add_leader_lines : bool) (out : string) (lbls : list label) :
  place_labels_on_svg fromstring tostring svg_content components
    start_number increment add_leader_lines = Some (out, lbls) ->
  exists root ess,
    (fromstring svg_content = Some root \/
     (fromstring svg_content = None /\
      fromstring (Py.replace svg_content "xmlns=" "xmlnamespace=")
      = Some root)) /\
    out = tostring
            (ET.Element (ET.tag root) (ET.attrib root) (ET.text root)
               (ET.tail root) (ET.children root ++ List.concat ess)) /\
    Forall2
      (fun l es =>
         let px := fst (position l) in
         let py := snd (position l) in
         let group :=
           ET.Element "g" [("class", "patent-label")] None None
             [ ET.Element "circle"
                 [ ("cx", Py.str px); ("cy", Py.str py); ("r", "12");
                   ("fill", "white"); ("stroke", "black");
                   ("stroke-width", "1.5") ] None None [];
               ET.Element "text"
                 [ ("x", Py.str px); ("y", Py.str (py + 5));
                   ("font-family", "Arial, sans-serif");
                   ("font-size", "14"); ("font-weight", "bold");
                   ("fill", "black"); ("text-anchor", "middle");
                   ("dominant-baseline", "middle") ]
                 (Some (Py.str (number l))) None [] ] in
         (has_leader_line l = false /\ es = [group]) \/
         (has_leader_line l = true /\
          exists x1 y1 x2 y2,
            es = [ group;
                   ET.Element "line"
                     [ ("x1", Py.str x1); ("y1", Py.str y1);
                       ("x2", Py.str x2); ("y2", Py.str y2);
                       ("stroke", "black"); ("stroke-width", "1");
                       ("stroke-dasharray", "3,3");
                       ("class", "leader-line") ] None None [] ]))
      lbls ess.
Proof.
  intros Hrun.
  destruct (place_labels_success _ _ _ _ _ _ _ _ _ Hrun)
    as (root & width & height & ess & Hp & _ & _ & Hsteps & Hout).
  exists root, ess. split; [|split].
  - unfold parse_svg in Hp.
    destruct (fromstring svg_content) as [doc|] eqn:Hdoc.
    + left. congruence.
    + right. now split.
  - rewrite Hout. destruct root as [tg a tx tl ch].
    now rewrite append_all_children.
  - exact (steps_elements _ _ _ _ _ _ _ _ _ Hsteps).
Qed.

(** Every candidate of a box of non-negative size lies within 45 to the
    left, 15 to the right, 30 above and 15 below the box. *)
Lemma candidate_near_box (x y w h : Z) (p : position_t) :
  0 <= w -> 0 <= h -> In p (candidates (x, y, w, h)) ->
  x - 45 <= fst p <= x + w + 15 /\ y - 30 <= snd p <= y + h + 15.
Proof.
  intros Hw Hh. unfold candidates. cbv zeta.
  pose proof (Z.div_pos w 2 Hw ltac:(lia)).
  pose proof (Z.div_pos h 2 Hh ltac:(lia)).
  assert (w / 2 <= w) by (apply Z.div_le_upper_bound; lia).
  assert (h / 2 <= h) by (apply Z.div_le_upper_bound; lia).
  simpl.
  intros [<- | [<- | [<- | [<- | [<- | [<- | [<- | []]]]]]]]; simpl; lia.
Qed.

Lemma square_ge_625 (a : Z) : 25 <= a \/ a <= -25 -> 625 <= a ^ 2.
Proof. intros H. rewrite Z.pow_2_r. nia. Qed.

(** C9 (as the code has it). Two labels of a successful call are at least
    25 apart as soon as the boxes of their components, of non-negative
    width and height, are separated by a gap of 85 or more from left to
    right or of 70 or more from top to bottom; nothing is asked of the
    canvas bounds.  A distance between the centers of the boxes, however
    large, gives no such guarantee. *)
Theorem separated_boxes_get_separated_labels (svg_content : string)
    (components : list component) (start_number increment : Z)
    (add_leader_lines : bool) (out : string) (lbls : list label)
    (i j : nat) (li lj : label) (ci cj : component)
    (xi yi wi hi xj yj wj hj : Z) :
  place_labels_on_svg fromstring tostring svg_content components
    start_number increment add_leader_lines = Some (out, lbls) ->
  nth_error (_sort_components_by_importance components) i = Some ci ->
  nth_error (_sort_components_by_importance components) j = Some cj ->
  nth_error lbls i = Some li -> nth_error lbls j = Some lj ->
  c_bbox ci = (xi, yi, wi, hi) -> c_bbox cj = (xj, yj, wj, hj) ->
  0 <= wi -> 0 <= hi -> 0 <= wj -> 0 <= hj ->
  xi + wi + 85 <= xj \/ xj + wj + 85 <= xi \/
  yi + hi + 70 <= yj \/ yj + hj + 70 <= yi ->
  component_id li = c_id ci /\ component_id lj = c_id cj /\
  625 <= (fst (position li) - fst (position lj)) ^ 2
         + (snd (position li) - snd (position lj)) ^ 2.
Proof.
  intros Hrun Hci Hcj Hi Hj Hbi Hbj Hwi Hhi Hwj Hhj Hgap.
  destruct (place_labels_success _ _ _ _ _ _ _ _ _ Hrun)
    as (root & width & height & ess & _ & _ & _ & Hsteps & _).
  destruct (steps_nth _ _ _ _ _ _ _ _ _ Hsteps i li Hi)
    as (c1 & es1 & Hc1 & _ & _ & Hid1 & Hpos1 & _).
  destruct (steps_nth _ _ _ _ _ _ _ _ _ Hsteps j lj Hj)
    as (c2 & es2 & Hc2 & _ & _ & Hid2 & Hpos2 & _).
  assert (c1 = ci) by congruence. assert (c2 = cj) by congruence.
  subst c1 c2. split; [exact Hid1|]. split; [exact Hid2|].
  pose proof (label_position_in_candidates (c_bbox ci)
                (_calculate_center (c_bbox ci))
                ([] ++ map position (firstn i lbls)) (width, height))
    as Hin1.
  pose proof (label_position_in_candidates (c_bbox cj)
                (_calculate_center (c_bbox cj))
                ([] ++ map position (firstn j lbls)) (width, height))
    as Hin2.
  rewrite <- Hpos1, Hbi in Hin1. rewrite <- Hpos2, Hbj in Hin2.
  apply candidate_near_box in Hin1; [|assumption|assumption].
  apply candidate_near_box in Hin2; [|assumption|assumption].
  pose proof (squares_nonneg (fst (position li) - fst (position lj))
                (snd (position li) - snd (position lj))) as Hnn.
  pose proof (Z.square_nonneg (fst (position li) - fst (position lj))).
  pose proof (Z.square_nonneg (snd (position li) - snd (position lj))).
  rewrite <- !Z.pow_2_r in *.
  destruct Hgap as [Hg | [Hg | [Hg | Hg]]].
  - pose proof (square_ge_625 (fst (position li) - fst (position lj))
                  ltac:(lia)). lia.
  - pose proof (square_ge_625 (fst (position li) - fst (position lj))
                  ltac:(lia)). lia.
  - pose proof (square_ge_625 (snd (position li) - snd (position lj))
                  ltac:(lia)). lia.
  - pose proof (square_ge_625 (snd (position li) - snd (position lj))
                  ltac:(lia)). lia.
Qed.
End Claims.
End AnnotationFacts.

(* ================================================================== *)
(** * Component detection *)
(* ================================================================== *)

Module DetectorFacts.
Import ComponentDetectorService.

Lemma load_attempts_app (log1 log2 : list event) :
  load_attempts (log1 ++ log2) = (load_attempts log1 + load_attempts log2)%nat.
Proof. unfold load_attempts. now rewrite filter_app, length_app. Qed.

Section Facts.
Variable image : Type.
Variable decode_rgb : list Byte.byte -> option image.
Variable sam2_loader : nat -> load_outcome (generator image).
Variable cv2 : option (image -> list contour).

Lemma lazy_load_failure (self : detector image) (log : list event) :
  _initialized self = false ->
  load_fails image sam2_loader (load_attempts log) ->
  _lazy_load_model image sam2_loader self log =
    (mkDetector false (mask_generator self), log ++ [LoadAttempt false]).
Proof.
  intros Hi Hf. unfold _lazy_load_model. rewrite Hi.
  now destruct Hf as [-> | ->].
Qed.

(** A call on an instance that is not initialized and whose load attempt
    fails: one attempt, then the fallback. *)
Lemma detect_after_failed_load (self : detector image) (log : list event)
    (image_bytes : list Byte.byte) (img : image)
    (min_area max_components : Z) :
  decode_rgb image_bytes = Some img ->
  _initialized self = false ->
  load_fails image sam2_loader (load_attempts log) ->
  exists result,
    detect_components image decode_rgb sam2_loader cv2 self log image_bytes
      min_area max_components =
    (mkDetector false (mask_generator self),
     log ++ [LoadAttempt false; DetectedWithFallback], result).
Proof.
  intros Hd Hi Hf. unfold detect_components.
  rewrite Hd, (lazy_load_failure _ _ Hi Hf). cbn [_initialized].
  rewrite <- app_assoc. cbn [app].
  destruct (_detect_with_fallback image cv2 img min_area);
    eexists; reflexivity.
Qed.

(** A call on an initialized instance attempts no load. *)
Lemma detect_when_initialized (self : detector image) (log : list event)
    (image_bytes : list Byte.byte) (min_area max_components : Z) :
  _initialized self = true ->
  let '(self', log', _) :=
    detect_components image decode_rgb sam2_loader cv2 self log image_bytes
      min_area max_components in
  self' = self /\ load_attempts log' = load_attempts log.
Proof.
  intros Hi. unfold detect_components.
  destruct (decode_rgb image_bytes) as [img|]; [|simpl; split; reflexivity].
  unfold _lazy_load_model. rewrite Hi. cbv beta iota. rewrite Hi.
  destruct (mask_generator self) as [g|]; [|simpl; split; reflexivity].
  destruct (_detect_with_sam2 image g img min_area);
    cbv beta iota; (split; [reflexivity|]);
    rewrite load_attempts_app;
    change (load_attempts [DetectedWithSam2]) with 0%nat; lia.
Qed.

(** C4 (as the code has it). A failed load is not remembered: on an
    instance that is not initialized, as long as loading fails whenever it
    is tried, every call on a decodable image attempts the load again and
    then uses the fallback; the instance stays uninitialized.  After any
    number of such calls the log holds one more load attempt and one more
    fallback detection per call, and no detection by the primary model. *)
Theorem failed_load_is_retried_on_every_call
    (images : list (list Byte.byte)) (self : detector image)
    (log : list event) :
  _initialized self = false ->
  (forall n, load_fails image sam2_loader n) ->
  Forall (fun image_bytes => decode_rgb image_bytes <> None) images ->
  let '(self', log') :=
    detect_all image decode_rgb sam2_loader cv2 self log images in
  _initialized self' = false /\
  load_attempts log' = (load_attempts log + List.length images)%nat /\
  List.length (filter is_fallback log') =
    (List.length (filter is_fallback log) + List.length images)%nat /\
  filter is_sam2 log' = filter is_sam2 log.
Proof.
  intros Hi Hf Hdec. revert self log Hi.
  induction Hdec as [|image_bytes images Hd _ IH]; intros self log Hi.
  - simpl. repeat split; auto.
  - simpl.
    destruct (decode_rgb image_bytes) as [img|] eqn:Ed; [|contradiction].
    destruct (detect_after_failed_load self log image_bytes img 100 50
                Ed Hi (Hf _)) as (result & ->).
    specialize (IH (mkDetector false (mask_generator self))
                  (log ++ [LoadAttempt false; DetectedWithFallback])
                  eq_refl).
    destruct (detect_all _ _ _ _ _ _ images) as [self' log'].
    destruct IH as (H1 & H2 & H3 & H4).
    split; [exact H1|].
    rewrite H2, H3, H4, load_attempts_app, !filter_app, length_app.
    change (load_attempts [LoadAttempt false; DetectedWithFallback])
      with 1%nat.
    cbn [filter is_fallback is_sam2 List.length].
    rewrite app_nil_r. repeat split; lia.
Qed.

(** C10. On an instance whose model is not loaded, when the load attempt
    fails and OpenCV cannot be imported either, a call on any decodable
    image returns the empty list. *)
Theorem no_detector_available_returns_empty (self : detector image)
    (log : list event) (image_bytes : list Byte.byte) (img : image)
    (min_area max_components : Z) :
  decode_rgb image_bytes = Some img ->
  _initialized self = false ->
  load_fails image sam2_loader (load_attempts log) ->
  snd (detect_components image decode_rgb sam2_loader None self log
         image_bytes min_area max_components) = Some [].
Proof.
  intros Hd Hi Hf. unfold detect_components.
  rewrite Hd, (lazy_load_failure _ _ Hi Hf). cbn [_initialized].
  cbn [_detect_with_fallback snd]. unfold Py.slice_to. simpl.
  destruct (0 <=? max_components); now rewrite firstn_nil.
Qed.
End Facts.
End DetectorFacts.

(* ================================================================== *)
(** * SVG pretty-printing *)
(* ================================================================== *)

Module IndentFacts.
Import VectorizationService.

Lemma all_space_app (s t : string) :
  all_space (s ++ t) = all_space s && all_space t.
Proof.
  induction s as [|c s IH]; simpl; [reflexivity|].
  now rewrite IH, andb_assoc.
Qed.

Lemma all_space_spaces (level : nat) : all_space (spaces level) = true.
Proof. induction level as [|n IH]; [reflexivity|]. simpl. exact IH. Qed.

Lemma all_space_lstrip (s : string) :
  all_space s = true -> Py.lstrip s = EmptyString.
Proof.
  induction s as [|c s IH]; simpl; [reflexivity|].
  intros H. apply andb_prop in H as [-> H]. now apply IH.
Qed.

Lemma all_space_blank (s : string) : all_space s = true -> blank (Some s) = true.
Proof.
  intros H. unfold blank, Py.strip. rewrite (all_space_lstrip s H).
  simpl. apply orb_true_r.
Qed.

Lemma blank_indent (level : nat) : blank (Some (indent_of level)) = true.
Proof.
  apply all_space_blank. unfold indent_of.
  now rewrite all_space_app, all_space_spaces.
Qed.

Lemma blank_indent_text (level : nat) :
  blank (Some (indent_of level ++ "  ")%string) = true.
Proof.
  apply all_space_blank. unfold indent_of.
  now rewrite !all_space_app, all_space_spaces.
Qed.

Lemma indent_xml_eq (tg : string) (a : list (string * string))
    (tx tl : option string) (ch : list ET.element) (level : nat) :
  _indent_xml (ET.Element tg a tx tl ch) level =
    match ch with
    | [] =>
        if negb (Nat.eqb level 0) && blank tl
        then ET.Element tg a tx (Some (indent_of level)) []
        else ET.Element tg a tx tl []
    | _ :: _ =>
        ET.Element tg a
          (if blank tx then Some (indent_of level ++ "  ")%string else tx)
          (if blank tl then Some (indent_of level) else tl)
          (set_last_tail (indent_of level)
             (map (fun child => _indent_xml child (S level)) ch))
    end.
Proof. destruct ch; reflexivity. Qed.

(** Below the root, indenting an element whose tail was replaced sets the
    tail as it would for any blank or non-blank tail. *)
Lemma indent_xml_set_tail (e : ET.element) (t : option string) (level : nat) :
  _indent_xml (ET.set_tail e t) (S level) =
    ET.set_tail (_indent_xml e (S level))
      (if blank t then Some (indent_of (S level)) else t).
Proof.
  destruct e as [tg a tx tl ch]. unfold ET.set_tail at 1.
  rewrite !indent_xml_eq. destruct ch as [|c r].
  - cbn [Nat.eqb negb andb]. destruct (blank t), (blank tl); reflexivity.
  - destruct (blank t); reflexivity.
Qed.

Lemma set_tail_set_tail (e : ET.element) (s t : option string) :
  ET.set_tail (ET.set_tail e s) t = ET.set_tail e t.
Proof. now destruct e. Qed.

Lemma tail_set_tail (e : ET.element) (t : option string) :
  ET.tail (ET.set_tail e t) = t.
Proof. now destruct e. Qed.

Lemma set_last_tail_cons (indent : string) (c d : ET.element)
    (r : list ET.element) :
  set_last_tail indent (c :: d :: r) = c :: set_last_tail indent (d :: r).
Proof. reflexivity. Qed.

Lemma set_last_tail_nonempty (indent : string) (l : list ET.element) :
  l <> [] -> set_last_tail indent l <> [].
Proof. destruct l as [|c [|d r]]; simpl; congruence. Qed.

(** Indenting the children again after the tail of the last one was set
    changes nothing, when indenting each child twice is indenting it once. *)
Lemma indent_children_twice (level : nat) (ch : list ET.element) :
  Forall (fun c => forall lv, _indent_xml (_indent_xml c lv) lv
                              = _indent_xml c lv) ch ->
  let f := fun child => _indent_xml child (S level) in
  let g := set_last_tail (indent_of level) in
  g (map f (g (map f ch))) = g (map f ch).
Proof.
  intros Hch f g. induction Hch as [|c r Hc Hr IH]; [reflexivity|].
  destruct r as [|d r].
  - cbn [map]. unfold g at 2. cbn [set_last_tail].
    destruct (blank (ET.tail (f c))) eqn:Eb.
    + cbn [map]. unfold f at 1. rewrite indent_xml_set_tail.
      fold (f c). rewrite blank_indent.
      unfold g. cbn [set_last_tail].
      rewrite tail_set_tail, blank_indent.
      unfold f at 1. rewrite Hc. fold (f c).
      now rewrite Eb, set_tail_set_tail.
    + cbn [map]. unfold f at 1. unfold f at 1. rewrite Hc. fold (f c).
      unfold g. cbn [set_last_tail]. now rewrite Eb.
  - cbn [map] in *. unfold g at 2. rewrite set_last_tail_cons.
    fold g. cbn [map].
    assert (Hne : map f (g (f d :: map f r)) <> []).
    { intros E. apply map_eq_nil in E.
      revert E. apply set_last_tail_nonempty. discriminate. }
    destruct (map f (g (f d :: map f r))) as [|x xs] eqn:Ex; [congruence|].
    unfold g at 1. rewrite set_last_tail_cons. fold g.
    rewrite IH. unfold g at 2. rewrite set_last_tail_cons. fold g.
    unfold f at 1. unfold f at 1. rewrite Hc. reflexivity.
Qed.

(** The pretty-printing pass is idempotent on trees, at every level. *)
Lemma indent_xml_idempotent (e : ET.element) :
  forall level,
    _indent_xml (_indent_xml e level) level = _indent_xml e level.
Proof.
  induction e as [tg a tx tl ch IH] using ET.element_children_ind. intros level.
  rewrite (indent_xml_eq tg a tx tl ch). destruct ch as [|c r].
  - destruct (negb (Nat.eqb level 0) && blank tl) eqn:E;
      rewrite indent_xml_eq.
    + apply andb_prop in E as [-> _]. now rewrite blank_indent.
    + now rewrite E.
  - set (ch' := set_last_tail (indent_of level)
                  (map (fun child => _indent_xml child (S level)) (c :: r))).
    assert (Hne : ch' <> []) by (apply set_last_tail_nonempty; discriminate).
    rewrite indent_xml_eq.
    destruct ch' as [|x xs] eqn:Ech; [congruence|]. rewrite <- Ech.
    f_equal.
    + destruct (blank tx) eqn:Eb; [now rewrite blank_indent_text | now rewrite Eb].
    + destruct (blank tl) eqn:Eb; [now rewrite blank_indent | now rewrite Eb].
    + subst ch'. apply (indent_children_twice level (c :: r) IH).
Qed.

Section RoundTrip.
Variable fromstring : string -> option ET.element.
Variable tostring : ET.element -> string.

(** Two properties of a parser and a serializer that agree with each
    other: a parsed root has no tail, and parsing the serialization of a
    tree gives the tree back, without the tail of its root. *)
Hypothesis parsed_root_has_no_tail :
  forall s root, fromstring s = Some root -> ET.tail root = None.
Hypothesis parse_of_print :
  forall t, fromstring (tostring t) = Some (ET.set_tail t None).

Lemma indent_root_again (root : ET.element) :
  ET.tail root = None ->
  _indent_xml (ET.set_tail (_indent_xml root 0) None) 0 = _indent_xml root 0.
Proof.
  intros Ht. destruct root as [tg a tx tl ch]. simpl in Ht. subst tl.
  destruct ch as [|c r]; [reflexivity|].
  pose proof (indent_xml_idempotent (ET.Element tg a tx None (c :: r)) 0)
    as Hidem.
  rewrite (indent_xml_eq tg a tx None (c :: r)) in *.
  cbn [blank] in *.
  set (tx' := if blank tx then _ else tx) in *.
  set (ch' := set_last_tail _ _) in *.
  assert (Hne : ch' <> []) by (apply set_last_tail_nonempty; discriminate).
  cbn [ET.set_tail]. rewrite indent_xml_eq in *.
  destruct ch' as [|x xs]; [congruence|].
  cbn [blank]. now rewrite blank_indent in Hidem.
Qed.

(** Without scour, and with a parser and a serializer as above, optimizing
    an optimized document returns it unchanged. *)
Lemma basic_optimization_idempotent (svg_content optimized : string) :
  optimize_svg fromstring tostring None svg_content = Some optimized ->
  optimize_svg fromstring tostring None optimized = Some optimized.
Proof.
  unfold optimize_svg, _basic_svg_optimization.
  destruct (fromstring svg_content) as [root|] eqn:Ep; [|discriminate].
  intros [= <-]. rewrite parse_of_print.
  now rewrite (indent_root_again root (parsed_root_has_no_tail _ _ Ep)).
Qed.
End RoundTrip.
End IndentFacts.

(* ================================================================== *)
(** * The examples *)
(* ================================================================== *)

Module Examples.
Import AnnotationService ComponentDetectorService Samples.
Import AnnotationSpec PlacementFacts LoopFacts AnnotationFacts DetectorFacts.

(** The two thresholds on distances, at points where the distance is an
    integer: 25 is not below 25 and 30 is not above 30. *)
Lemma distance_thresholds :
  Py.float_lt_int (_distance (0, 0) (15, 20)) 25 = false /\
  Py.float_lt_int (_distance (0, 0) (15, 19)) 25 = true /\
  Py.float_gt_int (_distance (0, 0) (18, 24)) 30 = false /\
  Py.float_gt_int (_distance (0, 0) (18, 25)) 30 = true.
Proof. repeat split; reflexivity. Qed.


(** The two squares of the end-to-end scenario get one label each. *)
Lemma one_label_per_component_witness :
  place_labels_on_svg fromstring tostring svg_800x600 two_squares 10 10 true
  = Some (fst two_squares_out, snd two_squares_out) /\
  List.length (snd two_squares_out) = List.length two_squares /\
  map component_id (snd two_squares_out) = [1; 0].
Proof.
  assert (Hrun : place_labels_on_svg fromstring tostring svg_800x600
                   two_squares 10 10 true
                 = Some (fst two_squares_out, snd two_squares_out))
    by (vm_compute; reflexivity).
  split; [exact Hrun|].
  destruct (one_label_per_component fromstring tostring svg_800x600
              two_squares 10 10 true _ _ Hrun) as (Hlen & _ & _).
  split; [exact Hlen | reflexivity].
Defined.

(** The larger square is ranked first and gets 10, the smaller one 20. *)
Lemma labels_numbered_along_importance_order_witness :
  place_labels_on_svg fromstring tostring svg_800x600 two_squares 10 10 true
  = Some (fst two_squares_out, snd two_squares_out) /\
  1 <= 10 /\
  Forall (fun c => is_nan (importance_score c) = false) two_squares /\
  _sort_components_by_importance two_squares = [square_60; square_40] /\
  StronglySorted
    (fun a b => (importance_score a <? importance_score b)%float = false)
    (_sort_components_by_importance two_squares) /\
  map number (snd two_squares_out) = [10; 20] /\
  (forall i j li lj, (i < j)%nat ->
     nth_error (snd two_squares_out) i = Some li ->
     nth_error (snd two_squares_out) j = Some lj -> number li < number lj).
Proof.
  assert (Hrun : place_labels_on_svg fromstring tostring svg_800x600
                   two_squares 10 10 true
                 = Some (fst two_squares_out, snd two_squares_out))
    by (vm_compute; reflexivity).
  assert (Hinc : 1 <= 10) by lia.
  assert (Hnan : Forall (fun c => is_nan (importance_score c) = false)
                   two_squares)
    by (repeat constructor).
  destruct (labels_numbered_along_importance_order fromstring tostring
              svg_800x600 two_squares 10 10 true _ _ Hrun)
    as (_ & _ & _ & Hstrong & _ & Hlt & _).
  split; [exact Hrun|]. split; [exact Hinc|]. split; [exact Hnan|].
  split; [reflexivity|]. split; [exact (Hstrong Hnan)|].
  split; [reflexivity | exact (Hlt Hinc)].
Defined.

(** The label of the 50x60 box is 50 away from the center: it gets a
    leader line, which ends between 12.5 and 15.4 from the label. *)
Lemma leader_line_iff_far_from_center_witness :
  place_labels_on_svg fromstring tostring svg_800x600 [box_50x60] 10 10 true
  = Some (fst box_50x60_out, snd box_50x60_out) /\
  exists root ess,
    parse_svg fromstring svg_800x600 = Some root /\
    fst box_50x60_out =
      tostring
        (ET.Element (ET.tag root) (ET.attrib root) (ET.text root)
           (ET.tail root) (ET.children root ++ List.concat ess)) /\
    List.length ess = List.length (snd box_50x60_out) /\
    forall k l, nth_error (snd box_50x60_out) k = Some l ->
      exists comp es x y w h,
        nth_error (_sort_components_by_importance [box_50x60]) k
          = Some comp /\
        c_bbox comp = (x, y, w, h) /\
        nth_error ess k = Some es /\
        let cx := x + w / 2 in
        let cy := y + h / 2 in
        let px := fst (position l) in
        let py := snd (position l) in
        let group :=
          ET.Element "g" [("class", "patent-label")] None None
                [ ET.Element "circle"
                    [ ("cx", Py.str px); ("cy", Py.str py); ("r", "12");
                      ("fill", "white"); ("stroke", "black");
                      ("stroke-width", "1.5") ] None None [];
                  ET.Element "text"
                    [ ("x", Py.str px); ("y", Py.str (py + 5));
                      ("font-family", "Arial, sans-serif");
                      ("font-size", "14"); ("font-weight", "bold");
                      ("fill", "black"); ("text-anchor", "middle");
                      ("dominant-baseline", "middle") ]
                    (Some (Py.str (number l))) None [] ] in
        has_leader_line l =
          true && (900 <? (px - cx) ^ 2 + (py - cy) ^ 2) /\
        (has_leader_line l = false -> es = [group]) /\
        (has_leader_line l = true ->
         exists x2 y2,
           leader_end (cx, cy) (px, py) = Some (x2, y2) /\
           es = [ group;
                  ET.Element "line"
                    [ ("x1", Py.str cx); ("y1", Py.str cy);
                      ("x2", Py.str x2); ("y2", Py.str y2);
                      ("stroke", "black"); ("stroke-width", "1");
                      ("stroke-dasharray", "3,3");
                      ("class", "leader-line") ] None None [] ] /\
           (Z.abs cx <= 2 ^ 20 -> Z.abs cy <= 2 ^ 20 ->
            Z.abs px <= 2 ^ 20 -> Z.abs py <= 2 ^ 20 ->
            157 <= (x2 - px) ^ 2 + (y2 - py) ^ 2 <= 237)).
Proof.
  assert (Hrun : place_labels_on_svg fromstring tostring svg_800x600
                   [box_50x60] 10 10 true
                 = Some (fst box_50x60_out, snd box_50x60_out))
    by (vm_compute; reflexivity).
  split; [exact Hrun|].
  exact (leader_line_iff_far_from_center fromstring tostring svg_800x600
           [box_50x60] 10 10 true _ _ Hrun).
Defined.

(** C5, as stated, fails.  The 50x60 box at (100, 100) has its center at
    (125, 130) and its label at (165, 100), at distance 50: the leader line
    is drawn and ends at (153, 108), where shortening by the radius alone
    would end it at (155, 107).  The end lies at squared distance 208 from
    the center of the label circle, beyond the radius 12 by more than a
    rounding of the coordinates explains. *)
Lemma leader_line_ends_outside_label_circle :
  place_labels_on_svg fromstring tostring svg_800x600 [box_50x60] 10 10 true
  = Some box_50x60_out /\
  map position (snd box_50x60_out) = [(165, 100)] /\
  map has_leader_line (snd box_50x60_out) = [true] /\
  _calculate_center (c_bbox box_50x60) = (125, 130) /\
  leader_end (125, 130) (165, 100) = Some (153, 108) /\
  leader_end_on_circle (125, 130) (165, 100) = Some (155, 107) /\
  (165 - 153) ^ 2 + (100 - 108) ^ 2 = 208 /\
  (circle_radius + 2) ^ 2 < 208.
Proof. vm_compute. repeat split; reflexivity || discriminate. Qed.

(** C8, as stated, fails.  The parser rejects the drawing whose root binds
    the default namespace to the reserved namespace of the [xml] prefix, so
    the call parses the text with [xmlns=] rewritten to [xmlnamespace=]:
    the root of the output carries an attribute [xmlnamespace] that the
    input does not have, in place of the namespace declaration of the
    input, next to the group and the line of the label. *)
Lemma annotate_rewrites_namespace_declaration :
  fromstring_ns ns_doc = None /\
  Py.replace ns_doc "xmlns=" "xmlnamespace=" = ns_doc_renamed /\
  ns_doc_renamed <> ns_doc /\
  fromstring_ns ns_doc_renamed = Some ns_root /\
  ET.get ns_root "xmlns" = None /\
  ET.get ns_root "xmlnamespace" = Some ns_uri /\
  place_labels_on_svg fromstring_ns tostring ns_doc [box_50x60] 10 10 true
  = Some ns_out /\
  fst ns_out =
    tostring
      (ET.Element "svg"
         [("xmlnamespace", ns_uri); ("width", "800"); ("height", "600")]
         None None
         [label_group 10 (165, 100); leader_line (125, 130) (153, 108)]).
Proof. vm_compute. repeat split; reflexivity || discriminate. Qed.

(** The output for the rejected drawing is the tree of the rewritten text
    with the elements of the label appended. *)
Lemma annotate_appends_to_parsed_tree_witness :
  place_labels_on_svg fromstring_ns tostring ns_doc [box_50x60] 10 10 true
  = Some (fst ns_out, snd ns_out) /\
  exists root ess,
    (fromstring_ns ns_doc = Some root \/
     (fromstring_ns ns_doc = None /\
      fromstring_ns (Py.replace ns_doc "xmlns=" "xmlnamespace=")
      = Some root)) /\
    fst ns_out =
      tostring
        (ET.Element (ET.tag root) (ET.attrib root) (ET.text root)
           (ET.tail root) (ET.children root ++ List.concat ess)) /\
    Forall2
      (fun l es =>
         let px := fst (position l) in
         let py := snd (position l) in
         let group :=
           ET.Element "g" [("class", "patent-label")] None None
                [ ET.Element "circle"
                    [ ("cx", Py.str px); ("cy", Py.str py); ("r", "12");
                      ("fill", "white"); ("stroke", "black");
                      ("stroke-width", "1.5") ] None None [];
                  ET.Element "text"
                    [ ("x", Py.str px); ("y", Py.str (py + 5));
                      ("font-family", "Arial, sans-serif");
                      ("font-size", "14"); ("font-weight", "bold");
                      ("fill", "black"); ("text-anchor", "middle");
                      ("dominant-baseline", "middle") ]
                    (Some (Py.str (number l))) None [] ] in
         (has_leader_line l = false /\ es = [group]) \/
         (has_leader_line l = true /\
          exists x1 y1 x2 y2,
            es = [ group;
                   ET.Element "line"
                     [ ("x1", Py.str x1); ("y1", Py.str y1);
                       ("x2", Py.str x2); ("y2", Py.str y2);
                       ("stroke", "black"); ("stroke-width", "1");
                       ("stroke-dasharray", "3,3");
                       ("class", "leader-line") ] None None [] ]))
      (snd ns_out) ess.
Proof.
  assert (Hrun : place_labels_on_svg fromstring_ns tostring ns_doc
                   [box_50x60] 10 10 true
                 = Some (fst ns_out, snd ns_out))
    by (vm_compute; reflexivity).
  split; [exact Hrun|].
  exact (annotate_appends_to_parsed_tree fromstring_ns tostring ns_doc
           [box_50x60] 10 10 true _ _ Hrun).
Defined.

(** The two squares are 310 apart from left to right: their labels, at
    (475, 300) and (105, 50), are more than 25 apart. *)
Lemma separated_boxes_get_separated_labels_witness :
  place_labels_on_svg fromstring tostring svg_800x600 two_squares 10 10 true
  = Some (fst two_squares_out, snd two_squares_out) /\
  nth_error (_sort_components_by_importance two_squares) 0
  = Some square_60 /\
  nth_error (_sort_components_by_importance two_squares) 1
  = Some square_40 /\
  nth_error (snd two_squares_out) 0 = Some (mkLabel 10 (475, 300) 1 true) /\
  nth_error (snd two_squares_out) 1 = Some (mkLabel 20 (105, 50) 0 true) /\
  c_bbox square_60 = (400, 300, 60, 60) /\
  c_bbox square_40 = (50, 50, 40, 40) /\
  0 <= 60 /\ 0 <= 40 /\
  (400 + 60 + 85 <= 50 \/ 50 + 40 + 85 <= 400 \/
   300 + 60 + 70 <= 50 \/ 50 + 40 + 70 <= 300) /\
  component_id (mkLabel 10 (475, 300) 1 true) = c_id square_60 /\
  component_id (mkLabel 20 (105, 50) 0 true) = c_id square_40 /\
  625 <= (475 - 105) ^ 2 + (300 - 50) ^ 2.
Proof.
  assert (Hrun : place_labels_on_svg fromstring tostring svg_800x600
                   two_squares 10 10 true
                 = Some (fst two_squares_out, snd two_squares_out))
    by (vm_compute; reflexivity).
  assert (H60 : 0 <= 60) by lia.
  assert (H40 : 0 <= 40) by lia.
  assert (Hgap : 400 + 60 + 85 <= 50 \/ 50 + 40 + 85 <= 400 \/
                 300 + 60 + 70 <= 50 \/ 50 + 40 + 70 <= 300)
    by (right; left; lia).
  do 10 (split; [first [exact Hrun | reflexivity | assumption]|]).
  exact (separated_boxes_get_separated_labels fromstring tostring
           svg_800x600 two_squares 10 10 true _ _ 0 1
           (mkLabel 10 (475, 300) 1 true) (mkLabel 20 (105, 50) 0 true)
           square_60 square_40 400 300 60 60 50 50 40 40
           Hrun eq_refl eq_refl eq_refl eq_refl eq_refl eq_refl
           H60 H60 H40 H40 Hgap).
Defined.

(** C9, as stated, fails.  On the 400x50 drawing the centers of the two
    bars, (310, 32) and (100, 25), are about 210 apart, more than
    2 * (25 + 30); each bar has a candidate within the canvas margins, the
    point (215, 20) for both; and both labels are put on that point, at
    distance 0 from each other. *)
Lemma far_apart_components_get_the_same_label_position :
  place_labels_on_svg fromstring tostring svg_400x50 two_bars 10 10 true
  = Some two_bars_out /\
  _sort_components_by_importance two_bars = [bar_right; bar_left] /\
  map position (snd two_bars_out) = [(215, 20); (215, 20)] /\
  map component_id (snd two_bars_out) = [c_id bar_right; c_id bar_left] /\
  _calculate_center (c_bbox bar_right) = (310, 32) /\
  _calculate_center (c_bbox bar_left) = (100, 25) /\
  (2 * (25 + 30)) ^ 2 < (310 - 100) ^ 2 + (32 - 25) ^ 2 /\
  nth_error (candidates (c_bbox bar_right)) 2 = Some (215, 20) /\
  nth_error (candidates (c_bbox bar_left)) 0 = Some (215, 20) /\
  in_bounds (400, 50) (215, 20) = true /\
  Py.float_lt_int (_distance (215, 20) (215, 20)) 25 = true.
Proof. vm_compute. repeat split; reflexivity. Qed.

(** Without sam2 and without OpenCV, two calls on a fresh instance make two
    load attempts. *)
Lemma failed_load_is_retried_on_every_call_witness :
  _initialized (init (image := unit)) = false /\
  (forall n, load_fails unit no_sam2 n) /\
  Forall (fun image_bytes => decode_any image_bytes <> None) [[]; []] /\
  load_attempts
    (snd (detect_all unit decode_any no_sam2 None init [] [[]; []])) = 2%nat.
Proof.
  assert (Hi : _initialized (init (image := unit)) = false) by reflexivity.
  assert (Hf : forall n, load_fails unit no_sam2 n)
    by (intros n; left; reflexivity).
  assert (Hd : Forall (fun image_bytes => decode_any image_bytes <> None)
                 [[]; []])
    by (repeat constructor; discriminate).
  split; [exact Hi|]. split; [exact Hf|]. split; [exact Hd|].
  pose proof (failed_load_is_retried_on_every_call unit decode_any no_sam2
                None [[]; []] init [] Hi Hf Hd) as H.
  destruct (detect_all unit decode_any no_sam2 None init [] [[]; []])
    as [self' log'].
  destruct H as (_ & H & _). exact H.
Defined.

(** C4, as stated, fails.  Where sam2 cannot be imported, the second call on
    an instance attempts the load again; and where the model loads at the
    second attempt, the second call detects with the primary model. *)
Lemma second_call_attempts_the_load_again :
  detect_components unit decode_any no_sam2 None init [] [] 100 50
  = (mkDetector false None, [LoadAttempt false; DetectedWithFallback],
     Some []) /\
  detect_components unit decode_any no_sam2 None (mkDetector false None)
    [LoadAttempt false; DetectedWithFallback] [] 100 50
  = (mkDetector false None,
     [LoadAttempt false; DetectedWithFallback;
      LoadAttempt false; DetectedWithFallback], Some []) /\
  load_attempts [LoadAttempt false; DetectedWithFallback;
                 LoadAttempt false; DetectedWithFallback] = 2%nat /\
  snd (detect_all unit decode_any late_sam2 None init [] [[]; []])
  = [LoadAttempt false; DetectedWithFallback;
     LoadAttempt true; DetectedWithSam2].
Proof. repeat split; reflexivity. Qed.

(** Without sam2 and without OpenCV a call returns the empty list. *)
Lemma no_detector_available_returns_empty_witness :
  decode_any [] = Some tt /\
  _initialized (init (image := unit)) = false /\
  load_fails unit no_sam2 (load_attempts []) /\
  snd (detect_components unit decode_any no_sam2 None init [] [] 100 50)
  = Some [].
Proof.
  assert (Hd : decode_any [] = Some tt) by reflexivity.
  assert (Hi : _initialized (init (image := unit)) = false) by reflexivity.
  assert (Hf : load_fails unit no_sam2 (load_attempts []))
    by (left; reflexivity).
  split; [exact Hd|]. split; [exact Hi|]. split; [exact Hf|].
  exact (no_detector_available_returns_empty unit decode_any no_sam2 init []
           [] tt 100 50 Hd Hi Hf).
Defined.

End Examples.

(* ================================================================== *)
(** * Further properties: ranking and geometry *)
(* ================================================================== *)

Module RankingFacts.
Import AnnotationService AnnotationSpec FloatOrder.

Section Generic.
Context {A K : Type}.
Variable lt : K -> K -> bool.
Variable key : A -> K.

(** A list whose neighbours are in descending order is its own sorted
    list. *)
Lemma sorted_reverse_fixed (l : list A) :
  Sorted (Py.not_below lt key) l -> Py.sorted_reverse lt key l = l.
Proof.
  induction 1 as [|x l Hs IH Hhd]; [reflexivity|].
  simpl. rewrite IH. destruct Hhd as [|y l' Hxy]; [reflexivity|].
  simpl. unfold Py.not_below in Hxy. now rewrite Hxy.
Qed.

Hypothesis lt_asym : forall a b, lt a b = true -> lt b a = false.
Hypothesis lt_trans :
  forall a b c, lt a b = true -> lt b c = true -> lt a c = true.

(** [a] stands strictly above [b]. *)
Let above (a b : A) : Prop := lt (key b) (key a) = true.

Lemma insert_desc_strict (x : A) (l : list A) :
  Forall (fun z => above x z \/ above z x) l ->
  StronglySorted above l ->
  StronglySorted above (Py.insert_desc lt key x l).
Proof.
  intros Hcmp Hs. induction Hs as [|y l Hs IH Hall]; simpl.
  - repeat constructor.
  - inversion Hcmp as [|? ? Hy Hl]; subst.
    destruct (lt (key x) (key y)) eqn:E.
    + constructor; [now apply IH|].
      eapply Permutation_Forall; [apply SortFacts.insert_desc_perm|].
      constructor; [exact E | exact Hall].
    + constructor; [now constructor|].
      assert (Hxy : above x y).
      { destruct Hy as [Hy | Hy]; [exact Hy|]. unfold above in Hy.
        congruence. }
      constructor; [exact Hxy|].
      eapply Forall_impl; [|exact Hall].
      intros z Hyz. unfold above in *. now apply lt_trans with (key y).
Qed.

(** Without ties the sorted list is strictly descending. *)
Lemma sorted_reverse_strict (xs : list A) :
  NoDup xs ->
  (forall a b, In a xs -> In b xs -> a <> b -> above a b \/ above b a) ->
  StronglySorted above (Py.sorted_reverse lt key xs).
Proof.
  induction xs as [|x xs IH]; intros Hnd Hcmp; simpl; [constructor|].
  inversion Hnd as [|? ? Hx Hnd']; subst.
  apply insert_desc_strict.
  - eapply Permutation_Forall; [apply SortFacts.sorted_reverse_perm|].
    rewrite Forall_forall. intros z Hz.
    apply Hcmp; [now left | now right | congruence].
  - apply IH; [exact Hnd'|].
    intros a b Ha Hb. apply Hcmp; now right.
Qed.

(** Two strictly descending lists with the same elements are equal. *)
Lemma strictly_descending_unique (l l' : list A) :
  StronglySorted above l -> StronglySorted above l' ->
  Permutation l l' -> l = l'.
Proof.
  intros Hs. revert l'. induction Hs as [|a t Hs IH Ha]; intros l' Hs' Hp.
  - now apply Permutation_nil in Hp.
  - destruct Hs' as [|a' t' Hs' Ha'].
    + apply Permutation_sym, Permutation_nil in Hp. discriminate.
    + assert (Heq : a = a').
      { assert (Hin : In a (a' :: t'))
          by (eapply Permutation_in; [exact Hp | now left]).
        assert (Hin' : In a' (a :: t))
          by (eapply Permutation_in;
              [apply Permutation_sym; exact Hp | now left]).
        destruct Hin as [E | Hin]; [now symmetry|].
        destruct Hin' as [E | Hin']; [exact E|].
        rewrite Forall_forall in Ha, Ha'.
        pose proof (Ha _ Hin') as H1. pose proof (Ha' _ Hin) as H2.
        unfold above in H1, H2. apply lt_asym in H1. congruence. }
      subst a'. f_equal. apply IH; [exact Hs'|].
      now apply Permutation_cons_inv with a.
Qed.

Lemma sorted_reverse_order_independent (xs ys : list A) :
  Permutation xs ys -> NoDup xs ->
  (forall a b, In a xs -> In b xs -> a <> b -> above a b \/ above b a) ->
  Py.sorted_reverse lt key xs = Py.sorted_reverse lt key ys.
Proof.
  intros Hp Hnd Hcmp. apply strictly_descending_unique.
  - now apply sorted_reverse_strict.
  - apply sorted_reverse_strict.
    + eapply Permutation_NoDup; eassumption.
    + intros a b Ha Hb. apply Hcmp;
        eapply Permutation_in; try apply Permutation_sym; eassumption.
  - rewrite <- (SortFacts.sorted_reverse_perm lt key xs).
    now rewrite <- (SortFacts.sorted_reverse_perm lt key ys).
Qed.
End Generic.

(** X1. Components given in descending order of importance (no component
    followed directly by one of strictly higher score) are ranked as given,
    ties included. *)
Theorem ranking_keeps_ranked_input (components : list component) :
  Sorted (fun a b =>
            (importance_score a <? importance_score b)%float = false)
    components ->
  _sort_components_by_importance components = components.
Proof. apply sorted_reverse_fixed. Qed.

(** X22. Ranking is idempotent: ranking a ranked list changes nothing,
    whatever scores the components have (equal or not-a-number included). *)
Theorem ranking_is_idempotent (components : list component) :
  _sort_components_by_importance (_sort_components_by_importance components)
  = _sort_components_by_importance components.
Proof.
  apply sorted_reverse_fixed, SortFacts.sorted_reverse_sorted.
  exact ltb_asym.
Qed.

Section Place.
Variable fromstring : string -> option ET.element.
Variable tostring : ET.element -> string.

(** X2. When no component is listed twice and no two components have the
    same importance (of two different ones, one score is strictly below
    the other), the order in which the components are given does not
    matter: the ranking, and with it the whole result of the call, is the
    same for every arrangement of the list. *)
Theorem result_independent_of_input_order
    (svg_content : string) (components components' : list component)
    (start_number increment : Z) (add_leader_lines : bool) :
  Permutation components components' ->
  NoDup components ->
  (forall a b, In a components -> In b components -> a <> b ->
     (importance_score b <? importance_score a)%float = true \/
     (importance_score a <? importance_score b)%float = true) ->
  _sort_components_by_importance components
  = _sort_components_by_importance components' /\
  place_labels_on_svg fromstring tostring svg_content components
    start_number increment add_leader_lines
  = place_labels_on_svg fromstring tostring svg_content components'
      start_number increment add_leader_lines.
Proof.
  intros Hp Hnd Hcmp.
  assert (Hsort : _sort_components_by_importance components
                  = _sort_components_by_importance components').
  { apply sorted_reverse_order_independent; try assumption.
    - exact ltb_asym.
    - exact ltb_trans. }
  split; [exact Hsort|].
  unfold place_labels_on_svg, annotate_tree. now rewrite Hsort.
Qed.
End Place.
End RankingFacts.

Module GeometryFacts.
Import AnnotationService AnnotationSpec PlacementFacts LoopFacts.

(** Every candidate keeps clear of the box: 15 beyond its right or bottom
    edge, 45 before its left edge or 30 above its top edge. *)
Lemma candidate_beside_box (x y w h : Z) (p : position_t) :
  In p (candidates (x, y, w, h)) ->
  x + w + 15 <= fst p \/ fst p <= x - 45 \/
  snd p <= y - 30 \/ y + h + 15 <= snd p.
Proof.
  unfold candidates. cbv zeta. simpl.
  intros [<- | [<- | [<- | [<- | [<- | [<- | [<- | []]]]]]]]; simpl; lia.
Qed.

(** X3. Wherever a label is put, its circle of radius [circle_radius] does
    not touch the bounding box of its component: every point of the box is
    farther than the radius from the label position. *)
Theorem label_circle_misses_own_box (x y w h : Z) (center : position_t)
    (existing : list position_t) (image_bounds : Z * Z) (u v : Z) :
  x <= u <= x + w -> y <= v <= y + h ->
  let p := _calculate_label_position (x, y, w, h) center existing
             image_bounds in
  circle_radius ^ 2 < (u - fst p) ^ 2 + (v - snd p) ^ 2.
Proof.
  intros Hu Hv p.
  pose proof (label_position_in_candidates (x, y, w, h) center existing
                image_bounds) as Hin.
  apply candidate_beside_box in Hin. fold p in Hin.
  unfold circle_radius. destruct Hin as [H | [H | [H | H]]]; nia.
Qed.

Lemma scan_all_out_of_bounds (cands existing : list position_t)
    (image_bounds : Z * Z) :
  (forall pos, in_bounds image_bounds pos = false) ->
  scan_candidates cands existing image_bounds = None.
Proof.
  intros Hout. induction cands as [|c r IH]; [reflexivity|].
  rewrite scan_step, Hout. exact IH.
Qed.

(** X4. On a canvas narrower than 40 or lower than 25 no position passes the
    bound tests, so every label gets the right-top candidate of its box,
    whatever positions are already taken. *)
Theorem tight_canvas_gives_right_top (x y w h : Z) (center : position_t)
    (existing : list position_t) (width height : Z) :
  width < 40 \/ height < 25 ->
  _calculate_label_position (x, y, w, h) center existing (width, height)
  = (x + w + 15, y).
Proof.
  intros Htight. unfold _calculate_label_position.
  rewrite scan_all_out_of_bounds; [reflexivity|].
  intros [px py]. unfold in_bounds.
  destruct (px <? 10) eqn:E1; [reflexivity|].
  destruct (px >? width - 30) eqn:E2; [reflexivity|].
  destruct (py <? 15) eqn:E3; [now rewrite andb_false_r|].
  destruct (py >? height - 10) eqn:E4; [now rewrite andb_false_r|].
  rewrite Z.ltb_ge in E1, E3. rewrite Z.gtb_ltb, Z.ltb_ge in E2, E4. lia.
Qed.

(** X5. The center both services compute is the same point; for a box of
    non-negative size it lies in the box, at most half a pixel before the
    true middle in each direction. *)
Theorem center_lies_in_box (x y w h : Z) :
  0 <= w -> 0 <= h ->
  let c := _calculate_center (x, y, w, h) in
  ComponentDetectorService.calculate_component_center (x, y, w, h) = c /\
  x <= fst c <= x + w /\ y <= snd c <= y + h /\
  2 * fst c <= 2 * x + w <= 2 * fst c + 1 /\
  2 * snd c <= 2 * y + h <= 2 * snd c + 1.
Proof.
  intros Hw Hh. cbv zeta.
  unfold ComponentDetectorService.calculate_component_center,
    _calculate_center. cbn [fst snd].
  split; [reflexivity|].
  pose proof (Z.div_mod w 2 ltac:(lia)).
  pose proof (Z.mod_pos_bound w 2 ltac:(lia)).
  pose proof (Z.div_mod h 2 ltac:(lia)).
  pose proof (Z.mod_pos_bound h 2 ltac:(lia)).
  lia.
Qed.

Section Leaderless.
Variable image_bounds : Z * Z.
Variables start_number increment : Z.

(** Without leader lines an iteration cannot raise. *)
Lemma run_loop_without_leader_lines (items : list (Z * component)) :
  forall st : loop_state,
  exists st',
    run_loop image_bounds start_number increment false st items = Some st' /\
    (Forall (fun l => has_leader_line l = false) (labels st) ->
     Forall (fun l => has_leader_line l = false) (labels st')) /\
    exists new,
      labels st' = labels st ++ new /\
      svg_root st' =
        append_all (svg_root st)
          (map (fun l => label_group (number l) (position l)) new).
Proof.
  induction items as [|[i comp] items IH]; intros st.
  - exists st. split; [reflexivity|]. split; [auto|].
    exists []. now rewrite app_nil_r.
  - cbn [run_loop]. unfold loop_body. cbn [andb].
    match goal with
    | |- context [run_loop _ _ _ _ ?s items] => destruct (IH s)
          as (st' & Hrun & Hflags & new & Hl & Hr)
    end.
    exists st'. split; [exact Hrun|]. cbn [labels svg_root] in *. split.
    + intros Hall. apply Hflags. apply Forall_app. split; [exact Hall|].
      now repeat constructor.
    + eexists (_ :: new). rewrite Hl, <- app_assoc. split; [reflexivity|].
      rewrite Hr. unfold _add_label_to_svg. reflexivity.
Qed.
End Leaderless.

Section Place.
Variable fromstring : string -> option ET.element.
Variable tostring : ET.element -> string.

(** Without leader lines the loop appends one group per label. *)
Lemma leaderless_call (svg_content : string)
    (components : list component) (start_number increment : Z)
    (root : ET.element) (width height : Z) :
  parse_svg fromstring svg_content = Some root ->
  dimension root "width" 800 = Some width ->
  dimension root "height" 600 = Some height ->
  exists lbls,
    place_labels_on_svg fromstring tostring svg_content components
      start_number increment false
    = Some (tostring
              (append_all root
                 (map (fun l => label_group (number l) (position l)) lbls)),
            lbls) /\
    List.length lbls = List.length components /\
    Forall (fun l => has_leader_line l = false) lbls.
Proof.
  intros Hp Hw Hh. unfold place_labels_on_svg, annotate_tree.
  rewrite Hp, Hw, Hh.
  destruct (run_loop_without_leader_lines (width, height) start_number
              increment
              (Py.enumerate (_sort_components_by_importance components))
              (mkState root [] []))
    as (st' & Hrun & Hflags & new & Hl & Hr).
  rewrite Hrun. cbn [labels svg_root app] in *. subst new.
  exists (labels st'). rewrite Hr. split; [reflexivity|].
  split; [|apply Hflags; constructor].
  destruct (run_loop_steps _ _ _ _ _ _ _ _ Hrun)
    as (ls & ess & Hsteps & Hls & _).
  cbn [labels app] in Hls. rewrite Hls.
  destruct (steps_length _ _ _ _ _ _ _ _ _ Hsteps) as [-> _].
  apply SortFacts.sorted_reverse_length.
Qed.

(** X6. With [add_leader_lines] off, a successful call returns one label
    per component, none with a leader line, and serializes the tree it
    parsed with one group per label appended after the former children of
    the root, in label order, and no line: each group is a circle of
    radius 12 at the label position followed by the label number as
    centered text. *)
Theorem without_leader_lines_only_groups (svg_content : string)
    (components : list component) (start_number increment : Z)
    (out : string) (lbls : list label) :
  place_labels_on_svg fromstring tostring svg_content components
    start_number increment false = Some (out, lbls) ->
  List.length lbls = List.length components /\
  Forall (fun l => has_leader_line l = false) lbls /\
  exists root,
    parse_svg fromstring svg_content = Some root /\
    out =
      tostring
        (ET.Element (ET.tag root) (ET.attrib root) (ET.text root)
           (ET.tail root)
           (ET.children root ++
            map (fun l =>
                   let px := fst (position l) in
                   let py := snd (position l) in
                   ET.Element "g" [("class", "patent-label")] None None
                     [ ET.Element "circle"
                         [ ("cx", Py.str px); ("cy", Py.str py);
                           ("r", "12"); ("fill", "white");
                           ("stroke", "black"); ("stroke-width", "1.5") ]
                         None None [];
                       ET.Element "text"
                         [ ("x", Py.str px); ("y", Py.str (py + 5));
                           ("font-family", "Arial, sans-serif");
                           ("font-size", "14"); ("font-weight", "bold");
                           ("fill", "black"); ("text-anchor", "middle");
                           ("dominant-baseline", "middle") ]
                         (Some (Py.str (number l))) None [] ])
                lbls)).
Proof.
  intros Hrun.
  destruct (place_labels_success _ _ _ _ _ _ _ _ _ Hrun)
    as (root & width & height & ess & Hp & Hw & Hh & _ & _).
  destruct (leaderless_call svg_content components start_number increment
              root width height Hp Hw Hh) as (lbls' & Hcall & Hlen & Hno).
  rewrite Hrun in Hcall. injection Hcall as Hout Hl. subst lbls'.
  split; [exact Hlen|]. split; [exact Hno|].
  exists root. split; [exact Hp|]. rewrite Hout.
  destruct root as [tg a tx tl ch]. rewrite append_all_children.
  cbn [ET.tag ET.attrib ET.text ET.tail ET.children].
  do 3 f_equal. apply map_ext. intros l.
  apply AnnotationFacts.label_group_elements.
Qed.
End Place.

Section SameSize.
Variable image_bounds : Z * Z.
Variables start_number increment : Z.
Variable add_leader_lines : bool.

(** The labels and the positions taken do not depend on the tree the
    elements are appended to. *)
Lemma run_loop_labels_ignore_tree (items : list (Z * component)) :
  forall st1 st2 : loop_state,
  labels st1 = labels st2 ->
  placed_positions st1 = placed_positions st2 ->
  option_map labels
    (run_loop image_bounds start_number increment add_leader_lines st1 items)
  = option_map labels
      (run_loop image_bounds start_number increment add_leader_lines st2
         items).
Proof.
  induction items as [|[i comp] items IH]; intros st1 st2 Hl Hp.
  - simpl. now rewrite Hl.
  - cbn [run_loop]. unfold loop_body. rewrite Hl, Hp.
    destruct (add_leader_lines && _) eqn:Efar.
    + unfold _add_leader_line.
      destruct (leader_end _ _); [|reflexivity].
      now apply IH.
    + now apply IH.
Qed.
End SameSize.

Lemma annotate_tree_labels_same_size (root1 root2 : ET.element)
    (components : list component) (start_number increment : Z)
    (add_leader_lines : bool) :
  dimension root1 "width" 800 = dimension root2 "width" 800 ->
  dimension root1 "height" 600 = dimension root2 "height" 600 ->
  option_map labels
    (annotate_tree root1 components start_number increment add_leader_lines)
  = option_map labels
      (annotate_tree root2 components start_number increment
         add_leader_lines).
Proof.
  intros Hw Hh. unfold annotate_tree. rewrite Hw, Hh.
  destruct (dimension root2 "width" 800) as [width|]; [|reflexivity].
  destruct (dimension root2 "height" 600) as [height|]; [|reflexivity].
  now apply run_loop_labels_ignore_tree.
Qed.

(** X7. The labels depend on the document only through its declared width
    and height: two trees that give the same two values get the same labels
    (numbers, positions, ids, leader-line flags), or both calls raise. *)
Theorem labels_depend_on_declared_size_only (root1 root2 : ET.element)
    (components : list component) (start_number increment : Z)
    (add_leader_lines : bool) :
  dimension root1 "width" 800 = dimension root2 "width" 800 ->
  dimension root1 "height" 600 = dimension root2 "height" 600 ->
  option_map labels
    (annotate_tree root1 components start_number increment add_leader_lines)
  = option_map labels
      (annotate_tree root2 components start_number increment
         add_leader_lines).
Proof.
  apply annotate_tree_labels_same_size.
Qed.

End GeometryFacts.

(* ================================================================== *)
(** * Further properties: detection *)
(* ================================================================== *)

Module DetectionFacts.
Import ComponentDetectorService FloatOrder DetectorFacts.

(** X8. The class [unknown] is given to the boxes of height 0 and to no
    other box. *)
Theorem unknown_iff_no_height (x y w h : Z) :
  _classify_component (x, y, w, h) = unknown <-> h = 0.
Proof.
  unfold _classify_component. destruct (Z.eqb_spec h 0) as [E | E].
  - tauto.
  - split; [|contradiction].
    repeat match goal with
    | |- context [if ?b then _ else _] => destruct b
    end; discriminate.
Qed.

(** ** Lists *)

Lemma firstn_Forall {A : Type} (P : A -> Prop) (n : nat) (l : list A) :
  Forall P l -> Forall P (firstn n l).
Proof.
  intros H. revert n. induction H; intros [|n]; simpl; constructor; auto.
Qed.

Lemma firstn_StronglySorted {A : Type} (R : A -> A -> Prop) (n : nat)
    (l : list A) :
  StronglySorted R l -> StronglySorted R (firstn n l).
Proof.
  intros H. revert n. induction H as [|a l Hs IH Ha]; intros [|n]; simpl;
    constructor; auto.
  now apply firstn_Forall.
Qed.

Lemma firstn_NoDup {A : Type} (n : nat) (l : list A) :
  NoDup l -> NoDup (firstn n l).
Proof.
  intros H. revert n. induction H as [|a l Ha Hnd IH]; intros [|n]; simpl;
    constructor; auto.
  intros Hin. apply Ha. revert Hin. clear.
  revert n. induction l as [|b l IH]; intros [|n]; simpl; try tauto.
  intros [-> | Hin]; [now left | right; eauto].
Qed.

Lemma slice_to_Forall {A : Type} (P : A -> Prop) (l : list A) (n : Z) :
  Forall P l -> Forall P (Py.slice_to l n).
Proof. unfold Py.slice_to. destruct (0 <=? n); apply firstn_Forall. Qed.

Lemma slice_to_length {A : Type} (l : list A) (n : Z) :
  0 <= n -> Z.of_nat (List.length (Py.slice_to l n)) <= n.
Proof.
  intros Hn. unfold Py.slice_to.
  destruct (Z.leb_spec 0 n); [|lia].
  pose proof (firstn_le_length (Z.to_nat n) l).
  rewrite length_firstn. lia.
Qed.

(** Sorting by area, largest first. *)
Lemma sorted_by_area (components : list component) :
  StronglySorted (fun a b => c_area b <= c_area a)
    (Py.sorted_reverse Z.ltb c_area components).
Proof.
  assert (H : StronglySorted (Py.not_below Z.ltb c_area)
                (Py.sorted_reverse Z.ltb c_area components)).
  { apply SortFacts.sorted_reverse_strongly with (good := fun _ => True).
    - intros a b. rewrite Z.ltb_lt, Z.ltb_ge. lia.
    - intros a b c _. rewrite !Z.ltb_ge. lia.
    - rewrite Forall_forall. auto. }
  induction H as [|a l Hs IH Ha]; constructor; [exact IH|].
  eapply Forall_impl; [|exact Ha].
  intros b. unfold Py.not_below. now rewrite Z.ltb_ge.
Qed.

(** ** The two strategies *)

Lemma sam2_components_ok (min_area : Z) (masks : list sam_mask) :
  forall i,
    let found := sam2_components min_area (Py.enumerate_from i masks) in
    Forall (well_formed min_area i) found /\
    StronglySorted (fun a b => c_id a < c_id b) found.
Proof.
  induction masks as [|m masks IH]; intros i; cbn zeta.
  - simpl. split; constructor.
  - destruct (IH (i + 1)) as [Hwf Hs]. cbn [Py.enumerate_from sam2_components].
    assert (Hwf' : Forall (well_formed min_area i)
                     (sam2_components min_area
                        (Py.enumerate_from (i + 1) masks))).
    { eapply Forall_impl; [|exact Hwf].
      intros c (H1 & H2 & H3). repeat split; auto. lia. }
    destruct (Z.ltb_spec (m_area m) min_area); [now split|].
    split.
    + constructor; [|exact Hwf']. repeat split; simpl; auto. lia.
    + constructor; [exact Hs|].
      eapply Forall_impl; [|exact Hwf]. intros c (_ & H2 & _). simpl. lia.
Qed.

(** A finite number that is not below an integer stays so when truncated. *)
Lemma truncation_not_below (f : float) (n a : Z) :
  Py.float_lt_int f n = false -> Py.int_of_float f = Some a -> n <= a.
Proof.
  unfold Py.float_lt_int, Py.cmp_float_Z, Py.int_of_float.
  destruct (Prim2SF f) as [s|s| |s m e]; try discriminate.
  - intros H [= <-]. destruct (Z.compare_spec 0 n); try discriminate; lia.
  - intros H [= <-].
    destruct (Z.leb_spec 0 e) as [He | He].
    + rewrite Z.shiftl_mul_pow2 by lia.
      destruct s;
        destruct (Z.compare_spec (Z.neg m * 2 ^ e) n);
        destruct (Z.compare_spec (Z.pos m * 2 ^ e) n);
        try discriminate; try lia.
    + rewrite Z.shiftl_div_pow2 by lia.
      assert (Hpow : 0 < 2 ^ (- e)) by (apply Z.pow_pos_nonneg; lia).
      destruct s.
      * destruct (Z.compare_spec (Z.neg m) (n * 2 ^ (- e)));
          try discriminate.
        -- assert (Z.pos m / 2 ^ (- e) <= - n); [|lia].
           apply Z.div_le_upper_bound; [exact Hpow | lia].
        -- assert (Z.pos m / 2 ^ (- e) <= - n); [|lia].
           apply Z.div_le_upper_bound; [exact Hpow | lia].
      * destruct (Z.compare_spec (Z.pos m) (n * 2 ^ (- e)));
          try discriminate;
          apply Z.div_le_lower_bound; try exact Hpow; lia.
Qed.

Lemma fallback_components_ok (min_area : Z) (contours : list contour) :
  forall i found,
    fallback_components min_area (Py.enumerate_from i contours) = Some found ->
    Forall (well_formed min_area i) found /\
    StronglySorted (fun a b => c_id a < c_id b) found.
Proof.
  induction contours as [|c contours IH]; intros i found.
  - intros [= <-]. split; constructor.
  - cbn [Py.enumerate_from fallback_components].
    assert (Hweak : forall l,
              Forall (well_formed min_area (i + 1)) l ->
              Forall (well_formed min_area i) l).
    { intros l. apply Forall_impl.
      intros x (H1 & H2 & H3). repeat split; auto. lia. }
    destruct (Py.float_lt_int (contourArea c) min_area) eqn:Elt.
    + intros Hf. destruct (IH _ _ Hf) as [Hwf Hs]. split; auto.
    + destruct (Py.int_of_float (contourArea c)) as [a|] eqn:Ea;
        [|discriminate].
      destruct (fallback_components min_area
                  (Py.enumerate_from (i + 1) contours)) as [cs|] eqn:Ecs;
        [|discriminate].
      intros [= <-]. destruct (IH _ _ Ecs) as [Hwf Hs]. split.
      * constructor; [|now apply Hweak]. repeat split; simpl; try lia.
        exact (truncation_not_below _ _ _ Elt Ea).
      * constructor; [exact Hs|].
        eapply Forall_impl; [|exact Hwf]. intros x (_ & H2 & _). simpl. lia.
Qed.

Lemma strictly_increasing_ids_NoDup (l : list component) :
  StronglySorted (fun a b => c_id a < c_id b) l -> NoDup (map c_id l).
Proof.
  induction 1 as [|a l Hs IH Ha]; simpl; constructor; [|exact IH].
  rewrite in_map_iff. intros (b & Hb & Hin).
  rewrite Forall_forall in Ha. specialize (Ha _ Hin). lia.
Qed.

Section Facts.
Variable image : Type.
Variable decode_rgb : list Byte.byte -> option image.
Variable sam2_loader : nat -> load_outcome (generator image).
Variable cv2 : option (image -> list contour).

(** What a call that returns has found before sorting and slicing. *)
Lemma detect_components_found (self self' : detector image)
    (log log' : list event) (image_bytes : list Byte.byte)
    (min_area max_components : Z) (comps : list component) :
  detect_components image decode_rgb sam2_loader cv2 self log image_bytes
    min_area max_components = (self', log', Some comps) ->
  exists found,
    comps = Py.slice_to (Py.sorted_reverse Z.ltb c_area found)
              max_components /\
    Forall (well_formed min_area 0) found /\
    NoDup (map c_id found).
Proof.
  unfold detect_components.
  destruct (decode_rgb image_bytes) as [img|]; [|discriminate].
  destruct (_lazy_load_model image sam2_loader self log) as [self1 log1].
  destruct (_initialized self1).
  - destruct (mask_generator self1) as [g|]; [|discriminate].
    unfold _detect_with_sam2.
    destruct (g img) as [masks|]; [|discriminate].
    intros [= _ _ <-]. eexists. split; [reflexivity|].
    destruct (sam2_components_ok min_area masks 0) as [Hwf Hs].
    split; [exact Hwf|]. now apply strictly_increasing_ids_NoDup.
  - unfold _detect_with_fallback. destruct cv2 as [find_contours|].
    + destruct (fallback_components min_area _) as [found|] eqn:Ef;
        [|discriminate].
      intros [= _ _ <-]. exists found. split; [reflexivity|].
      destruct (fallback_components_ok _ _ _ _ Ef) as [Hwf Hs].
      split; [exact Hwf|]. now apply strictly_increasing_ids_NoDup.
    + intros [= _ _ <-]. exists []. repeat split; constructor.
Qed.

(** What holds of the components a call returns. *)
Lemma detect_components_post (self self' : detector image)
    (log log' : list event) (image_bytes : list Byte.byte)
    (min_area max_components : Z) (comps : list component) :
  detect_components image decode_rgb sam2_loader cv2 self log image_bytes
    min_area max_components = (self', log', Some comps) ->
  StronglySorted (fun a b => c_area b <= c_area a) comps /\
  (0 <= max_components ->
   Z.of_nat (List.length comps) <= max_components) /\
  Forall (well_formed min_area 0) comps /\
  NoDup (map c_id comps).
Proof.
  intros Hcall.
  destruct (detect_components_found _ _ _ _ _ _ _ _ Hcall)
    as (found & -> & Hwf & Hnd).
  pose proof (SortFacts.sorted_reverse_perm Z.ltb c_area found) as Hp.
  split; [|split; [|split]].
  - unfold Py.slice_to.
    destruct (0 <=? max_components); apply firstn_StronglySorted,
      sorted_by_area.
  - apply slice_to_length.
  - apply slice_to_Forall.
    eapply Permutation_Forall; [exact Hp | exact Hwf].
  - unfold Py.slice_to.
    destruct (0 <=? max_components); rewrite <- firstn_map;
      apply firstn_NoDup;
      (eapply Permutation_NoDup; [apply Permutation_map, Hp | exact Hnd]).
Qed.

(** X9. The components a call returns are in descending order of area
    and, for a non-negative [max_components], at most that many. *)
Theorem detected_components_ranked_and_bounded
    (self self' : detector image) (log log' : list event)
    (image_bytes : list Byte.byte) (min_area max_components : Z)
    (comps : list component) :
  detect_components image decode_rgb sam2_loader cv2 self log image_bytes
    min_area max_components = (self', log', Some comps) ->
  StronglySorted (fun a b => c_area b <= c_area a) comps /\
  (0 <= max_components ->
   Z.of_nat (List.length comps) <= max_components).
Proof.
  intros Hcall.
  destruct (detect_components_post _ _ _ _ _ _ _ _ Hcall)
    as (Hs & Hb & _ & _).
  split; assumption.
Qed.

(** X10. Whichever strategy ran, every component returned has an area of
    at least [min_area], and its type is the class of its bounding box. *)
Theorem detected_components_pass_the_filter
    (self self' : detector image) (log log' : list event)
    (image_bytes : list Byte.byte) (min_area max_components : Z)
    (comps : list component) :
  detect_components image decode_rgb sam2_loader cv2 self log image_bytes
    min_area max_components = (self', log', Some comps) ->
  Forall (fun c => min_area <= c_area c /\
                   c_type c = _classify_component (c_bbox c)) comps.
Proof.
  intros Hcall.
  destruct (detect_components_post _ _ _ _ _ _ _ _ Hcall)
    as (_ & _ & Hwf & _).
  eapply Forall_impl; [|exact Hwf]. intros c (H1 & _ & H3). now split.
Qed.

(** X11. The ids of the components a call returns are pairwise distinct
    and not negative: each is the index of its mask or contour in the
    list the strategy worked on. *)
Theorem detected_component_ids_distinct
    (self self' : detector image) (log log' : list event)
    (image_bytes : list Byte.byte) (min_area max_components : Z)
    (comps : list component) :
  detect_components image decode_rgb sam2_loader cv2 self log image_bytes
    min_area max_components = (self', log', Some comps) ->
  NoDup (map c_id comps) /\ Forall (fun c => 0 <= c_id c) comps.
Proof.
  intros Hcall.
  destruct (detect_components_post _ _ _ _ _ _ _ _ Hcall)
    as (_ & _ & Hwf & Hnd).
  split; [exact Hnd|].
  eapply Forall_impl; [|exact Hwf]. intros c (_ & H2 & _). exact H2.
Qed.

(** A call on an instance whose model is loaded: no load attempt, no
    fallback, the instance as it was. *)
Lemma detect_with_loaded_model (self : detector image) (log : list event)
    (g : generator image) (image_bytes : list Byte.byte)
    (min_area max_components : Z) :
  _initialized self = true -> mask_generator self = Some g ->
  exists log' result,
    detect_components image decode_rgb sam2_loader cv2 self log image_bytes
      min_area max_components = (self, log', result) /\
    load_attempts log' = load_attempts log /\
    filter is_fallback log' = filter is_fallback log.
Proof.
  intros Hi Hg. unfold detect_components.
  destruct (decode_rgb image_bytes) as [img|];
    [|exists log, None; repeat split].
  unfold _lazy_load_model. rewrite Hi. cbv beta iota. rewrite Hi, Hg.
  assert (Hlog : load_attempts (log ++ [DetectedWithSam2])
                 = load_attempts log /\
                 filter is_fallback (log ++ [DetectedWithSam2])
                 = filter is_fallback log).
  { rewrite load_attempts_app, filter_app. simpl.
    rewrite app_nil_r. split; [|reflexivity].
    change (load_attempts [DetectedWithSam2]) with 0%nat. lia. }
  destruct (_detect_with_sam2 image g img min_area);
    eexists _, _; (split; [reflexivity | exact Hlog]).
Qed.

Lemma detect_all_with_loaded_model (images : list (list Byte.byte))
    (self : detector image) (log : list event) (g : generator image) :
  _initialized self = true -> mask_generator self = Some g ->
  let '(self', log') :=
    detect_all image decode_rgb sam2_loader cv2 self log images in
  self' = self /\
  load_attempts log' = load_attempts log /\
  filter is_fallback log' = filter is_fallback log.
Proof.
  intros Hi Hg. revert log.
  induction images as [|image_bytes images IH]; intros log.
  - simpl. auto.
  - simpl.
    destruct (detect_with_loaded_model self log g image_bytes 100 50 Hi Hg)
      as (log1 & result & -> & Ha & Hf).
    specialize (IH log1).
    destruct (detect_all _ _ _ _ self log1 images) as [self' log'].
    destruct IH as (H1 & H2 & H3). split; [exact H1|].
    split; congruence.
Qed.

(** X12. A loaded model is kept: on an instance whose model is loaded, no
    later call attempts a load or uses the fallback, whatever the images
    and even when the model raises on one of them; the instance stays as
    it is. *)
Theorem loaded_model_is_kept (images : list (list Byte.byte))
    (self : detector image) (log : list event) (g : generator image) :
  _initialized self = true -> mask_generator self = Some g ->
  let '(self', log') :=
    detect_all image decode_rgb sam2_loader cv2 self log images in
  self' = self /\
  load_attempts log' = load_attempts log /\
  filter is_fallback log' = filter is_fallback log.
Proof.
  intros Hi Hg. exact (detect_all_with_loaded_model images self log g Hi Hg).
Qed.

(** X13. The model is loaded once: when the attempt made by the first
    call of a sequence succeeds, the whole sequence makes that one load
    attempt, and ends with the model loaded. *)
Theorem model_is_loaded_once (image_bytes : list Byte.byte) (img : image)
    (rest : list (list Byte.byte)) (self : detector image)
    (log : list event) (g : generator image) :
  _initialized self = false ->
  decode_rgb image_bytes = Some img ->
  sam2_loader (load_attempts log) = Loaded g ->
  let '(self', log') :=
    detect_all image decode_rgb sam2_loader cv2 self log
      (image_bytes :: rest) in
  self' = mkDetector true (Some g) /\
  load_attempts log' = S (load_attempts log).
Proof.
  intros Hi Hd Hload. cbn [detect_all].
  assert (Hfirst : exists log1 result,
            detect_components image decode_rgb sam2_loader cv2 self log
              image_bytes 100 50
            = (mkDetector true (Some g), log1, result) /\
            load_attempts log1 = S (load_attempts log)).
  { unfold detect_components. rewrite Hd.
    unfold _lazy_load_model. rewrite Hi, Hload. cbn [_initialized
      mask_generator].
    assert (Hlog : load_attempts
                     ((log ++ [LoadAttempt true]) ++ [DetectedWithSam2])
                   = S (load_attempts log)).
    { rewrite !load_attempts_app.
      change (load_attempts [LoadAttempt true]) with 1%nat.
      change (load_attempts [DetectedWithSam2]) with 0%nat. lia. }
    destruct (_detect_with_sam2 image g img 100);
      eexists _, _; (split; [reflexivity | exact Hlog]). }
  destruct Hfirst as (log1 & result & -> & Hlog1).
  pose proof (detect_all_with_loaded_model rest
                (mkDetector true (Some g)) log1 g eq_refl eq_refl) as Hkept.
  destruct (detect_all _ _ _ _ _ log1 rest) as [self' log'].
  destruct Hkept as (H1 & H2 & _). split; [exact H1 | congruence].
Qed.
End Facts.
End DetectionFacts.

(* ================================================================== *)
(** * Further properties: vectorization *)
(* ================================================================== *)

Module PyFacts.

(** ** [int(str(n)) == n] *)

Section Strip.
Variable space : ascii -> bool.

Lemma lstrip_of_nonspace (c : ascii) (s : string) :
  space c = false -> Py.lstrip_of space (String c s) = String c s.
Proof. intros H. simpl. now rewrite H. Qed.

Lemma rstrip_of_nonspace (s : string) :
  (forall c, In c (list_ascii_of_string s) -> space c = false) ->
  Py.rstrip_of space s = s.
Proof.
  induction s as [|c s IH]; intros H; [reflexivity|].
  simpl. rewrite IH by (intros d Hd; apply H; now right).
  destruct s; [|reflexivity].
  now rewrite (H c (or_introl eq_refl)).
Qed.

Lemma strip_of_nonspace (s : string) :
  (forall c, In c (list_ascii_of_string s) -> space c = false) ->
  Py.rstrip_of space (Py.lstrip_of space s) = s.
Proof.
  intros H. destruct s as [|c s]; [reflexivity|].
  rewrite lstrip_of_nonspace by (apply H; now left).
  now apply rstrip_of_nonspace.
Qed.
End Strip.

Lemma all_ascii_chars (s : string) :
  (forall c, In c (list_ascii_of_string s) -> (nat_of_ascii c <? 128)%nat = true) ->
  Py.all_ascii s = true.
Proof.
  induction s as [|c s IH]; intros H; [reflexivity|].
  simpl. rewrite (H c (or_introl eq_refl)). apply IH.
  intros d Hd. apply H. now right.
Qed.

(** The digits of a decimal numeral are ASCII characters that are not
    white space. *)
Lemma digits_plain (d : Decimal.uint) :
  forall c, In c (list_ascii_of_string (NilEmpty.string_of_uint d)) ->
            Py.c_isspace c = false /\ (nat_of_ascii c <? 128)%nat = true.
Proof.
  induction d; simpl; intros c Hc; try contradiction;
    (destruct Hc as [<- | Hc]; [split; reflexivity | now apply IHd]).
Qed.

Lemma digits_acc_pos (d : Decimal.uint) :
  forall acc : positive,
    Py.digits_acc (NilEmpty.string_of_uint d) (Z.pos acc) true
    = Some (Z.pos (Pos.of_uint_acc d acc)).
Proof.
  induction d; intros acc; [reflexivity | ..];
    cbn [NilEmpty.string_of_uint Py.digits_acc Pos.of_uint_acc];
    change (Py.is_digit _) with true; cbv iota;
    rewrite <- IHd; f_equal;
    try match goal with
    | |- context [Py.digit_value ?c] =>
        let v := eval vm_compute in (Py.digit_value c) in
        change (Py.digit_value c) with v
    end; lia.
Qed.

Lemma digits_acc_zero (d : Decimal.uint) :
  Py.digits_acc (NilEmpty.string_of_uint d) 0 true
  = Some (Z.of_N (Pos.of_uint d)).
Proof.
  induction d; [reflexivity | exact IHd | ..];
    cbn [NilEmpty.string_of_uint Py.digits_acc Pos.of_uint];
    change (Py.is_digit _) with true; cbv iota;
    apply (digits_acc_pos d).
Qed.

Lemma digits_acc_start (d : Decimal.uint) :
  d <> Decimal.Nil ->
  Py.digits_acc (NilEmpty.string_of_uint d) 0 false
  = Some (Z.of_N (Pos.of_uint d)).
Proof.
  intros Hd. rewrite <- digits_acc_zero.
  destruct d; [contradiction | ..]; reflexivity.
Qed.

Lemma int_of_digits (d : Decimal.uint) :
  d <> Decimal.Nil ->
  Py.int_of_str (NilEmpty.string_of_uint d) = Some (Z.of_N (Pos.of_uint d)).
Proof.
  intros Hd. unfold Py.int_of_str.
  rewrite all_ascii_chars by (intros c Hc; now apply digits_plain in Hc).
  rewrite strip_of_nonspace by (intros c Hc; now apply digits_plain in Hc).
  rewrite <- (digits_acc_start d Hd).
  destruct d; [contradiction | ..]; reflexivity.
Qed.

(** Reading back the decimal text of an integer gives the integer. *)
Lemma int_of_str_str (n : Z) : Py.int_of_str (Py.str n) = Some n.
Proof.
  unfold Py.str. destruct n as [|p|p]; [reflexivity | |].
  - cbn [Z.to_int NilZero.string_of_int].
    pose proof (DecimalPos.Unsigned.to_uint_nonnil p) as Hp.
    unfold NilZero.string_of_uint.
    destruct (Pos.to_uint p) eqn:E; [contradiction | ..];
      rewrite <- E; rewrite <- E in Hp;
      rewrite (int_of_digits _ Hp), DecimalPos.Unsigned.of_to; reflexivity.
  - cbn [Z.to_int NilZero.string_of_int].
    pose proof (DecimalPos.Unsigned.to_uint_nonnil p) as Hp.
    assert (Hs : NilZero.string_of_uint (Pos.to_uint p)
                 = NilEmpty.string_of_uint (Pos.to_uint p)).
    { unfold NilZero.string_of_uint.
      destruct (Pos.to_uint p); [contradiction | ..]; reflexivity. }
    rewrite Hs. unfold Py.int_of_str.
    assert (Hplain : forall c,
              In c (list_ascii_of_string
                      (String "-" (NilEmpty.string_of_uint (Pos.to_uint p)))) ->
              Py.c_isspace c = false /\ (nat_of_ascii c <? 128)%nat = true).
    { intros c [<- | Hc]; [split; reflexivity | now apply digits_plain in Hc]. }
    rewrite all_ascii_chars by (intros c Hc; now apply Hplain in Hc).
    rewrite strip_of_nonspace by (intros c Hc; now apply Hplain in Hc).
    rewrite (digits_acc_start _ Hp), DecimalPos.Unsigned.of_to.
    reflexivity.
Qed.

End PyFacts.

Module VectorizationFacts.
Import VectorizationService IndentFacts AnnotationService AnnotationSpec.

Lemma content_set_tail_blank (e : ET.element) (t : option string) :
  blank (ET.tail e) = true -> blank t = true ->
  content (ET.set_tail e t) = content e.
Proof.
  destruct e as [tg a tx tl ch]. simpl. now intros -> ->.
Qed.

Lemma content_set_last_tail (indent : string) (l : list ET.element) :
  blank (Some indent) = true ->
  map content (set_last_tail indent l) = map content l.
Proof.
  intros Hb. induction l as [|c [|d r] IH]; [reflexivity | | ].
  - cbn [set_last_tail map]. destruct (blank (ET.tail c)) eqn:E;
      [|reflexivity].
    now rewrite content_set_tail_blank.
  - rewrite set_last_tail_cons. cbn [map] in *. now rewrite IH.
Qed.

Lemma content_indent_xml (e : ET.element) :
  forall level, content (_indent_xml e level) = content e.
Proof.
  induction e as [tg a tx tl ch IH] using ET.element_children_ind.
  intros level. rewrite indent_xml_eq. destruct ch as [|c r].
  - destruct (negb (level =? 0)%nat && blank tl) eqn:E; [|reflexivity].
    apply andb_prop in E as [_ E]. cbn [content].
    now rewrite E, blank_indent.
  - cbn [content]. rewrite content_set_last_tail by apply blank_indent.
    rewrite map_map. f_equal.
    + destruct (blank tx) eqn:E; [now rewrite blank_indent_text|].
      now rewrite E.
    + destruct (blank tl) eqn:E; [now rewrite blank_indent|].
      now rewrite E.
    + apply map_ext_Forall. eapply Forall_impl; [|exact IH].
      intros x Hx. apply Hx.
Qed.

Lemma attrib_content (e : ET.element) : ET.attrib (content e) = ET.attrib e.
Proof. now destruct e. Qed.

Lemma dimension_indent_xml (root : ET.element) (level : nat) (name : string)
    (default : Z) :
  dimension (_indent_xml root level) name default
  = dimension root name default.
Proof.
  unfold dimension, ET.get.
  rewrite <- (attrib_content (_indent_xml root level)), content_indent_xml.
  now rewrite attrib_content.
Qed.

(** X14. Indenting is idempotent: a second pass at the same level leaves
    an indented tree as it is, at every depth of the document. *)
Theorem indentation_is_idempotent (e : ET.element) (level : nat) :
  _indent_xml (_indent_xml e level) level = _indent_xml e level.
Proof. apply IndentFacts.indent_xml_idempotent. Qed.

(** X15. Indenting changes layout only: with blank [text] and [tail] set
    aside, the indented tree is the tree it was made from, with every tag,
    attribute, non-blank text and child in place. *)
Theorem indentation_keeps_content (e : ET.element) (level : nat) :
  content (_indent_xml e level) = content e /\
  ET.tag (_indent_xml e level) = ET.tag e /\
  ET.attrib (_indent_xml e level) = ET.attrib e /\
  List.length (ET.children (_indent_xml e level))
  = List.length (ET.children e).
Proof.
  pose proof (content_indent_xml e level) as Hc.
  split; [exact Hc|].
  destruct e as [tg a tx tl ch], (_indent_xml (ET.Element tg a tx tl ch) level)
    as [tg' a' tx' tl' ch'].
  cbn [content] in Hc. injection Hc as -> -> _ _ Hch.
  repeat split. cbn [ET.children].
  apply (f_equal (@List.length _)) in Hch. now rewrite !length_map in Hch.
Qed.

(** X16. Labelling the indented document gives the same labels as
    labelling the document itself: optimizing before annotating moves no
    label. *)
Theorem labels_unchanged_by_indentation (root : ET.element) (level : nat)
    (components : list component) (start_number increment : Z)
    (add_leader_lines : bool) :
  option_map labels
    (annotate_tree (_indent_xml root level) components start_number
       increment add_leader_lines)
  = option_map labels
      (annotate_tree root components start_number increment
         add_leader_lines).
Proof.
  apply GeometryFacts.annotate_tree_labels_same_size;
    apply dimension_indent_xml.
Qed.

Section Trace.
Variable float_str : float -> string.

Lemma append_paths (path : list curve) (tg : string)
    (a : list (string * string)) (tx tl : option string) :
  forall ch,
    fold_left (fun svg cv => ET.append svg (path_elem float_str cv)) path
      (ET.Element tg a tx tl ch)
    = ET.Element tg a tx tl (ch ++ map (path_elem float_str) path).
Proof.
  induction path as [|cv path IH]; intros ch; simpl.
  - now rewrite app_nil_r.
  - rewrite IH. now rewrite <- app_assoc.
Qed.

Lemma path_tree_eq (path : list curve) (width height : Z) :
  path_tree float_str path width height =
    ET.Element "svg" (ET.attrib (svg_root_elem width height)) None None
      (map (path_elem float_str) path).
Proof. unfold path_tree, svg_root_elem, ET.new. apply append_paths. Qed.

(** X17. The tree [_path_to_svg] serializes has one [path] child per
    curve of the trace, in order, and none for an empty trace; the width
    and height it declares are read back by the annotator as exactly the
    width and height of the raster. *)
Theorem traced_tree_declares_raster_size (path : list curve)
    (width height : Z) :
  let tree := path_tree float_str path width height in
  ET.children tree = map (path_elem float_str) path /\
  dimension tree "width" 800 = Some width /\
  dimension tree "height" 600 = Some height.
Proof.
  cbv zeta. rewrite path_tree_eq. split; [reflexivity|].
  unfold dimension, ET.get. cbn.
  now rewrite !PyFacts.int_of_str_str.
Qed.
End Trace.

End VectorizationFacts.

(* ================================================================== *)
(** * Further properties: the pipeline *)
(* ================================================================== *)

Module PipelineFacts.
Import ComponentDetectorService AnnotationService AnnotationSpec.
Import DiagramPipelineService LoopFacts DetectorFacts DetectionFacts.

Section Labels.
Variable fromstring : string -> option ET.element.
Variable tostring : ET.element -> string.

(** The labels of a successful call against its components. *)
Lemma labels_match_components (svg_content : string)
    (components : list component) (start_number increment : Z)
    (add_leader_lines : bool) (out : string) (lbls : list label) :
  AnnotationService.place_labels_on_svg fromstring tostring svg_content
    components start_number increment add_leader_lines = Some (out, lbls) ->
  List.length lbls = List.length components /\
  Permutation (map c_id components) (map component_id lbls).
Proof.
  intros Hrun.
  destruct (place_labels_success _ _ _ _ _ _ _ _ _ Hrun)
    as (root & width & height & ess & _ & _ & _ & Hsteps & _).
  split.
  - destruct (steps_length _ _ _ _ _ _ _ _ _ Hsteps) as [-> _].
    apply SortFacts.sorted_reverse_length.
  - rewrite (steps_ids _ _ _ _ _ _ _ _ _ Hsteps).
    apply Permutation_map, SortFacts.sorted_reverse_perm.
Qed.

(** A call without components appends nothing. *)
Lemma no_components_no_labels (svg_content : string)
    (start_number increment : Z) (add_leader_lines : bool) (out : string)
    (lbls : list label) :
  AnnotationService.place_labels_on_svg fromstring tostring svg_content []
    start_number increment add_leader_lines = Some (out, lbls) ->
  lbls = [] /\
  exists root, parse_svg fromstring svg_content = Some root /\
               out = tostring root.
Proof.
  unfold AnnotationService.place_labels_on_svg, annotate_tree.
  destruct (parse_svg fromstring svg_content) as [root|]; [|discriminate].
  destruct (dimension root "width" 800); [|discriminate].
  destruct (dimension root "height" 600); [|discriminate].
  simpl. intros [= <- <-]. split; [reflexivity|]. now exists root.
Qed.
End Labels.

Section Facts.
Variable image : Type.
Variable decode_rgb : list Byte.byte -> option image.
Variable sam2_loader : nat -> load_outcome (generator image).
Variable cv2 : option (image -> list contour).
Variable float_str : float -> string.
Variable fromstring : string -> option ET.element.
Variable tostring : ET.element -> string.
Variable scour : option (string -> string).
Variable bitmap : Type.
Variable binarize : list Byte.byte -> Z -> bool -> option (Z * Z * bitmap).
Variable trace : bitmap -> list VectorizationService.curve.
Variable generate_technical_diagram :
  list Byte.byte -> string -> float -> option string
  -> option (list Byte.byte).

(** What an annotating run that returns went through. *)
Lemma process_sketch_annotated (self self' : detector image)
    (log log' : list event) (start_time end_time : float)
    (sketch_bytes : list Byte.byte) (diagram_type : string)
    (start_number number_increment : Z) (controlnet_strength : float)
    (add_leader_lines : bool) (custom_prompt : option string)
    (r : pipeline_result) :
  process_sketch image decode_rgb sam2_loader cv2 float_str fromstring
    tostring scour bitmap binarize trace generate_technical_diagram
    self log start_time end_time sketch_bytes diagram_type true
    start_number number_increment controlnet_strength add_leader_lines
    custom_prompt = (self', log', Some r) ->
  exists diagram_bytes svg_optimized components,
    generate_technical_diagram sketch_bytes diagram_type
      controlnet_strength custom_prompt = Some diagram_bytes /\
    vectorize_only float_str fromstring tostring scour bitmap binarize
      trace diagram_bytes 128 true = Some svg_optimized /\
    ComponentDetectorService.detect_components image decode_rgb
      sam2_loader cv2 self log diagram_bytes 100 50
    = (self', log', Some components) /\
    AnnotationService.place_labels_on_svg fromstring tostring
      svg_optimized components start_number number_increment
      add_leader_lines = Some (r_svg_content r, r_labels r) /\
    r_components r = map summary components /\
    r_auto_annotated r = true /\
    r_quality_metrics r =
      Some (mkMetrics (len components) (len (r_labels r))
              (average_area components)).
Proof.
  unfold process_sketch, vectorize_only.
  destruct (generate_technical_diagram _ _ _ _) as [diagram_bytes|];
    [|discriminate].
  destruct (DiagramPipelineService.bitmap_to_svg _ _ _ _ _ _ _)
    as [svg_content|] eqn:Ebmp; [|discriminate].
  destruct (DiagramPipelineService.optimize_svg _ _ _ svg_content)
    as [svg_optimized|] eqn:Eopt; [|discriminate].
  cbn [negb].
  destruct (DiagramPipelineService.detect_components _ _ _ _ _ _ _ _ _)
    as [[self1 log1] [components|]] eqn:Edet; [|discriminate].
  destruct (DiagramPipelineService.place_labels_on_svg _ _ _ _ _ _ _)
    as [[annotated_svg lbls]|] eqn:Eplace; [|discriminate].
  destruct (elapsed_ms start_time end_time); [|discriminate].
  intros [= <- <- <-].
  exists diagram_bytes, svg_optimized, components. cbn.
  split; [reflexivity|]. split; [now rewrite Ebmp|].
  split; [exact Edet|]. split; [exact Eplace|]. repeat split.
Qed.

(** X18. In the result of an annotating run the two counts of the quality
    metrics are the lengths of the two lists and are equal, at most 50;
    the labels refer to pairwise distinct components, each component of
    the result exactly once. *)
Theorem process_sketch_counts_agree (self self' : detector image)
    (log log' : list event) (start_time end_time : float)
    (sketch_bytes : list Byte.byte) (diagram_type : string)
    (start_number number_increment : Z) (controlnet_strength : float)
    (add_leader_lines : bool) (custom_prompt : option string)
    (r : pipeline_result) :
  process_sketch image decode_rgb sam2_loader cv2 float_str fromstring
    tostring scour bitmap binarize trace generate_technical_diagram
    self log start_time end_time sketch_bytes diagram_type true
    start_number number_increment controlnet_strength add_leader_lines
    custom_prompt = (self', log', Some r) ->
  exists m,
    r_quality_metrics r = Some m /\
    num_components_detected m = len (r_components r) /\
    num_labels_placed m = len (r_labels r) /\
    num_labels_placed m = num_components_detected m /\
    num_components_detected m <= 50 /\
    Permutation (map s_id (r_components r))
      (map component_id (r_labels r)) /\
    NoDup (map component_id (r_labels r)).
Proof.
  intros Hrun.
  destruct (process_sketch_annotated _ _ _ _ _ _ _ _ _ _ _ _ _ _ Hrun)
    as (diagram_bytes & svg & components & _ & _ & Hdet & Hplace & Hc & _
        & Hm).
  destruct (detect_components_post _ _ _ _ _ _ _ _ _ _ _ _ Hdet)
    as (_ & Hb & _ & Hnd).
  destruct (labels_match_components _ _ _ _ _ _ _ _ _ Hplace)
    as (Hlen & Hperm).
  eexists. split; [exact Hm|]. cbn. rewrite Hc, map_map.
  unfold len. rewrite length_map, Hlen.
  repeat split; try reflexivity.
  - apply Hb. lia.
  - exact Hperm.
  - eapply Permutation_NoDup; [exact Hperm | exact Hnd].
Qed.

(** X19. The same for [annotate_existing_svg]: the count it reports is
    the number of labels it returns, at most 50, and the labels refer to
    pairwise distinct components. *)
Theorem annotate_existing_counts_agree (self self' : detector image)
    (log log' : list event) (svg_content : string)
    (reference_image : list Byte.byte) (start_number number_increment : Z)
    (add_leader_lines : bool) (r : annotation_result) :
  annotate_existing_svg image decode_rgb sam2_loader cv2 fromstring
    tostring self log svg_content reference_image start_number
    number_increment add_leader_lines = (self', log', Some r) ->
  a_num_components r = len (a_labels r) /\
  a_num_components r <= 50 /\
  NoDup (map component_id (a_labels r)).
Proof.
  unfold annotate_existing_svg.
  destruct (DiagramPipelineService.detect_components _ _ _ _ _ _ _ _ _)
    as [[self1 log1] [components|]] eqn:Edet; [|discriminate].
  destruct (DiagramPipelineService.place_labels_on_svg _ _ _ _ _ _ _)
    as [[annotated_svg lbls]|] eqn:Eplace; [|discriminate].
  intros [= _ _ <-]. cbn.
  destruct (detect_components_post _ _ _ _ _ _ _ _ _ _ _ _ Edet)
    as (_ & Hb & _ & Hnd).
  destruct (labels_match_components _ _ _ _ _ _ _ _ _ Eplace)
    as (Hlen & Hperm).
  unfold len. rewrite Hlen. split; [reflexivity|]. split.
  - apply Hb. lia.
  - eapply Permutation_NoDup; [exact Hperm | exact Hnd].
Qed.

(** X21. With [auto_annotate] off nothing is detected: the detector
    instance and its log are left as they were, whether the run returns
    or raises, and a result holds the document [vectorize_only] gives
    for the generated diagram (threshold 128, optimized), no component,
    no label and no quality metrics. *)
Theorem process_sketch_without_annotation (self self' : detector image)
    (log log' : list event) (start_time end_time : float)
    (sketch_bytes : list Byte.byte) (diagram_type : string)
    (start_number number_increment : Z) (controlnet_strength : float)
    (add_leader_lines : bool) (custom_prompt : option string)
    (result : option pipeline_result) :
  process_sketch image decode_rgb sam2_loader cv2 float_str fromstring
    tostring scour bitmap binarize trace generate_technical_diagram
    self log start_time end_time sketch_bytes diagram_type false
    start_number number_increment controlnet_strength add_leader_lines
    custom_prompt = (self', log', result) ->
  self' = self /\ log' = log /\
  forall r, result = Some r ->
    r_components r = [] /\ r_labels r = [] /\
    r_auto_annotated r = false /\ r_quality_metrics r = None /\
    exists diagram_bytes,
      generate_technical_diagram sketch_bytes diagram_type
        controlnet_strength custom_prompt = Some diagram_bytes /\
      r_diagram_image r = diagram_bytes /\
      vectorize_only float_str fromstring tostring scour bitmap binarize
        trace diagram_bytes 128 true = Some (r_svg_content r).
Proof.
  unfold process_sketch, vectorize_only.
  destruct (generate_technical_diagram _ _ _ _) as [diagram_bytes|];
    [|intros [= <- <- <-]; repeat split; discriminate].
  destruct (DiagramPipelineService.bitmap_to_svg _ _ _ _ _ _ _)
    as [svg_content|] eqn:Ebmp;
    [|intros [= <- <- <-]; repeat split; discriminate].
  destruct (DiagramPipelineService.optimize_svg _ _ _ svg_content)
    as [svg_optimized|] eqn:Eopt;
    [|intros [= <- <- <-]; repeat split; discriminate].
  cbn [negb].
  destruct (elapsed_ms start_time end_time);
    [|intros [= <- <- <-]; repeat split; discriminate].
  intros [= <- <- <-]. split; [reflexivity|]. split; [reflexivity|].
  intros r [= <-]. cbn. repeat split.
  exists diagram_bytes. split; [reflexivity|]. split; [reflexivity|].
  now rewrite Ebmp.
Qed.
End Facts.

Section NoBackend.
Variable image : Type.
Variable decode_rgb : list Byte.byte -> option image.
Variable sam2_loader : nat -> load_outcome (generator image).
Variable float_str : float -> string.
Variable fromstring : string -> option ET.element.
Variable tostring : ET.element -> string.
Variable scour : option (string -> string).
Variable bitmap : Type.
Variable binarize : list Byte.byte -> Z -> bool -> option (Z * Z * bitmap).
Variable trace : bitmap -> list VectorizationService.curve.
Variable generate_technical_diagram :
  list Byte.byte -> string -> float -> option string
  -> option (list Byte.byte).

Lemma detect_without_backends (self : detector image) (log : list event)
    (image_bytes : list Byte.byte) (img : image)
    (min_area max_components : Z) :
  decode_rgb image_bytes = Some img ->
  _initialized self = false ->
  load_fails image sam2_loader (load_attempts log) ->
  ComponentDetectorService.detect_components image decode_rgb sam2_loader
    None self log image_bytes min_area max_components
  = (mkDetector false (mask_generator self),
     log ++ [LoadAttempt false; DetectedWithFallback], Some []).
Proof.
  intros Hd Hi Hf. unfold ComponentDetectorService.detect_components.
  rewrite Hd, (lazy_load_failure _ _ _ _ Hi Hf). cbn [_initialized].
  cbn [_detect_with_fallback]. rewrite <- app_assoc. cbn [app].
  unfold Py.slice_to. simpl.
  destruct (0 <=? max_components); now rewrite firstn_nil.
Qed.

(** X20. Where neither the segmentation model nor OpenCV is available, an
    annotating run that returns gives the optimized document as the
    parser and the serializer hand it through, without label or
    component; the counts are 0 and the average area is the integer 0,
    no division taking place; the model is still not loaded. *)
Theorem process_sketch_without_detector (self self' : detector image)
    (log log' : list event) (start_time end_time : float)
    (sketch_bytes : list Byte.byte) (diagram_type : string)
    (start_number number_increment : Z) (controlnet_strength : float)
    (add_leader_lines : bool) (custom_prompt : option string)
    (r : pipeline_result) :
  _initialized self = false ->
  load_fails image sam2_loader (load_attempts log) ->
  process_sketch image decode_rgb sam2_loader None float_str fromstring
    tostring scour bitmap binarize trace generate_technical_diagram
    self log start_time end_time sketch_bytes diagram_type true
    start_number number_increment controlnet_strength add_leader_lines
    custom_prompt = (self', log', Some r) ->
  r_components r = [] /\ r_labels r = [] /\
  r_quality_metrics r = Some (mkMetrics 0 0 (PyInt 0)) /\
  _initialized self' = false /\
  exists svg_optimized root,
    vectorize_only float_str fromstring tostring scour bitmap binarize
      trace (r_diagram_image r) 128 true = Some svg_optimized /\
    parse_svg fromstring svg_optimized = Some root /\
    r_svg_content r = tostring root.
Proof.
  intros Hi Hf Hrun.
  assert (Himg : exists diagram_bytes,
            generate_technical_diagram sketch_bytes diagram_type
              controlnet_strength custom_prompt = Some diagram_bytes /\
            r_diagram_image r = diagram_bytes).
  { revert Hrun. unfold process_sketch.
    destruct (generate_technical_diagram _ _ _ _) as [d|]; [|discriminate].
    destruct (DiagramPipelineService.bitmap_to_svg _ _ _ _ _ _ _);
      [|discriminate].
    destruct (DiagramPipelineService.optimize_svg _ _ _ _);
      [|discriminate].
    cbn [negb].
    destruct (DiagramPipelineService.detect_components _ _ _ _ _ _ _ _ _)
      as [[s1 l1] [cs|]]; [|discriminate].
    destruct (DiagramPipelineService.place_labels_on_svg _ _ _ _ _ _ _)
      as [[a l]|]; [|discriminate].
    destruct (elapsed_ms _ _); [|discriminate].
    intros [= _ _ <-]. now exists d. }
  destruct Himg as (d0 & Hgen0 & Himg).
  destruct (process_sketch_annotated _ _ _ _ _ _ _ _ _ _ _ _ _ _ _ _ _ _ _
              _ _ _ _ _ _ _ Hrun)
    as (diagram_bytes & svg & components & Hgen & Hvec & Hdet & Hplace
        & Hc & _ & Hm).
  assert (Hd0 : d0 = diagram_bytes) by congruence.
  rewrite Hd0 in Himg. clear Hd0 Hgen0.
  assert (Hdec : exists img, decode_rgb diagram_bytes = Some img).
  { revert Hdet. unfold ComponentDetectorService.detect_components.
    destruct (decode_rgb diagram_bytes) as [img|]; [|discriminate].
    now exists img. }
  destruct Hdec as (img & Hdec).
  rewrite (detect_without_backends self log diagram_bytes img 100 50
             Hdec Hi Hf) in Hdet.
  injection Hdet as <- _ <-.
  destruct (no_components_no_labels _ _ _ _ _ _ _ _ Hplace)
    as (Hl & root & Hp & Hout).
  rewrite Hc, Hm, Hl, Himg. cbn. repeat split.
  exists svg, root. auto.
Qed.
End NoBackend.
End PipelineFacts.

(* ================================================================== *)
(** * Further examples *)
(* ================================================================== *)

Module MoreExamples.
Import AnnotationService AnnotationSpec ComponentDetectorService.
Import DiagramPipelineService Samples.
Import RankingFacts GeometryFacts DetectionFacts PipelineFacts.

(** The larger square before the smaller one is a ranked list. *)
Lemma ranking_keeps_ranked_input_witness :
  Sorted (fun a b =>
            (importance_score a <? importance_score b)%float = false)
    [square_60; square_40] /\
  _sort_components_by_importance [square_60; square_40]
  = [square_60; square_40].
Proof.
  assert (H : Sorted (fun a b =>
                 (importance_score a <? importance_score b)%float = false)
                [square_60; square_40]).
  { repeat constructor. }
  split; [exact H|].
  exact (ranking_keeps_ranked_input [square_60; square_40] H).
Defined.

(** The two squares in either order give the same result. *)
Lemma result_independent_of_input_order_witness :
  Permutation two_squares [square_60; square_40] /\
  NoDup two_squares /\
  AnnotationService.place_labels_on_svg fromstring tostring svg_800x600
    two_squares 10 10 true
  = AnnotationService.place_labels_on_svg fromstring tostring svg_800x600
      [square_60; square_40] 10 10 true.
Proof.
  assert (Hp : Permutation two_squares [square_60; square_40])
    by apply perm_swap.
  assert (Hnd : NoDup two_squares).
  { repeat constructor; simpl; intuition discriminate. }
  assert (Hcmp : forall a b, In a two_squares -> In b two_squares -> a <> b ->
            (importance_score b <? importance_score a)%float = true \/
            (importance_score a <? importance_score b)%float = true).
  { intros a b [<- | [<- | []]] [<- | [<- | []]] Hne;
      try congruence; [right | left]; reflexivity. }
  split; [exact Hp|]. split; [exact Hnd|].
  exact (proj2 (result_independent_of_input_order fromstring tostring
                  svg_800x600 two_squares [square_60; square_40] 10 10 true
                  Hp Hnd Hcmp)).
Defined.

(** The corner (90, 50) of the smaller square against its label. *)
Lemma label_circle_misses_own_box_witness :
  50 <= 90 <= 50 + 40 /\ 50 <= 50 <= 50 + 40 /\
  circle_radius ^ 2 <
  (90 - fst (_calculate_label_position (50, 50, 40, 40) (70, 70) []
               (800, 600))) ^ 2
  + (50 - snd (_calculate_label_position (50, 50, 40, 40) (70, 70) []
                 (800, 600))) ^ 2.
Proof.
  assert (Hu : 50 <= 90 <= 50 + 40) by lia.
  assert (Hv : 50 <= 50 <= 50 + 40) by lia.
  split; [exact Hu|]. split; [exact Hv|].
  exact (label_circle_misses_own_box 50 50 40 40 (70, 70) [] (800, 600)
           90 50 Hu Hv).
Defined.

(** On a 30x600 canvas the label goes right of the box, out of the canvas. *)
Lemma tight_canvas_gives_right_top_witness :
  (30 < 40 \/ 600 < 25) /\
  _calculate_label_position (5, 100, 10, 10) (10, 105) [] (30, 600)
  = (5 + 10 + 15, 100).
Proof.
  assert (H : 30 < 40 \/ 600 < 25) by (left; lia).
  split; [exact H|].
  exact (tight_canvas_gives_right_top 5 100 10 10 (10, 105) [] 30 600 H).
Defined.

(** A 41x41 box: the center is half a pixel before the middle. *)
Lemma center_lies_in_box_witness :
  0 <= 41 /\ 50 <= fst (_calculate_center (50, 50, 41, 41)) <= 50 + 41.
Proof.
  assert (H : 0 <= 41) by lia.
  split; [exact H|].
  exact (proj1 (proj2 (center_lies_in_box 50 50 41 41 H H))).
Defined.

(** The two squares labelled without leader lines. *)
Lemma without_leader_lines_only_groups_witness :
  AnnotationService.place_labels_on_svg fromstring tostring svg_800x600
    two_squares 10 10 false
  = Some (fst two_squares_plain_out, snd two_squares_plain_out) /\
  List.length (snd two_squares_plain_out) = List.length two_squares /\
  Forall (fun l => has_leader_line l = false) (snd two_squares_plain_out) /\
  exists root,
    parse_svg fromstring svg_800x600 = Some root /\
    fst two_squares_plain_out =
      tostring
        (ET.Element (ET.tag root) (ET.attrib root) (ET.text root)
           (ET.tail root)
           (ET.children root ++
            map (fun l =>
                   let px := fst (position l) in
                   let py := snd (position l) in
                   ET.Element "g" [("class", "patent-label")] None None
                     [ ET.Element "circle"
                         [ ("cx", Py.str px); ("cy", Py.str py);
                           ("r", "12"); ("fill", "white");
                           ("stroke", "black"); ("stroke-width", "1.5") ]
                         None None [];
                       ET.Element "text"
                         [ ("x", Py.str px); ("y", Py.str (py + 5));
                           ("font-family", "Arial, sans-serif");
                           ("font-size", "14"); ("font-weight", "bold");
                           ("fill", "black"); ("text-anchor", "middle");
                           ("dominant-baseline", "middle") ]
                         (Some (Py.str (number l))) None [] ])
                (snd two_squares_plain_out))).
Proof.
  assert (Hrun : AnnotationService.place_labels_on_svg fromstring tostring
                   svg_800x600 two_squares 10 10 false
                 = Some (fst two_squares_plain_out,
                         snd two_squares_plain_out))
    by (vm_compute; reflexivity).
  split; [exact Hrun|].
  exact (without_leader_lines_only_groups fromstring tostring svg_800x600
           two_squares 10 10 _ _ Hrun).
Defined.

(** The empty 800x600 drawing and the traced one get the same labels. *)
Lemma labels_depend_on_declared_size_only_witness :
  dimension root_800x600 "width" 800 = dimension traced_tree "width" 800 /\
  dimension root_800x600 "height" 600 = dimension traced_tree "height" 600 /\
  option_map labels (annotate_tree root_800x600 two_squares 10 10 true)
  = option_map labels (annotate_tree traced_tree two_squares 10 10 true).
Proof.
  assert (Hw : dimension root_800x600 "width" 800
               = dimension traced_tree "width" 800) by reflexivity.
  assert (Hh : dimension root_800x600 "height" 600
               = dimension traced_tree "height" 600) by reflexivity.
  split; [exact Hw|]. split; [exact Hh|].
  exact (labels_depend_on_declared_size_only root_800x600 traced_tree
           two_squares 10 10 true Hw Hh).
Defined.

(** The contour fallback on the sketch with two squares and a speck. *)
Lemma detected_components_ranked_and_bounded_witness :
  fallback_call
  = (mkDetector false None, [LoadAttempt false; DetectedWithFallback],
     Some [ mkComponent 0 (400, 300, 60, 60) 3481 0.5 0.5 circular;
            mkComponent 1 (50, 50, 40, 40) 1521 0.5 0.5 circular ]) /\
  StronglySorted (fun a b => c_area b <= c_area a)
    [ mkComponent 0 (400, 300, 60, 60) 3481 0.5 0.5 circular;
      mkComponent 1 (50, 50, 40, 40) 1521 0.5 0.5 circular ].
Proof.
  assert (H : fallback_call
    = (mkDetector false None, [LoadAttempt false; DetectedWithFallback],
       Some [ mkComponent 0 (400, 300, 60, 60) 3481 0.5 0.5 circular;
              mkComponent 1 (50, 50, 40, 40) 1521 0.5 0.5 circular ]))
    by reflexivity.
  split; [exact H|].
  exact (proj1 (detected_components_ranked_and_bounded unit decode_any
                  no_sam2 (Some find_two_squares) init _ [] _ [] 100 50 _ H)).
Defined.

Lemma detected_components_pass_the_filter_witness :
  fallback_call
  = (mkDetector false None, [LoadAttempt false; DetectedWithFallback],
     Some [ mkComponent 0 (400, 300, 60, 60) 3481 0.5 0.5 circular;
            mkComponent 1 (50, 50, 40, 40) 1521 0.5 0.5 circular ]) /\
  Forall (fun c => 100 <= c_area c /\
                   c_type c = _classify_component (c_bbox c))
    [ mkComponent 0 (400, 300, 60, 60) 3481 0.5 0.5 circular;
      mkComponent 1 (50, 50, 40, 40) 1521 0.5 0.5 circular ].
Proof.
  assert (H : fallback_call
    = (mkDetector false None, [LoadAttempt false; DetectedWithFallback],
       Some [ mkComponent 0 (400, 300, 60, 60) 3481 0.5 0.5 circular;
              mkComponent 1 (50, 50, 40, 40) 1521 0.5 0.5 circular ]))
    by reflexivity.
  split; [exact H|].
  exact (detected_components_pass_the_filter unit decode_any no_sam2
           (Some find_two_squares) init _ [] _ [] 100 50 _ H).
Defined.

Lemma detected_component_ids_distinct_witness :
  fallback_call
  = (mkDetector false None, [LoadAttempt false; DetectedWithFallback],
     Some [ mkComponent 0 (400, 300, 60, 60) 3481 0.5 0.5 circular;
            mkComponent 1 (50, 50, 40, 40) 1521 0.5 0.5 circular ]) /\
  NoDup [0; 1].
Proof.
  assert (H : fallback_call
    = (mkDetector false None, [LoadAttempt false; DetectedWithFallback],
       Some [ mkComponent 0 (400, 300, 60, 60) 3481 0.5 0.5 circular;
              mkComponent 1 (50, 50, 40, 40) 1521 0.5 0.5 circular ]))
    by reflexivity.
  split; [exact H|].
  exact (proj1 (detected_component_ids_distinct unit decode_any no_sam2
                  (Some find_two_squares) init _ [] _ [] 100 50 _ H)).
Defined.

(** Three calls on an instance holding the one-mask model. *)
Lemma loaded_model_is_kept_witness :
  _initialized (mkDetector true (Some one_mask_model)) = true /\
  load_attempts
    (snd (detect_all unit decode_any no_sam2 None
            (mkDetector true (Some one_mask_model)) [LoadAttempt true]
            [[]; []; []])) = 1%nat.
Proof.
  assert (Hi : _initialized (mkDetector true (Some one_mask_model)) = true)
    by reflexivity.
  split; [exact Hi|].
  pose proof (loaded_model_is_kept unit decode_any no_sam2 None [[]; []; []]
                (mkDetector true (Some one_mask_model)) [LoadAttempt true]
                one_mask_model Hi eq_refl) as H.
  destruct (detect_all unit decode_any no_sam2 None
              (mkDetector true (Some one_mask_model)) [LoadAttempt true]
              [[]; []; []]) as [self' log'].
  destruct H as (_ & H & _). exact H.
Defined.

(** Three calls on a fresh instance where the model loads at once. *)
Lemma model_is_loaded_once_witness :
  _initialized (init (image := unit)) = false /\
  decode_any [] = Some tt /\
  early_sam2 (load_attempts []) = Loaded one_mask_model /\
  load_attempts
    (snd (detect_all unit decode_any early_sam2 None init [] [[]; []; []]))
  = 1%nat.
Proof.
  assert (Hi : _initialized (init (image := unit)) = false) by reflexivity.
  assert (Hd : decode_any [] = Some tt) by reflexivity.
  assert (Hl : early_sam2 (load_attempts []) = Loaded one_mask_model)
    by reflexivity.
  split; [exact Hi|]. split; [exact Hd|]. split; [exact Hl|].
  pose proof (model_is_loaded_once unit decode_any early_sam2 None [] tt
                [[]; []] init [] one_mask_model Hi Hd Hl) as H.
  destruct (detect_all unit decode_any early_sam2 None init []
              ([] :: [[]; []])) as [self' log'].
  destruct H as (_ & H). exact H.
Defined.

(** The pipeline on the sample sketch, with OpenCV alone. *)
Lemma process_sketch_counts_agree_witness :
  process_sketch unit decode_any no_sam2 (Some find_two_squares) float_str
    fromstring_traced tostring None unit binarize_800x600 trace_triangle
    generate_same init [] 0 0.25 [] "generic" true 10 10 0.8 true None
  = pipeline_run /\
  exists r m,
    snd pipeline_run = Some r /\ r_quality_metrics r = Some m /\
    num_labels_placed m = num_components_detected m /\
    num_components_detected m = 2.
Proof.
  assert (Hrun :
    process_sketch unit decode_any no_sam2 (Some find_two_squares) float_str
      fromstring_traced tostring None unit binarize_800x600 trace_triangle
      generate_same init [] 0 0.25 [] "generic" true 10 10 0.8 true None
    = pipeline_run) by (vm_compute; reflexivity).
  split; [exact Hrun|].
  unfold pipeline_run in Hrun |- *.
  match type of Hrun with _ = (?s, ?l, Some ?r) =>
    destruct (process_sketch_counts_agree unit decode_any no_sam2
                (Some find_two_squares) float_str fromstring_traced tostring
                None unit binarize_800x600 trace_triangle generate_same
                init s [] l 0 0.25 [] "generic" 10 10 0.8 true None r Hrun)
      as (m & Hm & Hc & _ & Heq & _);
    exists r, m
  end.
  split; [reflexivity|]. split; [exact Hm|]. split; [exact Heq|].
  rewrite Hc. reflexivity.
Defined.

(** An annotation of the 800x600 drawing against the sample sketch. *)
Lemma annotate_existing_counts_agree_witness :
  annotate_existing_svg unit decode_any no_sam2 (Some find_two_squares)
    fromstring tostring init [] svg_800x600 [] 10 10 true
  = annotation_run /\
  exists r, snd annotation_run = Some r /\ a_num_components r = 2.
Proof.
  assert (Hrun :
    annotate_existing_svg unit decode_any no_sam2 (Some find_two_squares)
      fromstring tostring init [] svg_800x600 [] 10 10 true
    = annotation_run) by (vm_compute; reflexivity).
  split; [exact Hrun|].
  unfold annotation_run in Hrun |- *.
  match type of Hrun with _ = (?s, ?l, Some ?r) =>
    destruct (annotate_existing_counts_agree unit decode_any no_sam2
                (Some find_two_squares) fromstring tostring init s [] l
                svg_800x600 [] 10 10 true r Hrun) as (Hn & _ & _);
    exists r
  end.
  split; [reflexivity|]. rewrite Hn. reflexivity.
Defined.

(** The pipeline on the sample sketch where nothing can detect. *)
Lemma process_sketch_without_detector_witness :
  _initialized (init (image := unit)) = false /\
  load_fails unit no_sam2 (load_attempts []) /\
  process_sketch unit decode_any no_sam2 None float_str fromstring_traced
    tostring None unit binarize_800x600 trace_triangle generate_same init []
    0 0.25 [] "generic" true 10 10 0.8 true None
  = pipeline_run_no_detector /\
  exists r, snd pipeline_run_no_detector = Some r /\ r_labels r = [] /\
            r_quality_metrics r = Some (mkMetrics 0 0 (PyInt 0)).
Proof.
  assert (Hi : _initialized (init (image := unit)) = false) by reflexivity.
  assert (Hf : load_fails unit no_sam2 (load_attempts []))
    by (left; reflexivity).
  assert (Hrun :
    process_sketch unit decode_any no_sam2 None float_str fromstring_traced
      tostring None unit binarize_800x600 trace_triangle generate_same init
      [] 0 0.25 [] "generic" true 10 10 0.8 true None
    = pipeline_run_no_detector) by (vm_compute; reflexivity).
  split; [exact Hi|]. split; [exact Hf|]. split; [exact Hrun|].
  unfold pipeline_run_no_detector in Hrun |- *.
  match type of Hrun with _ = (?s, ?l, Some ?r) =>
    destruct (process_sketch_without_detector unit decode_any no_sam2
                float_str fromstring_traced tostring None unit
                binarize_800x600 trace_triangle generate_same init s [] l
                0 0.25 [] "generic" 10 10 0.8 true None r Hi Hf Hrun)
      as (_ & Hl & Hm & _);
    exists r
  end.
  split; [reflexivity|]. split; [exact Hl | exact Hm].
Defined.

(** The pipeline on the sample sketch with annotation off. *)
Lemma process_sketch_without_annotation_witness :
  process_sketch unit decode_any no_sam2 (Some find_two_squares) float_str
    fromstring_traced tostring None unit binarize_800x600 trace_triangle
    generate_same init [] 0 0.25 [] "generic" false 10 10 0.8 true None
  = pipeline_run_plain /\
  fst (fst pipeline_run_plain) = init /\ snd (fst pipeline_run_plain) = [].
Proof.
  assert (Hrun :
    process_sketch unit decode_any no_sam2 (Some find_two_squares) float_str
      fromstring_traced tostring None unit binarize_800x600 trace_triangle
      generate_same init [] 0 0.25 [] "generic" false 10 10 0.8 true None
    = pipeline_run_plain) by (vm_compute; reflexivity).
  split; [exact Hrun|].
  unfold pipeline_run_plain in Hrun |- *.
  match type of Hrun with _ = (?s, ?l, ?res) =>
    destruct (process_sketch_without_annotation unit decode_any no_sam2
                (Some find_two_squares) float_str fromstring_traced tostring
                None unit binarize_800x600 trace_triangle generate_same
                init s [] l 0 0.25 [] "generic" 10 10 0.8 true None res Hrun)
      as (Hs & Hl & _)
  end.
  split; [exact Hs | exact Hl].
Defined.

End MoreExamples.
